(** * Subsequent-memory-effect analysis after 1/f correction

    A shallow embedding of
    [JacobsPythonTools/SubjectLevel/Analyses/subject_fit_spectra.py]:
    the two fitters [robust_reg] and [run_foof] and the method
    [SubjectFitSpectraAnalysis.analysis], together with the NumPy / SciPy
    operations they call.

    Numbers are idealised: an array cell is either not-a-number or an exact
    rational, so rounding (and the [float32] storage of the fitters) is not
    modelled.  Arrays are NumPy views: a shape and an indexing function, so
    that [swapaxes], [.T], slicing and masking are index remappings exactly
    as NumPy implements them.  Exceptions and the mutable result dictionary
    [self.res] are threaded through a small state-and-error monad. *)

From Stdlib Require Import QArith Qcanon.
From stdpp Require Import base numbers list strings gmap.

Open Scope Qc_scope.
Open Scope nat_scope.

(** ** Numbers *)

Inductive num : Type :=
  | NaN
  | Val (q : Qc).

Definition isnan (v : num) : bool :=
  match v with NaN => true | Val _ => false end.

Definition nadd (a b : num) : num :=
  match a, b with Val p, Val q => Val (p + q)%Qc | _, _ => NaN end.

Definition nsub (a b : num) : num :=
  match a, b with Val p, Val q => Val (p - q)%Qc | _, _ => NaN end.

Definition Qc_of_nat (n : nat) : Qc := Qc_of_Z (Z.of_nat n).

(** Division of a sum by a count.  The only zero count the program ever
    divides by belongs to an empty reduction, whose sum is [0]; IEEE
    arithmetic evaluates [0/0] to not-a-number (NumPy adds a warning). *)
Definition ndiv_count (a : num) (n : nat) : num :=
  match a, n with
  | Val p, S _ => Val (p / Qc_of_nat n)%Qc
  | _, _ => NaN
  end.

Definition nsum (l : list num) : num := foldr nadd (Val 0%Qc) l.

(** [np.mean] of a one-dimensional lane. *)
Definition mean_list (l : list num) : num := ndiv_count (nsum l) (length l).

(** [np.nanmean] of a lane, as NumPy computes it: not-a-number cells are
    replaced by zero, the lane is summed and divided by the number of cells
    that were numbers. *)
Definition replace_nan (v : num) : num :=
  match v with NaN => Val 0%Qc | Val _ => v end.

Definition count_not_nan (l : list num) : nat :=
  length (filter (fun v => isnan v = false) l).

Definition nanmean_list (l : list num) : num :=
  ndiv_count (nsum (map replace_nan l)) (count_not_nan l).

(** The cells of a lane when none of them is not-a-number. *)
Fixpoint finite_vals (l : list num) : option (list Qc) :=
  match l with
  | [] => Some []
  | NaN :: _ => None
  | Val q :: r => match finite_vals r with Some qs => Some (q :: qs) | None => None end
  end.

Definition num_eqb (a b : num) : bool :=
  match a, b with
  | NaN, NaN => true
  | Val p, Val q => Qc_eq_bool p q
  | _, _ => false
  end.

(** ** Exceptions and outcomes *)

Inductive exn : Type :=
  | TypeError
  | AttributeError
  | IndexError
  | AxisError
  | ValueError
  | UnboundLocalError
  | LibraryError (code : nat).

Inductive outcome (A : Type) : Type :=
  | Return (a : A)
  | Raise (e : exn).
Arguments Return {A} a.
Arguments Raise {A} e.

Definition obind {A B} (m : outcome A) (k : A -> outcome B) : outcome B :=
  match m with Return a => k a | Raise e => Raise e end.

Fixpoint omap {A B} (f : A -> outcome B) (l : list A) : outcome (list B) :=
  match l with
  | [] => Return []
  | a :: r => obind (f a) (fun b => obind (omap f r) (fun bs => Return (b :: bs)))
  end.

(** ** Arrays *)

Record ndarray : Type := NDArray {
  shape : list nat;
  item : list nat -> num
}.

Definition ndim (a : ndarray) : nat := length (shape a).

Fixpoint in_boundsb (idx sh : list nat) : bool :=
  match idx, sh with
  | [], [] => true
  | i :: idx', n :: sh' => (i <? n) && in_boundsb idx' sh'
  | _, _ => false
  end.

Fixpoint idx_eqb (a b : list nat) : bool :=
  match a, b with
  | [], [] => true
  | i :: a', j :: b' => (i =? j) && idx_eqb a' b'
  | _, _ => false
  end.

(** Two arrays are equal when they have the same shape and the same cell at
    every coordinate of that shape. *)
Definition arr_eq (a b : ndarray) : Prop :=
  shape a = shape b /\
  forall idx, in_boundsb idx (shape a) = true -> item a idx = item b idx.

(** All coordinates of a shape in row-major order, and the cells of an array
    in that order ([a.ravel()]). *)
Fixpoint coords (sh : list nat) : list (list nat) :=
  match sh with
  | [] => [[]]
  | n :: sh' => flat_map (fun i => map (cons i) (coords sh')) (seq 0 n)
  end.

Definition ravel (a : ndarray) : list num := map (item a) (coords (shape a)).

(** [np.full(shape, np.nan)] *)
Definition full_nan (sh : list nat) : ndarray :=
  {| shape := sh; item := fun _ => NaN |}.

(** [len(a)]: the length of the first axis. *)
Definition len (a : ndarray) : outcome nat :=
  match shape a with
  | [] => Raise TypeError
  | n :: _ => Return n
  end.

(** [a[k]] for an integer [k] (a view on the rest of the axes). *)
Definition subarray (a : ndarray) (k : nat) : ndarray :=
  {| shape := tail (shape a); item := fun idx => item a (k :: idx) |}.

(** [for y in a]: the sub-arrays along the first axis, in order. *)
Definition iterate (a : ndarray) : outcome (list ndarray) :=
  match shape a with
  | [] => Raise TypeError
  | n :: _ => Return (map (subarray a) (seq 0 n))
  end.

(** [a.T]: all axes reversed. *)
Definition transpose (a : ndarray) : ndarray :=
  {| shape := rev (shape a); item := fun idx => item a (rev idx) |}.

Definition swap_at {A} (d : A) (i j : nat) (l : list A) : list A :=
  <[i := nth j l d]> (<[j := nth i l d]> l).

(** [np.swapaxes(a, i, j)] *)
Definition swapaxes (a : ndarray) (i j : nat) : outcome ndarray :=
  if (i <? ndim a) && (j <? ndim a)
  then Return {| shape := swap_at 0 i j (shape a);
                 item := fun idx => item a (swap_at 0 i j idx) |}
  else Raise AxisError.

(** Positions of the [True] entries of a boolean vector. *)
Fixpoint true_positions (from : nat) (m : list bool) : list nat :=
  match m with
  | [] => []
  | b :: r => if b then from :: true_positions (S from) r
              else true_positions (S from) r
  end.

(** [a[m]] for a boolean vector [m] along the first axis. *)
Definition mask_index (a : ndarray) (m : list bool) : outcome ndarray :=
  match shape a with
  | [] => Raise IndexError
  | n :: sh =>
      if length m =? n
      then let pos := true_positions 0 m in
           Return {| shape := length pos :: sh;
                     item := fun idx =>
                       match idx with
                       | [] => NaN
                       | k :: r => item a (nth k pos 0 :: r)
                       end |}
      else Raise IndexError
  end.

(** The lane of an array along its first axis at the remaining coordinates. *)
Definition lane (a : ndarray) (idx : list nat) : list num :=
  map (fun k => item a (k :: idx)) (seq 0 (hd 0 (shape a))).

(** [a.mean(axis=0)] and [np.nanmean(a, axis=0)]; both are only applied to
    the result of a mask, which has a first axis. *)
Definition reduce0 (g : list num -> num) (a : ndarray) : ndarray :=
  {| shape := tail (shape a); item := fun idx => g (lane a idx) |}.

Definition mean0 : ndarray -> ndarray := reduce0 mean_list.

Definition nanmean0 : ndarray -> ndarray := reduce0 nanmean_list.

(** [a - b] on arrays; in this program both operands always are reductions
    of the same array and so share their shape. *)
Definition arr_sub (a b : ndarray) : ndarray :=
  {| shape := shape a; item := fun idx => nsub (item a idx) (item b idx) |}.

Definition shape_eqb (s t : list nat) : bool := idx_eqb s t.

(** [np.stack(arrs, 0)] and [np.stack(arrs, -1)] *)
Definition stack_first (arrs : list ndarray) : outcome ndarray :=
  match arrs with
  | [] => Raise ValueError
  | a0 :: _ =>
      if forallb (fun a => shape_eqb (shape a) (shape a0)) arrs
      then Return {| shape := length arrs :: shape a0;
                     item := fun idx =>
                       match idx with
                       | [] => NaN
                       | k :: r => item (nth k arrs a0) r
                       end |}
      else Raise ValueError
  end.

Definition stack_last (arrs : list ndarray) : outcome ndarray :=
  match arrs with
  | [] => Raise ValueError
  | a0 :: _ =>
      if forallb (fun a => shape_eqb (shape a) (shape a0)) arrs
      then Return {| shape := shape a0 ++ [length arrs];
                     item := fun idx =>
                       item (nth (List.last idx 0) arrs a0) (removelast idx) |}
      else Raise ValueError
  end.

(** Item assignment [a[idx] = v] on a full coordinate. *)
Definition set_item (a : ndarray) (idx : list nat) (v : num) : outcome ndarray :=
  if in_boundsb idx (shape a)
  then Return {| shape := shape a;
                 item := fun k => if idx_eqb k idx then v else item a k |}
  else Raise IndexError.

(** A one-dimensional value of [n] cells can be assigned to a slot of shape
    [sh] when NumPy can broadcast it: [n] is the slot's last axis, or 1. *)
Definition broadcastable (n : nat) (sh : list nat) : bool :=
  match sh with
  | [] => n =? 1
  | _ => (n =? List.last sh 0) || (n =? 1)
  end.

Definition bcast_nth (c : list num) (m : nat) : num :=
  nth (if length c =? 1 then 0 else m) c NaN.

(** [a[i] = c] for a one-dimensional [c]. *)
Definition set_row (a : ndarray) (i : nat) (c : list num) : outcome ndarray :=
  match shape a with
  | [] => Raise IndexError
  | e :: sh =>
      if i <? e
      then if broadcastable (length c) sh
           then Return {| shape := shape a;
                          item := fun k =>
                            match k with
                            | i' :: r => if i' =? i then bcast_nth c (List.last r 0)
                                         else item a k
                            | [] => item a k
                            end |}
           else Raise ValueError
      else Raise IndexError
  end.

(** [a[i, :, j] = c] for a one-dimensional [c]. *)
Definition set_lane (a : ndarray) (i j : nat) (c : list num) : outcome ndarray :=
  match shape a with
  | [e; f; s] =>
      if (i <? e) && (j <? s)
      then if (length c =? f) || (length c =? 1)
           then Return {| shape := shape a;
                          item := fun k =>
                            match k with
                            | [i'; m; j'] => if (i' =? i) && (j' =? j) then bcast_nth c m
                                             else item a k
                            | _ => item a k
                            end |}
           else Raise ValueError
      else Raise IndexError
  | _ => Raise IndexError
  end.

(** ** External numerical libraries

    The fits of statsmodels ([RLM(endog, exog, M=LeastSquares()).fit()]) and
    of FOOOF ([add_data(freqs, power); fit()]), the Student statistic of
    SciPy and the two elementary functions are not code of this repository:
    the development is parametric in them.  A fit returns the two parameters
    the fitters read ([params[0]], [params[1]] or [background_params_[0]],
    [background_params_[1]]) and a curve ([resid] or [_peak_fit]), or raises. *)

Record FitOut : Type := {
  param0 : num;
  param1 : num;
  curve : list num
}.

Class Libraries : Type := {
  log10 : Qc -> num;
  pow10 : Qc -> num;
  RLM_fit : ndarray -> ndarray -> outcome FitOut;
  FOOOF_fit : ndarray -> ndarray -> outcome FitOut;
  student : list Qc -> list Qc -> num * num
}.

(** ** State and effects *)

Inductive resval : Type :=
  | RArr (a : ndarray)
  | RNum (v : num)
  | RBools (m : list bool).

(** The mutable part of a run: the result dictionary [self.res], what has
    been printed, and the data handed to each fit so far (oldest first). *)
Record State : Type := {
  res : gmap string resval;
  stdout : list string;
  fit_log : list ndarray
}.

Definition M (A : Type) : Type := State -> outcome A * State.

Definition ret {A} (a : A) : M A := fun s => (Return a, s).

Definition bind {A B} (m : M A) (k : A -> M B) : M B :=
  fun s => match m s with
           | (Return a, s') => k a s'
           | (Raise e, s') => (Raise e, s')
           end.

Definition lift {A} (o : outcome A) : M A := fun s => (o, s).

Notation "x <- m ;; k" := (bind m (fun x => k))
  (at level 100, m at next level, right associativity).
Notation "m ;;; k" := (bind m (fun _ => k))
  (at level 100, right associativity).

Fixpoint mapM {A B} (f : A -> M B) (l : list A) : M (list B) :=
  match l with
  | [] => ret []
  | a :: r => b <- f a ;; bs <- mapM f r ;; ret (b :: bs)
  end.

Fixpoint foldM {A B} (f : B -> A -> M B) (l : list A) (b : B) : M B :=
  match l with
  | [] => ret b
  | a :: r => b' <- f b a ;; foldM f r b'
  end.

Definition enumerate {A} (l : list A) : list (nat * A) :=
  combine (seq 0 (length l)) l.

Definition print (line : string) : M unit :=
  fun s => (Return tt, {| res := res s; stdout := stdout s ++ [line];
                          fit_log := fit_log s |}).

(** [self.res[key] = v] *)
Definition store (key : string) (v : resval) : M unit :=
  fun s => (Return tt, {| res := <[key := v]> (res s); stdout := stdout s;
                          fit_log := fit_log s |}).

(** One fit of the external library on [d]. *)
Definition call_fit (fit : ndarray -> outcome FitOut) (d : ndarray) : M FitOut :=
  fun s => (fit d, {| res := res s; stdout := stdout s;
                      fit_log := fit_log s ++ [d] |}).

(** ** The fitters *)

Definition fit_result : Type := (ndarray * ndarray * ndarray)%type.

Section Fitters.
Context `{Libraries}.

(** [freq_dim = np.array([n == len(x) for n in this_event.shape])] and
    [np.where(freq_dim)[0][0]]. *)
Definition freq_dim_num (x this_event : ndarray) : outcome nat :=
  obind (len x) (fun n =>
    match true_positions 0 (map (fun d => d =? n) (shape this_event)) with
    | [] => Raise IndexError
    | k :: _ => Return k
    end).

(** [res_shape] and the three pre-filled result arrays. *)
Definition allocate (y : ndarray) : outcome (ndarray * ndarray * ndarray) :=
  match shape y with
  | [] => Raise IndexError
  | e :: _ =>
      let res_shape := if ndim y =? 3 then [e; List.last (shape y) 0] else [e] in
      Return (full_nan res_shape, full_nan res_shape, full_nan (shape y))
  end.

Definition robust_reg (x y : ndarray) : M fit_result :=
  arrays <- lift (allocate y) ;;
  events <- lift (iterate y) ;;
  foldM (fun '(slopes, offsets, resids) '(i, this_event) =>
    if ndim this_event =? 2 then
      k <- lift (freq_dim_num x this_event) ;;
      let this_event := if k =? 0 then transpose this_event else this_event in
      subs <- lift (iterate this_event) ;;
      foldM (fun '(slopes, offsets, resids) '(j, this_event_sub) =>
        r <- call_fit (fun d => RLM_fit d x) this_event_sub ;;
        offsets <- lift (set_item offsets [i; j] (param0 r)) ;;
        slopes <- lift (set_item slopes [i; j] (param1 r)) ;;
        resids <- lift (set_lane resids i j (curve r)) ;;
        ret (slopes, offsets, resids))
        (enumerate subs) (slopes, offsets, resids)
    else
      r <- call_fit (fun d => RLM_fit d x) this_event ;;
      offsets <- lift (set_item offsets [i] (param0 r)) ;;
      slopes <- lift (set_item slopes [i] (param1 r)) ;;
      resids <- lift (set_row resids i (curve r)) ;;
      ret (slopes, offsets, resids))
    (enumerate events) arrays.

(** In its inner loop [run_foof] hands the whole batch [y] to
    [fm.add_data], not [this_event_sub]. *)
Definition run_foof (x y : ndarray) : M fit_result :=
  arrays <- lift (allocate y) ;;
  events <- lift (iterate y) ;;
  foldM (fun '(slopes, offsets, resids) '(i, this_event) =>
    if ndim this_event =? 2 then
      k <- lift (freq_dim_num x this_event) ;;
      let this_event := if k =? 0 then transpose this_event else this_event in
      subs <- lift (iterate this_event) ;;
      foldM (fun '(slopes, offsets, resids) '(j, this_event_sub) =>
        r <- call_fit (FOOOF_fit x) y ;;
        offsets <- lift (set_item offsets [i; j] (param0 r)) ;;
        slopes <- lift (set_item slopes [i; j] (param1 r)) ;;
        resids <- lift (set_lane resids i j (curve r)) ;;
        ret (slopes, offsets, resids))
        (enumerate subs) (slopes, offsets, resids)
    else
      r <- call_fit (FOOOF_fit x) this_event ;;
      offsets <- lift (set_item offsets [i] (param0 r)) ;;
      slopes <- lift (set_item slopes [i] (param1 r)) ;;
      resids <- lift (set_row resids i (curve r)) ;;
      ret (slopes, offsets, resids))
    (enumerate events) arrays.

End Fitters.

(** The loop both fitters share: [fit] is the library call and [pick] maps
    [this_event_sub] to the data the inner loop hands to it. *)
Definition sub_step (fit : ndarray -> outcome FitOut) (pick : ndarray -> ndarray)
  (i : nat) : fit_result -> nat * ndarray -> M fit_result :=
  fun '(slopes, offsets, resids) '(j, this_event_sub) =>
    r <- call_fit fit (pick this_event_sub) ;;
    offsets <- lift (set_item offsets [i; j] (param0 r)) ;;
    slopes <- lift (set_item slopes [i; j] (param1 r)) ;;
    resids <- lift (set_lane resids i j (curve r)) ;;
    ret (slopes, offsets, resids).

Definition event_step (fit : ndarray -> outcome FitOut) (pick : ndarray -> ndarray)
  (x : ndarray) : fit_result -> nat * ndarray -> M fit_result :=
  fun '(slopes, offsets, resids) '(i, this_event) =>
    if ndim this_event =? 2 then
      k <- lift (freq_dim_num x this_event) ;;
      let this_event := if k =? 0 then transpose this_event else this_event in
      subs <- lift (iterate this_event) ;;
      foldM (sub_step fit pick i) (enumerate subs) (slopes, offsets, resids)
    else
      r <- call_fit fit this_event ;;
      offsets <- lift (set_item offsets [i] (param0 r)) ;;
      slopes <- lift (set_item slopes [i] (param1 r)) ;;
      resids <- lift (set_row resids i (curve r)) ;;
      ret (slopes, offsets, resids).

Definition fit_batch (fit : ndarray -> outcome FitOut) (pick : ndarray -> ndarray)
  (x y : ndarray) : M fit_result :=
  arrays <- lift (allocate y) ;;
  events <- lift (iterate y) ;;
  foldM (event_step fit pick x) (enumerate events) arrays.

(** The spectrum of event [i] at sub-unit [j] of a batch laid out as
    events x frequencies x sub-units: [y[i].T[j]]. *)
Definition spectrum (y : ndarray) (i j : nat) : ndarray :=
  subarray (transpose (subarray y i)) j.

(** ** The analysis *)

Record SubjectData : Type := {
  data : ndarray
}.

(** The attributes of [self] that [analysis] reads.  [recall_filter_func] is
    the caller's function; it is applied to [self.subject_data], which may be
    [None]. *)
Record Self : Type := {
  subject : string;
  subject_data : option SubjectData;
  recall_filter_func : option (option SubjectData -> outcome (list bool));
  use_fooof : bool;
  fooof_fit_each_event : bool;
  log_power : bool;
  freqs : list Qc
}.

(** [x[0]] (slopes), [x[1]] (offsets), [x[2]] (residuals) *)
Definition field (k : nat) (x : fit_result) : ndarray :=
  match k with
  | 0 => fst (fst x)
  | 1 => snd (fst x)
  | _ => snd x
  end.

(** [a[k]] with its bounds check. *)
Definition index_int (a : ndarray) (k : nat) : outcome ndarray :=
  match shape a with
  | [] => Raise IndexError
  | n :: _ => if k <? n then Return (subarray a k) else Raise IndexError
  end.

(** Lines 73-76: swap the electrode and time axes of a four-dimensional
    array whose time axis is the shorter one. *)
Definition normalize (p_spects : ndarray) : outcome (ndarray * bool) :=
  if (ndim p_spects =? 4) && (nth 3 (shape p_spects) 0 <? nth 2 (shape p_spects) 0)
  then obind (swapaxes p_spects 2 3) (fun p => Return (p, true))
  else Return (p_spects, false).

(** [a if not is_swapped else np.swapaxes(a, i, j)] *)
Definition denormalize (is_swapped : bool) (a : ndarray) (i j : nat) : outcome ndarray :=
  if negb is_swapped then Return a else swapaxes a i j.

(** [np.mean(recalled)] *)
Definition p_recall (recalled : list bool) : num :=
  mean_list (map (fun b : bool => Val (if b then 1 else 0)%Qc) recalled).

Section Analysis.
Context `{Libraries}.

(** [sm.tools.tools.add_constant(np.log10(self.freqs))]: a column of ones
    before the log-frequencies. *)
Definition design_matrix (f : list Qc) : ndarray :=
  {| shape := [length f; 2];
     item := fun idx =>
       match idx with
       | [k; 0] => Val 1%Qc
       | [k; 1] => log10 (nth k f 0%Qc)
       | _ => NaN
       end |}.

Definition freqs_array (f : list Qc) : ndarray :=
  {| shape := [length f];
     item := fun idx => match idx with [k] => Val (nth k f 0%Qc) | _ => NaN end |}.

(** [ne.evaluate("10**p_spects")] *)
Definition exp10 (a : ndarray) : ndarray :=
  {| shape := shape a;
     item := fun idx => match item a idx with NaN => NaN | Val q => pow10 q end |}.

(** [scipy.stats.ttest_ind(a, b, axis=0)] with its defaults: an empty sample
    gives not-a-number, a not-a-number cell propagates
    ([nan_policy='propagate']), otherwise the Student statistic and its
    two-sided p-value. *)
Definition ttest_lane (a b : list num) : num * num :=
  if (length a =? 0) || (length b =? 0) then (NaN, NaN)
  else match finite_vals a, finite_vals b with
       | Some p, Some q => student p q
       | _, _ => (NaN, NaN)
       end.

Definition ttest_ind (a b : ndarray) : ndarray * ndarray :=
  ({| shape := tail (shape a); item := fun idx => fst (ttest_lane (lane a idx) (lane b idx)) |},
   {| shape := tail (shape a); item := fun idx => snd (ttest_lane (lane a idx) (lane b idx)) |}).

(** Lines 102-107: the stacked
    [np.nanmean(x[k][recalled], axis=0) - np.nanmean(x[k][~recalled], axis=0)]. *)
Definition delta_per_event (k : nat) (recalled : list bool) (fits : list fit_result)
  : outcome ndarray :=
  obind (omap (fun x =>
           obind (mask_index (field k x) recalled) (fun a =>
           obind (mask_index (field k x) (map negb recalled)) (fun b =>
           Return (arr_sub (nanmean0 a) (nanmean0 b))))) fits)
        stack_last.

(** Lines 110-122: the stacked statistics and p-values of
    [ttest_ind(x[k][recalled], x[k][~recalled], axis=0)]. *)
Definition ttest_per_event (k : nat) (recalled : list bool) (fits : list fit_result)
  : outcome (ndarray * ndarray) :=
  obind (omap (fun x =>
           obind (mask_index (field k x) recalled) (fun a =>
           obind (mask_index (field k x) (map negb recalled)) (fun b =>
           Return (ttest_ind a b)))) fits) (fun tests =>
  obind (stack_last (map fst tests)) (fun ts =>
  obind (stack_last (map snd tests)) (fun ps =>
  Return (ts, ps)))).

(** Lines 132-134: the stacked [x[k][0] - x[k][1]]. *)
Definition delta_mean_only (k : nat) (fits : list fit_result) : outcome ndarray :=
  obind (omap (fun x =>
           obind (index_int (field k x) 0) (fun a =>
           obind (index_int (field k x) 1) (fun b =>
           Return (arr_sub a b)))) fits)
        stack_last.

(** [self.res[key] = a if not is_swapped else np.swapaxes(a, i, j)] *)
Definition store_denormalized (key : string) (is_swapped : bool) (a : ndarray) (i j : nat)
  : M unit :=
  a' <- lift (denormalize is_swapped a i j) ;;
  store key (RArr a').

Definition deltas : Type := (ndarray * ndarray * ndarray)%type.

(** Lines 100-129, the branch taken when every event was fitted. *)
Definition per_event_contrast (is_swapped : bool) (recalled : list bool)
  (fits : list fit_result) : M deltas :=
  delta_resid <- lift (delta_per_event 2 recalled fits) ;;
  delta_slopes <- lift (delta_per_event 0 recalled fits) ;;
  delta_offsets <- lift (delta_per_event 1 recalled fits) ;;
  resid <- lift (ttest_per_event 2 recalled fits) ;;
  slopes <- lift (ttest_per_event 0 recalled fits) ;;
  offsets <- lift (ttest_per_event 1 recalled fits) ;;
  store_denormalized "ts_resid" is_swapped (fst resid) 1 2 ;;;
  store_denormalized "ps_resid" is_swapped (snd resid) 1 2 ;;;
  store_denormalized "ts_slopes" is_swapped (fst slopes) 0 1 ;;;
  store_denormalized "ps_slopes" is_swapped (snd slopes) 0 1 ;;;
  store_denormalized "ts_offsets" is_swapped (fst offsets) 0 1 ;;;
  store_denormalized "ps_offsets" is_swapped (snd offsets) 0 1 ;;;
  ret (delta_resid, delta_slopes, delta_offsets).

(** Lines 132-134, the branch taken when only the two condition means were
    fitted. *)
Definition mean_only_contrast (fits : list fit_result) : M deltas :=
  delta_resid <- lift (delta_mean_only 2 fits) ;;
  delta_slopes <- lift (delta_mean_only 0 fits) ;;
  delta_offsets <- lift (delta_mean_only 1 fits) ;;
  ret (delta_resid, delta_slopes, delta_offsets).

(** Line 94: [np.stack([p[recalled].mean(axis=0), p[~recalled].mean(axis=0)], 0)] *)
Definition condition_means (p_spects : ndarray) (recalled : list bool) : outcome ndarray :=
  obind (mask_index p_spects recalled) (fun rec =>
  obind (mask_index p_spects (map negb recalled)) (fun nrec =>
  stack_first [mean0 rec; mean0 nrec])).

(** Lines 79-94: the fitter, its independent variable and the spectra it is
    given. *)
Definition prepare (self : Self) (sd : SubjectData) (recalled : list bool)
  (p_spects : ndarray)
  : M ((ndarray -> ndarray -> M fit_result) * ndarray * ndarray) :=
  if negb (use_fooof self)
  then ret (robust_reg, design_matrix (freqs self), p_spects)
  else
    let p_spects := if log_power self then exp10 (data sd) else p_spects in
    p_spects <-
      (if negb (fooof_fit_each_event self)
       then lift (condition_means p_spects recalled)
       else ret p_spects) ;;
    ret (run_foof, freqs_array (freqs self), p_spects).

Definition analysis (self : Self) : M unit :=
  (if subject_data self is None
   then print (subject self +:+ ": compute or load data first with .load_data()!")
   else ret tt) ;;;
  (if recall_filter_func self is None
   then print (subject self +:+ " SME: please provide a .recall_filter_func function.")
   else ret tt) ;;;
  recalled <- lift (match recall_filter_func self with
                    | None => Raise TypeError
                    | Some g => g (subject_data self)
                    end) ;;
  sd <- lift (match subject_data self with
              | None => Raise AttributeError
              | Some sd => Return sd
              end) ;;
  normalized <- lift (normalize (data sd)) ;;
  let is_swapped := snd normalized in
  setup <- prepare self sd recalled (fst normalized) ;;
  let f := fst (fst setup) in
  let x := snd (fst setup) in
  let p_spects := snd setup in
  units <- lift (iterate (transpose p_spects)) ;;
  fits <- mapM (fun y => f x (transpose y)) units ;;
  deltas <-
    (if negb (use_fooof self) || (use_fooof self && fooof_fit_each_event self)
     then per_event_contrast is_swapped recalled fits
     else if use_fooof self && negb (fooof_fit_each_event self)
     then mean_only_contrast fits
     else lift (Raise UnboundLocalError)) ;;
  store_denormalized "delta_resid" is_swapped (fst (fst deltas)) 1 2 ;;;
  store_denormalized "delta_slopes" is_swapped (snd (fst deltas)) 1 2 ;;;
  store_denormalized "delta_offsets" is_swapped (snd deltas) 1 2 ;;;
  store "p_recall" (RNum (p_recall recalled)) ;;;
  store "recalled" (RBools recalled).

End Analysis.


(** ** A small instance of the libraries

    The instance below makes the model executable on concrete inputs.  Its
    fit is the simplest one there is, a constant level: the level is the mean
    of the data it is handed, the second parameter is the last datum minus
    the level, and the curve is the deviation of the first [n] data from the
    level.  Data with a not-a-number cell give not-a-number outputs. *)

Definition level_fit (n : nat) (d : ndarray) : FitOut :=
  let v := ravel d in
  let m := mean_list v in
  {| param0 := m;
     param1 := nsub (List.last v NaN) m;
     curve := map (fun k => nsub (nth k v NaN) m) (seq 0 n) |}.

Definition Qc_of_int (z : Z) : Qc := Qc_of_Z z.

(** Exact on the arguments the examples use. *)
Definition log10_table (q : Qc) : num :=
  if Qc_eq_bool q (Qc_of_int 1) then Val (Qc_of_int 0)
  else if Qc_eq_bool q (Qc_of_int 10) then Val (Qc_of_int 1)
  else if Qc_eq_bool q (Qc_of_int 100) then Val (Qc_of_int 2)
  else NaN.

Definition pow10_table (q : Qc) : num :=
  if Qc_eq_bool q (Qc_of_int 0) then Val (Qc_of_int 1)
  else if Qc_eq_bool q (Qc_of_int 1) then Val (Qc_of_int 10)
  else if Qc_eq_bool q (Qc_of_int 2) then Val (Qc_of_int 100)
  else NaN.

(** In place of the Student statistic: the difference of the sample means,
    with a p-value of one. *)
Definition mean_difference (p q : list Qc) : num * num :=
  (nsub (mean_list (map Val p)) (mean_list (map Val q)), Val 1%Qc).

Definition level_libs : Libraries := {|
  log10 := log10_table;
  pow10 := pow10_table;
  RLM_fit := fun d x => Return (level_fit (hd 0 (shape x)) d);
  FOOOF_fit := fun x d => Return (level_fit (hd 0 (shape x)) d);
  student := mean_difference
|}.

(** The same fits, except that data with a not-a-number cell make the
    library raise. *)
Definition strict_fit (n : nat) (d : ndarray) : outcome FitOut :=
  if existsb isnan (ravel d) then Raise (LibraryError 1)
  else Return (level_fit n d).

Definition strict_libs : Libraries := {|
  log10 := log10_table;
  pow10 := pow10_table;
  RLM_fit := fun d x => strict_fit (hd 0 (shape x)) d;
  FOOOF_fit := fun x d => strict_fit (hd 0 (shape x)) d;
  student := mean_difference
|}.

(** [np.array(cells).reshape(sh)]: cells in row-major order. *)
Definition offset (idx sh : list nat) : nat :=
  foldl (fun acc p => acc * snd p + fst p) 0 (combine idx sh).

Definition from_cells (sh : list nat) (cells : list num) : ndarray :=
  {| shape := sh; item := fun idx => nth (offset idx sh) cells NaN |}.

Definition int_cells (l : list Z) : list num := map (fun z => Val (Qc_of_int z)) l.

(** An array whose cells run through 0, 1, 2 along every axis. *)
Definition cycle3 (sh : list nat) : ndarray :=
  {| shape := sh;
     item := fun idx => Val (Qc_of_nat (foldr Nat.add 0 idx mod 3)) |}.

(** [a] with the cells picked by [hole] replaced by not-a-number. *)
Definition with_nan (hole : list nat -> bool) (a : ndarray) : ndarray :=
  {| shape := shape a;
     item := fun idx => if hole idx then NaN else item a idx |}.

Definition initial_state : State :=
  {| res := ∅; stdout := []; fit_log := [] |}.

Definition example_self (p : ndarray) (recalled : list bool)
  (fooof each_event logged_power : bool) : Self :=
  {| subject := "R1001P";
     subject_data := Some {| data := p |};
     recall_filter_func := Some (fun _ => Return recalled);
     use_fooof := fooof;
     fooof_fit_each_event := each_event;
     log_power := logged_power;
     freqs := [Qc_of_int 1; Qc_of_int 10] |}.

(** The shape stored under a key, and its cells in row-major order. *)
Definition stored_shape (s : State) (key : string) : option (list nat) :=
  match res s !! key with
  | Some (RArr a) => Some (shape a)
  | _ => None
  end.

Definition stored_cells (s : State) (key : string) : option (list num) :=
  match res s !! key with
  | Some (RArr a) => Some (ravel a)
  | _ => None
  end.

Definition nums_eqb (a b : list num) : bool :=
  (length a =? length b) && forallb (fun p => num_eqb (fst p) (snd p)) (combine a b).

Definition cells_are (s : State) (key : string) (expected : list num) : bool :=
  match stored_cells s key with
  | Some l => nums_eqb l expected
  | None => false
  end.

(** Every key of [keys] holds an array whose cells satisfy [P]; no key of
    [keys] is present. *)
Definition all_stored (P : list num -> bool) (s : State) (keys : list string) : bool :=
  forallb (fun key => match stored_cells s key with
                      | Some cells => P cells
                      | None => false
                      end) keys.

Definition none_stored (s : State) (keys : list string) : bool :=
  forallb (fun key => match res s !! key with
                      | None => true
                      | Some _ => false
                      end) keys.

(** Every key of [keys] holds the same cells in both states. *)
Definition same_stored (s s' : State) (keys : list string) : bool :=
  forallb (fun key => match stored_cells s key with
                      | Some cells => cells_are s' key cells
                      | None => false
                      end) keys.

(** The keys of the statistic arrays and of the delta arrays. *)
Definition stat_keys : list string :=
  ["ts_resid"; "ps_resid"; "ts_slopes"; "ps_slopes"; "ts_offsets"; "ps_offsets"].

Definition delta_keys : list string :=
  ["delta_resid"; "delta_slopes"; "delta_offsets"].

(** Example inputs of the fitters: two frequencies, and three. *)
Definition two_freqs : list Qc := [Qc_of_int 1; Qc_of_int 10].
Definition three_freqs : list Qc := [Qc_of_int 1; Qc_of_int 10; Qc_of_int 100].

(** Two batches of 2 events x 2 frequencies x 2 sub-units that differ in
    their second event only. *)
Definition batch_a : ndarray := from_cells [2; 2; 2] (int_cells [1; 2; 3; 4; 5; 6; 7; 8]%Z).
Definition batch_b : ndarray := from_cells [2; 2; 2] (int_cells [1; 2; 3; 4; 50; 60; 70; 80]%Z).

(** Three events of two frequencies; the second has a not-a-number cell. *)
Definition batch_nan : ndarray :=
  from_cells [3; 2]
    ([Val (Qc_of_int 1); Val (Qc_of_int 3); NaN; Val (Qc_of_int 9)] ++ int_cells [2; 8]%Z).

(** One event whose slice has its frequencies on the second axis
    (2 sub-units x 3 frequencies). *)
Definition batch_freq_last : ndarray :=
  from_cells [1; 2; 3] (int_cells [1; 2; 3; 4; 5; 6]%Z).

(** One event whose slice is square (3 x 3) with three frequencies. *)
Definition batch_square : ndarray :=
  from_cells [1; 3; 3] (int_cells [1; 2; 3; 4; 5; 6; 7; 8; 9]%Z).

(** Four events of two frequencies at one electrode; the second event has a
    not-a-number cell, so its fit gives not-a-number.  [cleaned_power] is the
    same array without that event. *)
Definition holed_power : ndarray :=
  from_cells [4; 2; 1]
    ([Val (Qc_of_int 1); Val (Qc_of_int 3); NaN; Val (Qc_of_int 9)]
     ++ int_cells [2; 8; 4; 10]%Z).

Definition cleaned_power : ndarray :=
  from_cells [3; 2; 1] (int_cells [1; 3; 2; 8; 4; 10]%Z).

(** Three events of two frequencies at two electrodes, and two events of
    two frequencies at one electrode and two time bins. *)
Definition power_3d : ndarray :=
  from_cells [3; 2; 2] (int_cells [1; 2; 3; 4; 5; 7; 9; 12; 0; 1; 5; 2]%Z).

Definition power_4d : ndarray :=
  from_cells [2; 2; 1; 2] (int_cells [1; 2; 3; 4; 5; 7; 9; 12]%Z).

(** The per-unit fits of line 97 on their own: [f(x, y.T) for y in p.T]. *)
Definition unit_fits (f : ndarray -> ndarray -> M fit_result) (x p : ndarray)
  : outcome (list fit_result) :=
  obind (iterate (transpose p)) (fun units =>
    fst (mapM (fun y => f x (transpose y)) units initial_state)).

(** ** Degenerate samples *)

(** Every cell of the array, at the coordinates of its shape, is
    not-a-number. *)
Definition all_nan (a : ndarray) : Prop :=
  forall idx, in_boundsb idx (shape a) = true -> item a idx = NaN.

(** The array has no cell, or one that is not-a-number. *)
Definition empty_or_nan (d : ndarray) : bool :=
  match ravel d with
  | [] => true
  | l => existsb isnan l
  end.

(** All outputs of a fit are not-a-number. *)
Definition nan_outputs (r : FitOut) : bool :=
  isnan (param0 r) && isnan (param1 r) && forallb isnan (curve r).

(** What is assumed of the FOOOF library when a condition has no event: on
    data without a cell or with a not-a-number cell its fit raises, or all
    its outputs are not-a-number. *)
Definition fooof_propagates_nan `{Libraries} : Prop :=
  forall x d, empty_or_nan d = true ->
    match FOOOF_fit x d with
    | Return r => nan_outputs r = true
    | Raise _ => True
    end.

Definition all_true (m : list bool) : bool := forallb (fun b => b) m.
Definition all_false (m : list bool) : bool := forallb negb m.

(** ** The axis ticks of the plots

    [compute_pow_two_series] (line 314):
    [np.power(2, range(int(np.log2(2 ** (int(self.freqs[-1]) - 1).bit_length())) + 1))].
    Integers are Python's unbounded ones up to the call of [np.log2], whose
    argument NumPy converts to a 64-bit integer when it fits (the logarithm
    of [2 ** b] then is [b] exactly) and to a Python object otherwise, which
    [np.log2] rejects; the powers are computed in [int64] and wrap. *)

(** [int(v)] of a float: truncation towards zero. *)
Definition int_of (q : Qc) : Z := Z.quot (Qnum (this q)) (Zpos (Qden (this q))).

(** [n.bit_length()]: the number of binary digits of [abs(n)]. *)
Definition bit_length (n : Z) : Z :=
  match n with
  | Z0 => 0
  | Zpos p | Zneg p => Z.log2 (Zpos p) + 1
  end.

(** A value stored as [int64]. *)
Definition wrap64 (z : Z) : Z := ((z + 2 ^ 63) mod 2 ^ 64 - 2 ^ 63)%Z.

(** [range(n)] for an integer [n] that is not negative. *)
Definition range (n : Z) : list Z := map Z.of_nat (seq 0 (Z.to_nat n)).

Definition compute_pow_two_series (self : Self) : outcome (list Z) :=
  match last (freqs self) with
  | None => Raise IndexError
  | Some top =>
      let b := bit_length (int_of top - 1) in
      if (b <=? 63)%Z
      then Return (map (fun k => wrap64 (2 ^ k)) (range (b + 1)))
      else Raise TypeError
  end.

(** The powers of two from [2 ** 0] to [2 ** b]. *)
Definition powers_upto (b : nat) : list Z := map (fun k => (2 ^ Z.of_nat k)%Z) (seq 0 (S b)).

(** ** The rest of the class, and [subject.py]

    The code below raises and catches exceptions that [analysis] does not
    know ([KeyError], [OSError]); [Builtin] embeds the ones it does.  The
    state-and-error monad is the one of [analysis], over any state. *)

Inductive pyexn : Type :=
  | KeyError (key : string)
  | OSError
  | Builtin (e : exn).

Inductive result (A : Type) : Type :=
  | Ok (a : A)
  | Err (e : pyexn).
Arguments Ok {A} a.
Arguments Err {A} e.

Definition ST (W A : Type) : Type := W -> result A * W.

Definition st_ret {W A} (a : A) : ST W A := fun w => (Ok a, w).

Definition st_bind {W A B} (m : ST W A) (k : A -> ST W B) : ST W B :=
  fun w => match m w with
           | (Ok a, w') => k a w'
           | (Err e, w') => (Err e, w')
           end.

Definition st_lift {W A} (r : result A) : ST W A := fun w => (r, w).

Definition st_get {W} : ST W W := fun w => (Ok w, w).

Notation "x <~ m ;; k" := (st_bind m (fun x => k))
  (at level 100, m at next level, right associativity).

(** An outcome of the analysis code as a result. *)
Definition of_outcome {A} (o : outcome A) : result A :=
  match o with Return a => Ok a | Raise e => Err (Builtin e) end.

(** ** The plots

    Matplotlib, seaborn and pandas, the method [normalize_power_spectrum]
    of a base class and the attributes [channel] and [elec_info] are not in
    this repository; the development is parametric in them.  Each
    parameter stands for the stretch of calls named beside it, which
    returns or raises and does not touch [self.res]. *)

Class Plotting : Type := {
  (** [self.subject_data.channel] *)
  channel : SubjectData -> list string;
  (** [self.normalize_power_spectrum()] *)
  normalize_power_spectrum : Self -> result ndarray;
  (** lines 172-207: the axes and the top panel *)
  top_panel : SubjectData -> ndarray -> resval -> list bool -> result unit;
  (** lines 214-223: the bottom panel, once [ts] and [ps] are read *)
  bottom_panel : resval -> resval -> list bool -> result unit;
  (** lines 226-239: ticks, tick labels and title *)
  finish_axes : list Z -> string -> string -> string -> result unit;
  (** lines 253-264: the order of the electrodes *)
  electrode_order : string -> string -> result (list nat);
  (** lines 267-306: the data frame and the heat map *)
  heat_map : resval -> list Qc -> list string -> list nat -> result unit
}.

(** What a plotting method returns: [None] or [plt.gcf()]. *)
Inductive plotted : Type :=
  | NoFigure
  | Figure.

(** [self.res[key]] *)
Definition lookup_res (key : string) : ST State resval :=
  fun s => match res s !! key with
           | Some v => (Ok v, s)
           | None => (Err (KeyError key), s)
           end.

Definition say (line : string) : ST State unit :=
  fun s => (Ok tt, {| res := res s; stdout := stdout s ++ [line]; fit_log := fit_log s |}).

Section Plots.
Context `{Plotting}.

Definition plot_spectra_average (self : Self)
  (elec_label region_column loc_tag_column : string) : ST State plotted :=
  match subject_data self with
  | None =>
      _ <~ say (subject self
                +:+ ": data must be loaded before computing SME by region. Use .load_data().") ;;
      st_ret NoFigure
  | Some sd =>
      s <~ st_get ;;
      if decide (res s = ∅) then
        _ <~ say (subject self
                  +:+ ": must run .analysis() before computing SME by region") ;;
        st_ret NoFigure
      else
        let elec_ind := map (fun c => String.eqb c elec_label) (channel sd) in
        if negb (existsb (fun b : bool => b) elec_ind) then
          _ <~ say (subject self
                    +:+ ": must enter a valid electrode label, as found in self.subject_data.channel") ;;
          st_ret NoFigure
        else
          recalled <~ lookup_res "recalled" ;;
          p_spect <~ st_lift (normalize_power_spectrum self) ;;
          _ <~ st_lift (top_panel sd p_spect recalled elec_ind) ;;
          y <~ lookup_res "ts" ;;
          p <~ lookup_res "ps" ;;
          _ <~ st_lift (bottom_panel y p elec_ind) ;;
          new_x <~ st_lift (of_outcome (compute_pow_two_series self)) ;;
          _ <~ st_lift (finish_axes new_x elec_label region_column loc_tag_column) ;;
          st_ret Figure
  end.

(** [if sortby_column1 and sortby_column2: ... elif sortby_column1: ...
    else: ...]: a string is true when it is not empty.  The three branches
    differ in the calls that [electrode_order] stands for. *)
Definition plot_elec_heat_map (self : Self) (sortby_column1 sortby_column2 : string)
  : ST State unit :=
  elec_order <~ st_lift (electrode_order sortby_column1 sortby_column2) ;;
  ts <~ lookup_res "ts" ;;
  sd <~ st_lift (match subject_data self with
                 | None => Err (Builtin AttributeError)
                 | Some sd => Ok sd
                 end) ;;
  _ <~ st_lift (heat_map ts (freqs self) (channel sd) elec_order) ;;
  st_ret tt.

End Plots.

(** ** Further example inputs *)

(** An analysis object with the given frequencies and nothing else. *)
Definition self_with_freqs (f : list Qc) : Self :=
  {| subject := "R1001P";
     subject_data := None;
     recall_filter_func := None;
     use_fooof := false;
     fooof_fit_each_event := false;
     log_power := true;
     freqs := f |}.

(** 8.5 *)
Definition eight_and_a_half : Qc := Q2Qc (17 # 2).

(** ** Paths

    [os.path.split] and [os.path.join] as [posixpath] defines them, on
    strings. *)

(** The slash, character 47. *)
Definition sep : Ascii.ascii := Ascii.ascii_of_nat 47.

Definition is_sep (c : Ascii.ascii) : bool := Ascii.eqb c sep.

Fixpoint take_until_sep (l : list Ascii.ascii) : list Ascii.ascii :=
  match l with
  | [] => []
  | c :: r => if is_sep c then [] else c :: take_until_sep r
  end.

Fixpoint drop_until_sep (l : list Ascii.ascii) : list Ascii.ascii :=
  match l with
  | [] => []
  | c :: r => if is_sep c then l else drop_until_sep r
  end.

Fixpoint drop_seps (l : list Ascii.ascii) : list Ascii.ascii :=
  match l with
  | [] => []
  | c :: r => if is_sep c then drop_seps r else l
  end.

(** [head.rstrip('/')] *)
Definition rstrip_sep (l : list Ascii.ascii) : list Ascii.ascii :=
  rev (drop_seps (rev l)).

(** [i = p.rfind('/') + 1; head, tail = p[:i], p[i:]]; the head loses its
    trailing slashes unless it consists of slashes only. *)
Definition path_split (p : string) : string * string :=
  let r := rev (String.list_ascii_of_string p) in
  let head := rev (drop_until_sep r) in
  let tail := rev (take_until_sep r) in
  let head := if negb (forallb is_sep head) then rstrip_sep head else head in
  (String.string_of_list_ascii head, String.string_of_list_ascii tail).

(** [os.path.join(a, b)]: [b] alone when it starts with a slash, [a + b]
    when [a] is empty or ends with one, [a + '/' + b] otherwise. *)
Definition path_join (a b : string) : string :=
  if match String.list_ascii_of_string b with
     | c :: _ => is_sep c
     | [] => false
     end
  then b
  else match rev (String.list_ascii_of_string a) with
       | [] => a +:+ b
       | d :: _ => if is_sep d then a +:+ b else a +:+ "/" +:+ b
       end.

(** [_generate_res_save_path] (line 52):
    [self.res_save_dir = os.path.join(os.path.split(self.save_dir)[0],
    self.__class__.__name__ + '_res')].  The result is the new value of
    [res_save_dir]; a [save_dir] of [None] makes [os.path.split] raise. *)
Definition generate_res_save_path (class_name : string) (save_dir : option string)
  : outcome string :=
  match save_dir with
  | None => Raise TypeError
  | Some d => Return (path_join (fst (path_split d)) (class_name +:+ "_res"))
  end.

(** A character of the string is a slash. *)
Definition has_sep (s : string) : bool :=
  existsb is_sep (String.list_ascii_of_string s).

(** The last character of the string is a slash. *)
Definition ends_with_sep (s : string) : bool :=
  match rev (String.list_ascii_of_string s) with
  | c :: _ => is_sep c
  | [] => false
  end.

(** ** [subject.py]: the registry of analyses

    The analysis classes live in [JacobsPythonTools.SubjectLevel.Analyses],
    which is not in this repository: the registry [analysis_dict], the
    constructors of its classes and their method [run] are parameters.
    Objects are addresses; the world holds what has been printed, the
    attributes of every object and the dictionaries, so that two attributes
    can hold the same dictionary. *)

Inductive value : Type :=
  | VNone
  | VBool (b : bool)
  | VInt (z : Z)
  | VStr (s : string)
  | VDict (ref : nat)
  | VOpaque (code : nat).

Record World : Type := {
  out : list string;
  attrs : gmap nat (gmap string value);
  heap : gmap nat (gmap string resval)
}.

(** The line feed, character 10. *)
Definition newline : string := String (Ascii.ascii_of_nat 10) EmptyString.

Definition tell (line : string) : ST World unit :=
  fun w => (Ok tt, {| out := out w ++ [line]; attrs := attrs w; heap := heap w |}).

(** A class of the registry: its docstring as [format] renders it, and its
    constructor, which returns the address of the new object. *)
Record AnalysisClass : Type := {
  class_doc : string;
  construct : string -> string -> Z -> ST World nat
}.

Class Registry : Type := {
  (** [Analyses.analysis_dict], in the order of its keys *)
  analysis_dict : list (string * AnalysisClass);
  (** [str(e)] of a [KeyError]: the [repr] of its key *)
  key_repr : string -> string;
  (** [analysis.run()] of the object at an address *)
  run_method : nat -> ST World unit
}.

(** [d[key]] on the registry. *)
Fixpoint registry_lookup (d : list (string * AnalysisClass)) (key : string)
  : result AnalysisClass :=
  match d with
  | [] => Err (KeyError key)
  | (k, c) :: r => if String.eqb k key then Ok c else registry_lookup r key
  end.

Section Subject.
Context `{Registry}.

(** Lines 28-29: a line per class of the registry. *)
Fixpoint print_listing (d : list (string * AnalysisClass)) : ST World unit :=
  match d with
  | [] => st_ret tt
  | (this_ana, c) :: r =>
      _ <~ tell (this_ana +:+ newline +:+ class_doc c) ;;
      print_listing r
  end.

(** [create_subject] (lines 5-34).  The result is the address of the new
    object, or [None]. *)
Definition create_subject (task subject : string) (montage : Z)
  (analysis_name : option string) : ST World (option nat) :=
  match analysis_name with
  | None =>
      _ <~ tell ("You must enter one of the following as an analysis_name:" +:+ newline) ;;
      _ <~ print_listing analysis_dict ;;
      st_ret None
  | Some name =>
      fun w =>
        match (c <~ st_lift (registry_lookup analysis_dict name) ;;
               construct c task subject montage) w with
        | (Ok a, w') => (Ok (Some a), w')
        | (Err (KeyError key), w') =>
            (_ <~ tell (key_repr key +:+ " is not a valid analysis name.") ;;
             st_ret None) w'
        | (Err e, w') => (Err e, w')
        end
  end.

(** [setattr(this_ana, name, v)]; [this_ana] may be [None]. *)
Definition setattr (this_ana : option nat) (name : string) (v : value) : ST World unit :=
  match this_ana with
  | None => st_lift (Err (Builtin AttributeError))
  | Some a =>
      fun w => (Ok tt, {| out := out w;
                          attrs := <[a := <[name := v]> (default ∅ (attrs w !! a))]> (attrs w);
                          heap := heap w |})
  end.

Fixpoint set_params (this_ana : option nat) (params : list (string * value))
  : ST World unit :=
  match params with
  | [] => st_ret tt
  | (name, v) :: r => _ <~ setattr this_ana name v ;; set_params this_ana r
  end.

(** [_create_analyses] (lines 76-91), over [zip(names, params)]. *)
Fixpoint create_analyses (task subject : string) (montage : Z)
  (named : list (string * list (string * value))) : ST World (list (option nat)) :=
  match named with
  | [] => st_ret []
  | (name, params) :: r =>
      this_ana <~ create_subject task subject montage (Some name) ;;
      _ <~ set_params this_ana params ;;
      analyses <~ create_analyses task subject montage r ;;
      st_ret (this_ana :: analyses)
  end.

(** The attributes of a pipeline whose constructor ran to its end. *)
Record Pipeline : Type := {
  p_task : string;
  p_subject : string;
  p_montage : Z;
  p_names : list string;
  p_params : list (list (string * value));
  p_analyses : list (option nat);
  p_res : value
}.

(** A pipeline object: without attributes when its constructor returned at
    one of the two checks. *)
Inductive PipelineObj : Type :=
  | Bare
  | Ready (p : Pipeline).

(** [{}]: a new, empty dictionary. *)
Definition new_dict : ST World value :=
  fun w => let r := fresh (dom (heap w)) in
           (Ok (VDict r), {| out := out w; attrs := attrs w; heap := <[r := ∅]> (heap w) |}).

(** [SubjectAnalysisPipeline.__init__] (lines 41-74). *)
Definition pipeline_init (task subject : string) (montage : Z)
  (analysis_name_list : option (list string))
  (analysis_params_list : option (list (list (string * value))))
  : ST World PipelineObj :=
  match analysis_name_list, analysis_params_list with
  | Some names, Some params =>
      if negb (length names =? length params) then
        _ <~ tell "Both analysis_name_list and analysis_params_list must be the same length." ;;
        st_ret Bare
      else
        analyses <~ create_analyses task subject montage (combine names params) ;;
        r <~ new_dict ;;
        st_ret (Ready {| p_task := task; p_subject := subject; p_montage := montage;
                         p_names := names; p_params := params;
                         p_analyses := analyses; p_res := r |})
  | _, _ =>
      _ <~ tell "Both analysis_name_list and analysis_params_list must be entered." ;;
      st_ret Bare
  end.

(** [analysis.res = prev_res] and [prev_res = analysis.res]. *)
Definition set_res (analysis : option nat) (prev_res : value) : ST World unit :=
  setattr analysis "res" prev_res.

Definition get_res (analysis : option nat) : ST World value :=
  fun w => match analysis with
           | None => (Err (Builtin AttributeError), w)
           | Some a =>
               match attrs w !! a with
               | Some obj =>
                   match obj !! "res" with
                   | Some v => (Ok v, w)
                   | None => (Err (Builtin AttributeError), w)
                   end
               | None => (Err (Builtin AttributeError), w)
               end
           end.

Definition call_run (analysis : option nat) : ST World unit :=
  match analysis with
  | None => st_lift (Err (Builtin AttributeError))
  | Some a => run_method a
  end.

(** The loop of [run] (lines 100-104) from position [ana_num] on. *)
Fixpoint run_loop (ana_num : nat) (analyses : list (option nat)) (prev_res : value)
  : ST World value :=
  match analyses with
  | [] => st_ret prev_res
  | analysis :: r =>
      _ <~ (if 0 <? ana_num then set_res analysis prev_res else st_ret tt) ;;
      _ <~ call_run analysis ;;
      prev_res <~ get_res analysis ;;
      run_loop (S ana_num) r prev_res
  end.

(** [SubjectAnalysisPipeline.run] (lines 93-105). *)
Definition pipeline_run (self : PipelineObj) : ST World PipelineObj :=
  match self with
  | Bare =>
      prev_res <~ new_dict ;;
      st_lift (Err (Builtin AttributeError))
  | Ready p =>
      prev_res <~ new_dict ;;
      prev_res <~ run_loop 0 (p_analyses p) prev_res ;;
      st_ret (Ready {| p_task := p_task p; p_subject := p_subject p;
                       p_montage := p_montage p; p_names := p_names p;
                       p_params := p_params p; p_analyses := p_analyses p;
                       p_res := prev_res |})
  end.

End Subject.

(** ** [subject.py]: loading and saving the data of a subject

    The file system, [joblib] and the method [compute_data] of the
    subclasses are parameters: [os.path.exists], [os.makedirs],
    [joblib.load] and [joblib.dump] read and change an abstract file
    system. *)

Module DataBase.

(** The attributes that [SubjectDataBase.__init__] sets. *)
Record t : Type := {
  task : option string;
  subject : option string;
  montage : Z;
  base_dir : string;
  save_dir : option string;
  save_file : option string;
  subject_data : option SubjectData;
  pool : option nat;
  load_data_if_file_exists : bool;
  do_not_compute : bool;
  force_recompute : bool
}.

Definition set_subject_data (self : t) (d : option SubjectData) : t :=
  {| task := task self; subject := subject self; montage := montage self;
     base_dir := base_dir self; save_dir := save_dir self; save_file := save_file self;
     subject_data := d; pool := pool self;
     load_data_if_file_exists := load_data_if_file_exists self;
     do_not_compute := do_not_compute self; force_recompute := force_recompute self |}.

Class Environment : Type := {
  FS : Type;
  (** [os.path.exists(path)] *)
  path_exists : FS -> string -> bool;
  (** [os.makedirs(path)] *)
  makedirs : string -> FS -> result unit * FS;
  (** [joblib.load(file)]; what was saved may be [None] *)
  joblib_load : string -> FS -> result (option SubjectData) * FS;
  (** [joblib.dump(data, file)]; the file may be [None] *)
  joblib_dump : SubjectData -> option string -> FS -> result unit * FS;
  (** [self.compute_data()], as a subclass overrides it *)
  compute_data : t -> FS -> result (option SubjectData) * FS;
  (** [platform.platform()], [getpass.getuser()] and [os.getcwd()] *)
  platform : string;
  user : string;
  cwd : string
}.

(** What has been printed, and the file system. *)
Record DWorld `{Environment} : Type := {
  printed : list string;
  fs : FS
}.

Section Methods.
Context `{Environment}.

Definition put (line : string) : ST DWorld unit :=
  fun w => (Ok tt, {| printed := printed w ++ [line]; fs := fs w |}).

(** An operation on the file system as an operation on the world. *)
Definition on_fs {A} (op : FS -> result A * FS) : ST DWorld A :=
  fun w => let (r, f) := op (fs w) in (r, {| printed := printed w; fs := f |}).

(** [sub in s] *)
Fixpoint contains (sub s : string) : bool :=
  String.prefix sub s ||
  match s with
  | EmptyString => false
  | String _ r => contains sub r
  end.

(** [_default_base_dir] (lines 216-233) *)
Definition default_base_dir : string :=
  if contains "Linux" platform then "/scratch/" +:+ user +:+ "/python"
  else if contains "Darwin" platform then "/Users/" +:+ user +:+ "/python"
  else cwd.

(** [__init__] (lines 119-140) *)
Definition init (task subject : option string) (montage : Z) : t :=
  {| task := task; subject := subject; montage := montage;
     base_dir := default_base_dir;
     save_dir := None; save_file := None;
     subject_data := None; pool := None;
     load_data_if_file_exists := true;
     do_not_compute := false;
     force_recompute := false |}.

(** [os.path.exists(path)] *)
Definition exists_path (path : string) : ST DWorld bool :=
  fun w => (Ok (path_exists (fs w) path), w).

(** Lines 177-178: [if self.subject_data is None:
    self.subject_data = self.compute_data()]. *)
Definition compute_if_missing (self : t) : ST DWorld t :=
  match subject_data self with
  | None => d <~ on_fs (compute_data self) ;; st_ret (set_subject_data self d)
  | Some _ => st_ret self
  end.

(** [load_data] (lines 142-178); the result is the object afterwards.  A
    [save_file] of [None] makes [os.path.exists] raise. *)
Definition load_data (self : t) : ST DWorld t :=
  match subject self with
  | None =>
      _ <~ put "Attributes subject and task must be set before loading data." ;;
      st_ret self
  | Some name =>
      match save_file self with
      | None => st_lift (Err (Builtin TypeError))
      | Some file =>
          found <~ exists_path file ;;
          if found : bool then
            if negb (force_recompute self) then
              if load_data_if_file_exists self then
                _ <~ put (name +:+ ": subject_data already exists, loading.") ;;
                d <~ on_fs (joblib_load file) ;;
                compute_if_missing (set_subject_data self d)
              else
                _ <~ put (name +:+ ": subject_data exists, but redoing anyway.") ;;
                compute_if_missing self
            else
              _ <~ put (name +:+ ": subject_data exists, but redoing anyway.") ;;
              st_ret self
          else
            if do_not_compute self then
              _ <~ put (name +:+ ": subject_data does not exist, but not computing.") ;;
              st_ret self
            else
              compute_if_missing self
      end
  end.

(** [unload_data] (lines 180-181) *)
Definition unload_data (self : t) : t := set_subject_data self None.

(** [try: os.makedirs(path) except OSError: pass] *)
Definition try_makedirs (path : string) : ST DWorld unit :=
  fun w => match on_fs (makedirs path) w with
           | (Err OSError, w') => (Ok tt, w')
           | other => other
           end.

(** [if not os.path.exists(path): try: os.makedirs(path) ...] *)
Definition ensure_dir (path : string) : ST DWorld unit :=
  found <~ exists_path path ;;
  if found : bool then st_ret tt else try_makedirs path.

(** [save_data] (lines 183-207).  A [save_dir] of [None] makes
    [os.path.split] raise. *)
Definition save_data (self : t) : ST DWorld unit :=
  match subject_data self with
  | None => put "Data must be loaded before saving. Use .load_data()"
  | Some d =>
      _ <~ (match save_file self with
            | None => put ".save_file and .save_dir must be set before saving data."
            | Some _ => st_ret tt
            end) ;;
      match save_dir self with
      | None => st_lift (Err (Builtin TypeError))
      | Some dir =>
          _ <~ ensure_dir (fst (path_split dir)) ;;
          _ <~ ensure_dir dir ;;
          on_fs (joblib_dump d (save_file self))
      end
  end.

End Methods.

End DataBase.

(** ** Example instances of the parameters *)

(** Plotting calls that always succeed, on two channels. *)
Definition quiet_plotting : Plotting := {|
  channel := fun _ => ["LA1"; "LA2"]%string;
  normalize_power_spectrum := fun _ => Ok (full_nan []);
  top_panel := fun _ _ _ _ => Ok tt;
  bottom_panel := fun _ _ _ => Ok tt;
  finish_axes := fun _ _ _ _ => Ok tt;
  electrode_order := fun _ _ => Ok [0; 1];
  heat_map := fun _ _ _ _ => Ok tt
|}.

(** A class whose constructor gives the new object an empty [res], and
    whose [run] adds an entry to the dictionary that [res] holds. *)
Definition example_class : AnalysisClass := {|
  class_doc := "An analysis.";
  construct := fun _ _ _ w =>
    let a := fresh (dom (attrs w)) in
    let r := fresh (dom (heap w)) in
    (Ok a, {| out := out w;
              attrs := <[a := {["res" := VDict r]}]> (attrs w);
              heap := <[r := ∅]> (heap w) |})
|}.

Definition example_run (a : nat) : ST World unit :=
  fun w => match attrs w !! a with
           | Some obj =>
               match obj !! "res" with
               | Some (VDict r) =>
                   (Ok tt, {| out := out w; attrs := attrs w;
                              heap := <[r := <["run" := RNum (Val (Qc_of_nat a))]>
                                               (default ∅ (heap w !! r))]> (heap w) |})
               | _ => (Err (Builtin AttributeError), w)
               end
           | None => (Err (Builtin AttributeError), w)
           end.

Definition example_registry : Registry := {|
  analysis_dict := [("fit_spectra"%string, example_class)];
  key_repr := fun k => "'" +:+ k +:+ "'";
  run_method := example_run
|}.

Definition empty_world : World := {| out := []; attrs := ∅; heap := ∅ |}.

(** A pipeline of two analyses of the example class, as its constructor
    leaves it, and the world then. *)
Definition two_analyses : result PipelineObj * World :=
  @pipeline_init example_registry "FR1" "R1001P" 0
    (Some ["fit_spectra"; "fit_spectra"]%string) (Some [[]; []]) empty_world.

Definition pipeline_of (r : result PipelineObj) : Pipeline :=
  match r with
  | Ok (Ready p) => p
  | _ => {| p_task := ""; p_subject := ""; p_montage := 0; p_names := []; p_params := [];
            p_analyses := []; p_res := VNone |}
  end.

Definition object_of (r : result PipelineObj) : PipelineObj :=
  match r with Ok self => self | Err _ => Bare end.

(** A file system that is the list of the paths that exist; the empty
    path cannot be made. *)
Definition listed_files : DataBase.Environment := {|
  DataBase.FS := list string;
  DataBase.path_exists := fun fs p => existsb (String.eqb p) fs;
  DataBase.makedirs := fun p fs =>
    if String.eqb p "" then (Err OSError, fs) else (Ok tt, p :: fs);
  DataBase.joblib_load := fun _ fs => (Ok (Some {| data := power_3d |}), fs);
  DataBase.joblib_dump := fun _ file fs =>
    match file with
    | None => (Err (Builtin TypeError), fs)
    | Some f => (Ok tt, f :: fs)
    end;
  DataBase.compute_data := fun _ fs => (Ok (Some {| data := batch_a |}), fs);
  DataBase.platform := "Linux-5.4.0-x86_64";
  DataBase.user := "jdoe";
  DataBase.cwd := "/home/jdoe"
|}.

(** An object with its paths set, and the flags and data as given. *)
Definition example_object (d : option SubjectData) (file : option string)
  (load no_compute force : bool) : DataBase.t :=
  {| DataBase.task := Some "FR1"%string;
     DataBase.subject := Some "R1001P"%string;
     DataBase.montage := 0;
     DataBase.base_dir := "/scratch/jdoe/python";
     DataBase.save_dir := Some "results"%string;
     DataBase.save_file := file;
     DataBase.subject_data := d;
     DataBase.pool := None;
     DataBase.load_data_if_file_exists := load;
     DataBase.do_not_compute := no_compute;
     DataBase.force_recompute := force |}.

Definition disk (paths : list string) : @DataBase.DWorld listed_files :=
  @DataBase.Build_DWorld listed_files [] paths.

(** ** Reasoning about the monad *)

Lemma bind_inv {A B} (m : M A) (k : A -> M B) s o s' :
  bind m k s = (o, s') ->
  (exists e, m s = (Raise e, s') /\ o = Raise e) \/
  (exists a s1, m s = (Return a, s1) /\ k a s1 = (o, s')).
Proof.
  unfold bind. destruct (m s) as [[a|e] s1]; intros Hk.
  - right. eauto.
  - left. inversion Hk; subst. eauto.
Qed.

Lemma bind_Return {A B} (m : M A) (k : A -> M B) s a s1 :
  m s = (Return a, s1) -> bind m k s = k a s1.
Proof. unfold bind. intros ->. reflexivity. Qed.

Lemma bind_Raise {A B} (m : M A) (k : A -> M B) s e s1 :
  m s = (Raise e, s1) -> bind m k s = (Raise e, s1).
Proof. unfold bind. intros ->. reflexivity. Qed.

Lemma foldM_app {A B} (f : B -> A -> M B) l1 l2 b s :
  foldM f (l1 ++ l2) b s = bind (foldM f l1 b) (foldM f l2) s.
Proof.
  revert b s. induction l1 as [|a l1 IH]; intros b s; simpl.
  - reflexivity.
  - unfold bind. destruct (f b a s) as [[b1|e] s1].
    + rewrite IH. reflexivity.
    + reflexivity.
Qed.

(** An invariant of the processed prefix holds of the whole list when the
    loop returns. *)
Lemma foldM_Return_ind {A B} (f : B -> A -> M B) (P : list A -> B -> State -> Prop)
    l b s b' s' :
  P [] b s ->
  (forall done a b1 s1 b2 s2,
      In a l -> P done b1 s1 -> f b1 a s1 = (Return b2, s2) -> P (done ++ [a]) b2 s2) ->
  foldM f l b s = (Return b', s') ->
  P l b' s'.
Proof.
  intros H0 Hstep.
  assert (G : forall rest done b1 s1,
             (forall a, In a rest -> In a l) ->
             P done b1 s1 -> foldM f rest b1 s1 = (Return b', s') ->
             P (done ++ rest) b' s').
  { induction rest as [|a rest IH]; intros done b1 s1 Hsub HP Hrun; simpl in Hrun.
    - inversion Hrun; subst. rewrite app_nil_r. exact HP.
    - apply bind_inv in Hrun as [(e & _ & He) | (b2 & s2 & Hf & Hrest)]; [discriminate|].
      replace (done ++ a :: rest) with ((done ++ [a]) ++ rest)
        by (rewrite <- app_assoc; reflexivity).
      eapply IH; [| |exact Hrest].
      + intros a' Ha'. apply Hsub. right. exact Ha'.
      + eapply Hstep; eauto. apply Hsub. left. reflexivity. }
  intros Hrun. exact (G l [] b s (fun _ h => h) H0 Hrun).
Qed.

(** The loop returns when every step does, and the invariant holds then. *)
Lemma foldM_progress {A B} (f : B -> A -> M B) (P : list A -> B -> State -> Prop)
    l b s :
  P [] b s ->
  (forall done a b1 s1,
      In a l -> P done b1 s1 ->
      exists b2 s2, f b1 a s1 = (Return b2, s2) /\ P (done ++ [a]) b2 s2) ->
  exists b' s', foldM f l b s = (Return b', s') /\ P l b' s'.
Proof.
  intros H0 Hstep.
  assert (G : forall rest done b1 s1,
             (forall a, In a rest -> In a l) ->
             P done b1 s1 ->
             exists b' s', foldM f rest b1 s1 = (Return b', s') /\ P (done ++ rest) b' s').
  { induction rest as [|a rest IH]; intros done b1 s1 Hsub HP; simpl.
    - exists b1, s1. rewrite app_nil_r. auto.
    - destruct (Hstep done a b1 s1 (Hsub a (or_introl eq_refl)) HP) as (b2 & s2 & Hf & HP2).
      rewrite (bind_Return _ _ _ _ _ Hf).
      replace (done ++ a :: rest) with ((done ++ [a]) ++ rest)
        by (rewrite <- app_assoc; reflexivity).
      apply IH; [|exact HP2].
      intros a' Ha'. apply Hsub. right. exact Ha'. }
  exact (G l [] b s (fun _ h => h) H0).
Qed.

(** *** What a computation may do to the state

    [effects Q m]: [m] leaves the result dictionary and the output alone and
    only appends to the fit log data that satisfy [Q]. *)
Definition effects {A} (Q : ndarray -> Prop) (m : M A) : Prop :=
  forall s o s', m s = (o, s') ->
    res s' = res s /\ stdout s' = stdout s /\
    exists l, fit_log s' = fit_log s ++ l /\ Forall Q l.

Lemma effects_ret {A} Q (a : A) : effects Q (ret a).
Proof.
  intros s o s' E. inversion E; subst. repeat split.
  exists []. rewrite app_nil_r. auto.
Qed.

Lemma effects_lift {A} Q (o : outcome A) : effects Q (lift o).
Proof.
  intros s o' s' E. inversion E; subst. repeat split.
  exists []. rewrite app_nil_r. auto.
Qed.

Lemma effects_call_fit Q fit d : Q d -> effects Q (call_fit fit d).
Proof.
  intros HQ s o s' E. inversion E; subst. simpl. repeat split.
  exists [d]. auto.
Qed.

Lemma effects_bind {A B} Q (m : M A) (k : A -> M B) :
  effects Q m -> (forall a, effects Q (k a)) -> effects Q (bind m k).
Proof.
  intros Hm Hk s o s' E.
  apply bind_inv in E as [(e & Em & ->) | (a & s1 & Em & Ek)].
  - exact (Hm _ _ _ Em).
  - destruct (Hm _ _ _ Em) as (R1 & O1 & l1 & L1 & F1).
    destruct (Hk a _ _ _ Ek) as (R2 & O2 & l2 & L2 & F2).
    repeat split; try congruence.
    exists (l1 ++ l2). split.
    + rewrite L2, L1, app_assoc. reflexivity.
    + apply Forall_app. auto.
Qed.

Lemma effects_foldM {A B} Q (f : B -> A -> M B) l :
  (forall b a, In a l -> effects Q (f b a)) -> forall b, effects Q (foldM f l b).
Proof.
  induction l as [|a l IH]; intros Hf b; simpl.
  - apply effects_ret.
  - apply effects_bind.
    + apply Hf. left. reflexivity.
    + intros b'. apply IH. intros b0 a0 Ha0. apply Hf. right. exact Ha0.
Qed.

Lemma effects_mapM {A B} Q (f : A -> M B) l :
  (forall a, In a l -> effects Q (f a)) -> effects Q (mapM f l).
Proof.
  induction l as [|a l IH]; intros Hf; simpl.
  - apply effects_ret.
  - apply effects_bind; [apply Hf; left; reflexivity|].
    intros b. apply effects_bind; [apply IH; intros; apply Hf; right; assumption|].
    intros bs. apply effects_ret.
Qed.

Lemma effects_weaken {A} (Q Q' : ndarray -> Prop) (m : M A) :
  (forall d, Q d -> Q' d) -> effects Q m -> effects Q' m.
Proof.
  intros HQ Hm s o s' E. destruct (Hm _ _ _ E) as (R & O & l & L & F).
  repeat split; auto. exists l. split; auto.
  eapply Forall_impl; eauto.
Qed.

Lemma lift_inv {A} (o o' : outcome A) s s' :
  lift o s = (o', s') -> o = o' /\ s' = s.
Proof. unfold lift. intros E. inversion E. auto. Qed.

Lemma ret_inv {A} (a : A) o s s' :
  ret a s = (o, s') -> o = Return a /\ s' = s.
Proof. unfold ret. intros E. inversion E. auto. Qed.

Lemma call_fit_inv fit d o s s' :
  call_fit fit d s = (o, s') ->
  fit d = o /\ res s' = res s /\ stdout s' = stdout s /\ fit_log s' = fit_log s ++ [d].
Proof. unfold call_fit. intros E. inversion E. simpl. auto. Qed.

(** Inversion of a bind that returned. *)
Ltac bind_returned H a s1 Hm :=
  apply bind_inv in H as [(? & ? & ?) | (a & s1 & Hm & H)]; [discriminate|].

Ltac lift_returned H :=
  apply lift_inv in H as [H ?]; subst.

(** ** The fitters as instances of the shared loop *)

Lemma robust_reg_unfold `{Libraries} x y :
  robust_reg x y = fit_batch (fun d => RLM_fit d x) (fun d => d) x y.
Proof. reflexivity. Qed.

Lemma run_foof_unfold `{Libraries} x y :
  run_foof x y = fit_batch (FOOOF_fit x) (fun _ => y) x y.
Proof. reflexivity. Qed.

Lemma combine_map_self {A B} (g : A -> B) (l : list A) :
  combine l (map g l) = map (fun i => (i, g i)) l.
Proof. induction l as [|a l IH]; simpl; [reflexivity | rewrite IH; reflexivity]. Qed.

Lemma enumerate_map_seq {B} (g : nat -> B) n :
  enumerate (map g (seq 0 n)) = map (fun i => (i, g i)) (seq 0 n).
Proof.
  unfold enumerate. rewrite length_map, length_seq. apply combine_map_self.
Qed.

Lemma iterate_Return a l :
  iterate a = Return l ->
  exists n sh, shape a = n :: sh /\ l = map (subarray a) (seq 0 n).
Proof.
  unfold iterate. destruct (shape a) as [|n sh]; intros E; inversion E; eauto.
Qed.

Lemma in_enumerate_iterate a l i te :
  iterate a = Return l -> In (i, te) (enumerate l) ->
  i < hd 0 (shape a) /\ te = subarray a i.
Proof.
  intros Hit Hin. apply iterate_Return in Hit as (n & sh & Hs & ->).
  rewrite enumerate_map_seq in Hin. apply in_map_iff in Hin as (k & E & Hk).
  inversion E; subst. apply in_seq in Hk. rewrite Hs. simpl. split; [lia | reflexivity].
Qed.

(** *** Effects of a batch fit *)

Section FitBatch.
Variables (fit : ndarray -> outcome FitOut) (pick : ndarray -> ndarray).
Variables (x y : ndarray).

(** The data a fit of this batch can be handed. *)
Definition batch_datum (i : nat) (d : ndarray) : Prop :=
  d = subarray y i \/ exists sub, d = pick sub.

Lemma sub_step_effects Q i b a :
  (forall sub, Q (pick sub)) -> effects Q (sub_step fit pick i b a).
Proof.
  intros HQ. destruct b as [[sl off] rs], a as [j sub]. simpl.
  apply effects_bind; [apply effects_call_fit, HQ|]. intros r.
  apply effects_bind; [apply effects_lift|]. intros off'.
  apply effects_bind; [apply effects_lift|]. intros sl'.
  apply effects_bind; [apply effects_lift|]. intros rs'.
  apply effects_ret.
Qed.

Lemma event_step_effects Q b i te :
  (forall sub, Q (pick sub)) -> Q te -> effects Q (event_step fit pick x b (i, te)).
Proof.
  intros HQ Hte. destruct b as [[sl off] rs]. simpl.
  destruct (ndim te =? 2).
  - apply effects_bind; [apply effects_lift|]. intros k.
    apply effects_bind; [apply effects_lift|]. intros subs.
    apply effects_foldM. intros b a _. apply sub_step_effects, HQ.
  - apply effects_bind; [apply effects_call_fit, Hte|]. intros r.
    apply effects_bind; [apply effects_lift|]. intros off'.
    apply effects_bind; [apply effects_lift|]. intros sl'.
    apply effects_bind; [apply effects_lift|]. intros rs'.
    apply effects_ret.
Qed.

Lemma fit_batch_effects Q :
  (forall sub, Q (pick sub)) -> (forall i, Q (subarray y i)) ->
  effects Q (fit_batch fit pick x y).
Proof.
  intros HQ Hy. unfold fit_batch.
  apply effects_bind; [apply effects_lift|]. intros arrays.
  intros s o s' E.
  apply bind_inv in E as [(e & Em & ->) | (events & s1 & Em & Ek)].
  - exact (effects_lift Q _ _ _ _ Em).
  - inversion Em; subst s1.
    revert Ek. apply effects_foldM. intros b [i te] Hin.
    destruct (in_enumerate_iterate _ _ _ _ H0 Hin) as [_ ->].
    apply event_step_effects; auto.
Qed.

End FitBatch.

(** *** Basic facts about arrays *)

Lemma shape_subarray a k : shape (subarray a k) = tail (shape a).
Proof. reflexivity. Qed.

Lemma shape_transpose a : shape (transpose a) = rev (shape a).
Proof. reflexivity. Qed.

Lemma idx_eqb_eq a b : idx_eqb a b = true <-> a = b.
Proof.
  revert b. induction a as [|i a IH]; intros [|j b]; simpl; split; intros E;
    try reflexivity; try discriminate.
  - apply andb_true_iff in E as [E1 E2]. apply Nat.eqb_eq in E1. apply IH in E2.
    congruence.
  - inversion E; subst. rewrite Nat.eqb_refl. simpl. apply IH. reflexivity.
Qed.

Lemma set_item_Return a idx v a' :
  set_item a idx v = Return a' ->
  in_boundsb idx (shape a) = true /\ shape a' = shape a /\
  forall k, item a' k = if idx_eqb k idx then v else item a k.
Proof.
  unfold set_item. destruct (in_boundsb idx (shape a)); intros E; inversion E; subst.
  simpl. auto.
Qed.

Lemma set_row_Return a i c a' :
  set_row a i c = Return a' ->
  shape a' = shape a /\ i < hd 0 (shape a) /\
  broadcastable (length c) (tail (shape a)) = true /\
  forall k, item a' k =
            match k with
            | i' :: r => if i' =? i then bcast_nth c (List.last r 0) else item a k
            | [] => item a k
            end.
Proof.
  unfold set_row. destruct (shape a) as [|e sh] eqn:Hs; [discriminate|].
  destruct (i <? e) eqn:Hi; [|discriminate].
  destruct (broadcastable (length c) sh) eqn:Hb; [|discriminate].
  intros E. inversion E; subst. simpl. apply Nat.ltb_lt in Hi. auto.
Qed.

Lemma set_lane_Return a i j c a' :
  set_lane a i j c = Return a' ->
  shape a' = shape a /\
  (exists e f s, shape a = [e; f; s] /\ i < e /\ j < s /\
                 (length c = f \/ length c = 1)) /\
  forall k, item a' k =
            match k with
            | [i'; m; j'] => if (i' =? i) && (j' =? j) then bcast_nth c m else item a k
            | _ => item a k
            end.
Proof.
  unfold set_lane.
  destruct (shape a) as [|e [|f [|s [|? ?]]]] eqn:Hs; try discriminate.
  destruct ((i <? e) && (j <? s)) eqn:Hij; [|discriminate].
  destruct ((length c =? f) || (length c =? 1)) eqn:Hc; [|discriminate].
  intros E. inversion E; subst. simpl.
  apply andb_true_iff in Hij as [Hi Hj]. apply Nat.ltb_lt in Hi, Hj.
  apply orb_true_iff in Hc. rewrite !Nat.eqb_eq in Hc.
  split; [reflexivity|]. split; [|reflexivity].
  exists e, f, s. auto.
Qed.

(** *** Every cell a fitter returns is the pre-filled not-a-number or comes
    from a fit of its own event *)

Definition from_fit (r : FitOut) (v : num) : Prop :=
  v = param0 r \/ v = param1 r \/ exists m, v = bcast_nth (curve r) m.

Section FitBatchCells.
Variables (fit : ndarray -> outcome FitOut) (pick : ndarray -> ndarray).
Variables (x y : ndarray).

Definition cell_ok (idx : list nat) (v : num) : Prop :=
  v = NaN \/
  exists i rest d r,
    idx = i :: rest /\ batch_datum pick y i d /\ fit d = Return r /\ from_fit r v.

Definition cells_ok (a : ndarray) : Prop := forall idx, cell_ok idx (item a idx).

Definition weak_inv (b : fit_result) : Prop :=
  shape (snd b) = shape y /\
  cells_ok (fst (fst b)) /\ cells_ok (snd (fst b)) /\ cells_ok (snd b).

Lemma set_item_cells_ok a idx v a' :
  set_item a idx v = Return a' -> cells_ok a -> cell_ok idx v -> cells_ok a'.
Proof.
  intros E Ha Hv k. apply set_item_Return in E as (_ & _ & Hit). rewrite Hit.
  destruct (idx_eqb k idx) eqn:Hk; [|apply Ha].
  apply idx_eqb_eq in Hk. subst. exact Hv.
Qed.

Lemma sub_step_weak i b j sub s b' s' :
  weak_inv b -> sub_step fit pick i b (j, sub) s = (Return b', s') -> weak_inv b'.
Proof.
  destruct b as [[sl off] rs]. intros (Hs & Hsl & Hoff & Hrs) E. simpl in *.
  bind_returned E r s1 Hr. apply call_fit_inv in Hr as (Hr & _).
  bind_returned E off' s2 Ho. lift_returned Ho.
  bind_returned E sl' s3 Hl. lift_returned Hl.
  bind_returned E rs' s4 Hq. lift_returned Hq.
  apply ret_inv in E as [E _]. inversion E; subst b'. simpl.
  assert (Hfrom : forall v, from_fit r v -> forall rest, cell_ok (i :: rest) v).
  { intros v Hv rest. right. exists i, rest, (pick sub), r.
    repeat split; auto. right. eauto. }
  destruct (set_lane_Return _ _ _ _ _ Hq) as (Hsh & _ & Hit).
  repeat split; simpl.
  - congruence.
  - eapply set_item_cells_ok; eauto. apply Hfrom. right. left. reflexivity.
  - eapply set_item_cells_ok; eauto. apply Hfrom. left. reflexivity.
  - intros k. rewrite Hit.
    destruct k as [|i' [|m [|j' [|? ?]]]]; try apply Hrs.
    destruct ((i' =? i) && (j' =? j)) eqn:Hc; [|apply Hrs].
    apply andb_true_iff in Hc as [Hc _]. apply Nat.eqb_eq in Hc. subst i'.
    apply Hfrom. right. right. eauto.
Qed.

Lemma event_step_weak b i s b' s' :
  weak_inv b ->
  event_step fit pick x b (i, subarray y i) s = (Return b', s') -> weak_inv b'.
Proof.
  destruct b as [[sl off] rs]. intros Hinv E. simpl in E.
  destruct (ndim (subarray y i) =? 2).
  - bind_returned E k s1 Hk. lift_returned Hk.
    bind_returned E subs s2 Hsubs. lift_returned Hsubs.
    revert E.
    apply (foldM_Return_ind (sub_step fit pick i) (fun _ b _ => weak_inv b)).
    + exact Hinv.
    + intros done [j sub] b1 s1 b2 s2 _ Hb1 Hstep. eapply sub_step_weak; eauto.
  - destruct Hinv as (Hs & Hsl & Hoff & Hrs). simpl in *.
    bind_returned E r s1 Hr. apply call_fit_inv in Hr as (Hr & _).
    bind_returned E off' s2 Ho. lift_returned Ho.
    bind_returned E sl' s3 Hl. lift_returned Hl.
    bind_returned E rs' s4 Hq. lift_returned Hq.
    apply ret_inv in E as [E _]. inversion E; subst b'. simpl.
    assert (Hfrom : forall v, from_fit r v -> forall rest, cell_ok (i :: rest) v).
    { intros v Hv rest. right. exists i, rest, (subarray y i), r.
      repeat split; auto. left. reflexivity. }
    destruct (set_row_Return _ _ _ _ Hq) as (Hsh & _ & _ & Hit).
    repeat split; simpl.
    + congruence.
    + eapply set_item_cells_ok; eauto. apply Hfrom. right. left. reflexivity.
    + eapply set_item_cells_ok; eauto. apply Hfrom. left. reflexivity.
    + intros k. rewrite Hit. destruct k as [|i' rest]; [apply Hrs|].
      destruct (i' =? i) eqn:Hc; [|apply Hrs].
      apply Nat.eqb_eq in Hc. subst i'. apply Hfrom. right. right. eauto.
Qed.

Lemma allocate_Return b :
  allocate y = Return b ->
  exists e sh, shape y = e :: sh /\
    b = (full_nan (if ndim y =? 3 then [e; List.last (shape y) 0] else [e]),
         full_nan (if ndim y =? 3 then [e; List.last (shape y) 0] else [e]),
         full_nan (shape y)).
Proof.
  unfold allocate. destruct (shape y) as [|e sh] eqn:Hs; [discriminate|].
  intros E. inversion E. exists e, sh. split; reflexivity.
Qed.

Lemma fit_batch_weak s b s' :
  fit_batch fit pick x y s = (Return b, s') -> weak_inv b.
Proof.
  unfold fit_batch. intros E.
  bind_returned E arrays s1 Ha. lift_returned Ha.
  bind_returned E events s2 He. lift_returned He.
  revert E.
  apply (foldM_Return_ind (event_step fit pick x) (fun _ b _ => weak_inv b)).
  - apply allocate_Return in Ha as (e & sh & Hs & ->).
    repeat split; intros idx; left; reflexivity.
  - intros done [i te] b1 s1 b2 s2 Hin Hb1 Hstep.
    destruct (in_enumerate_iterate _ _ _ _ He Hin) as [_ ->].
    eapply event_step_weak; eauto.
Qed.

End FitBatchCells.

(** *** The slopes and offsets have at most two axes *)

Definition flat_params (b : fit_result) : Prop :=
  ndim (fst (fst b)) <= 2 /\ ndim (snd (fst b)) <= 2.

Lemma param_stores_flat sl off rs r idx (k : ndarray -> outcome ndarray) s b' s' :
  flat_params (sl, off, rs) ->
  (offsets <- lift (set_item off idx (param0 r)) ;;
   slopes <- lift (set_item sl idx (param1 r)) ;;
   resids <- lift (k rs) ;;
   ret (slopes, offsets, resids)) s = (Return b', s') ->
  flat_params b'.
Proof.
  intros [Hsl Hoff] E. simpl in *.
  bind_returned E off' s2 Ho. lift_returned Ho.
  bind_returned E sl' s3 Hl. lift_returned Hl.
  bind_returned E rs' s4 Hq. lift_returned Hq.
  apply ret_inv in E as [E _]. inversion E; subst b'.
  apply set_item_Return in Ho as (_ & Ho & _). apply set_item_Return in Hl as (_ & Hl & _).
  unfold flat_params, ndim in *. simpl. rewrite Ho, Hl. auto.
Qed.

Lemma fit_batch_flat_params fit pick x y s b s' :
  fit_batch fit pick x y s = (Return b, s') -> flat_params b.
Proof.
  unfold fit_batch. intros E.
  bind_returned E arrays s1 Ha. lift_returned Ha.
  bind_returned E events s2 He. lift_returned He.
  revert E.
  apply (foldM_Return_ind (event_step fit pick x) (fun _ b _ => flat_params b)).
  - unfold allocate in Ha. destruct (shape y) as [|e sh]; [discriminate|].
    inversion Ha; subst arrays. unfold flat_params, ndim. simpl.
    destruct (_ =? 3); simpl; lia.
  - intros done [i te] [[sl off] rs] s1 b2 s2 _ Hb1 Hstep. simpl in Hstep.
    destruct (ndim te =? 2).
    + bind_returned Hstep k s3 Hk. bind_returned Hstep subs s4 Hsubs.
      revert Hstep.
      apply (foldM_Return_ind (sub_step fit pick i) (fun _ b _ => flat_params b)).
      * exact Hb1.
      * intros done' [j sub] [[sl1 off1] rs1] s5 b3 s6 _ Hb Hsub. simpl in Hsub.
        bind_returned Hsub r s7 Hr.
        eapply (param_stores_flat sl1 off1 rs1 r [i; j] (fun rs => set_lane rs i j (curve r)));
          eauto.
    + bind_returned Hstep r s3 Hr.
      eapply (param_stores_flat sl off rs r [i] (fun rs => set_row rs i (curve r))); eauto.
Qed.

(** *** Batches whose fits all return *)

Definition logged (s : State) (l : list ndarray) : State :=
  {| res := res s; stdout := stdout s; fit_log := fit_log s ++ l |}.

Lemma logged_nil s : logged s [] = s.
Proof. destruct s. unfold logged. simpl. rewrite app_nil_r. reflexivity. Qed.

Lemma logged_logged s l1 l2 : logged (logged s l1) l2 = logged s (l1 ++ l2).
Proof. unfold logged. simpl. rewrite app_assoc. reflexivity. Qed.

Section FitBatch2D.
Variables (fit : ndarray -> outcome FitOut) (pick : ndarray -> ndarray).
Variables (x y : ndarray) (E F K : nat) (r : nat -> FitOut).
Hypothesis Hshape : shape y = [E; F].
Hypothesis HK : K <= E.
Hypothesis Hfit : forall i, i < K ->
  fit (subarray y i) = Return (r i) /\ broadcastable (length (curve (r i))) [F] = true.

Definition row_ok (b : fit_result) (i : nat) : Prop :=
  item (fst (fst b)) [i] = param1 (r i) /\
  item (snd (fst b)) [i] = param0 (r i) /\
  forall m, item (snd b) [i; m] = bcast_nth (curve (r i)) m.

Definition shapes2 (b : fit_result) : Prop :=
  shape (fst (fst b)) = [E] /\ shape (snd (fst b)) = [E] /\ shape (snd b) = [E; F].

Lemma event_step_2d b i s :
  i < K -> shapes2 b ->
  exists b', event_step fit pick x b (i, subarray y i) s
             = (Return b', logged s [subarray y i]) /\
    shapes2 b' /\ row_ok b' i /\
    forall i', i' <> i -> row_ok b i' -> row_ok b' i'.
Proof.
  intros Hi (Hsl & Hoff & Hrs). destruct b as [[sl off] rs]. simpl in Hsl, Hoff, Hrs.
  destruct (Hfit i Hi) as [Hr Hb].
  assert (Hlt : (i <? E) = true) by (apply Nat.ltb_lt; lia).
  unfold event_step, ndim. rewrite shape_subarray, Hshape. simpl.
  unfold bind, call_fit, lift, ret. rewrite Hr.
  unfold set_item, set_row. rewrite Hoff, Hsl, Hrs. simpl. rewrite Hlt. simpl.
  simpl in Hb. rewrite Hb.
  eexists. split; [reflexivity|].
  split; [repeat split; simpl; assumption|].
  split.
  - repeat split; simpl; rewrite ?Nat.eqb_refl; reflexivity.
  - intros i' Hne (H1 & H2 & H3). simpl in *.
    assert (Hneb : (i' =? i) = false) by (apply Nat.eqb_neq; exact Hne).
    repeat split; simpl; rewrite ?Hneb; simpl; auto.
Qed.

Definition events_upto (n : nat) : list (nat * ndarray) :=
  map (fun i => (i, subarray y i)) (seq 0 n).

Lemma fold_events_2d n s :
  n <= K ->
  exists b, foldM (event_step fit pick x) (events_upto n)
              (full_nan [E], full_nan [E], full_nan [E; F]) s
            = (Return b, logged s (map (subarray y) (seq 0 n))) /\
    shapes2 b /\ forall i, i < n -> row_ok b i.
Proof.
  intros Hn.
  set (b0 := (full_nan [E], full_nan [E], full_nan [E; F])).
  destruct (foldM_progress (event_step fit pick x)
              (fun done b s1 => shapes2 b /\ s1 = logged s (map snd done) /\
                                forall i te, In (i, te) done -> row_ok b i)
              (events_upto n) b0 s) as (b' & s' & Hrun & Hsh & Hs' & Hrows).
  - split; [repeat split|]. split; [symmetry; apply logged_nil|].
    intros i te [].
  - intros done [i te] b1 s1 Hin (Hsh & Hs1 & Hrows).
    apply in_map_iff in Hin as (k & Ek & Hk). inversion Ek; subst k te. clear Ek.
    apply in_seq in Hk.
    destruct (event_step_2d b1 i s1 ltac:(lia) Hsh) as (b2 & Hstep & Hsh2 & Hrow & Hframe).
    exists b2, (logged s1 [subarray y i]). split; [exact Hstep|].
    split; [exact Hsh2|]. split.
    + rewrite Hs1, logged_logged, map_app. reflexivity.
    + intros i' te' Hin'. apply in_app_or in Hin' as [Hin' | [Ein | []]].
      * destruct (Nat.eq_dec i' i) as [->|Hne]; [exact Hrow|].
        apply Hframe; [exact Hne|]. eapply Hrows; eauto.
      * inversion Ein; subst. exact Hrow.
  - exists b'. split.
    + rewrite Hrun, Hs'. unfold events_upto. rewrite map_map. simpl. reflexivity.
    + split; [exact Hsh|]. intros i Hi. apply (Hrows i (subarray y i)).
      unfold events_upto. apply in_map_iff. exists i. split; [reflexivity|].
      apply in_seq. lia.
Qed.

Lemma fit_batch_events s :
  fit_batch fit pick x y s
  = foldM (event_step fit pick x) (events_upto E)
      (full_nan [E], full_nan [E], full_nan [E; F]) s.
Proof.
  unfold fit_batch, allocate, iterate, ndim. rewrite Hshape. simpl.
  unfold bind at 1. unfold lift at 1. unfold bind at 1. unfold lift at 1.
  rewrite enumerate_map_seq. reflexivity.
Qed.

(** When the fit of event [K] raises after the earlier ones returned, the
    batch raises. *)
Lemma fit_batch_2d_raise e s :
  K < E -> fit (subarray y K) = Raise e ->
  fit_batch fit pick x y s = (Raise e, logged s (map (subarray y) (seq 0 (S K)))).
Proof.
  intros HKE Hraise. rewrite fit_batch_events.
  assert (Hsplit : events_upto E
                   = events_upto K ++ (K, subarray y K)
                       :: map (fun i => (i, subarray y i)) (seq (S K) (E - S K))).
  { unfold events_upto. replace E with (K + S (E - S K)) at 1 by lia.
    rewrite seq_app, map_app. simpl. reflexivity. }
  rewrite Hsplit, foldM_app.
  destruct (fold_events_2d K s (le_n K)) as (b & Hrun & (Hsl & Hoff & Hrs) & _).
  rewrite (bind_Return _ _ _ _ _ Hrun). destruct b as [[sl off] rs]. simpl foldM.
  unfold bind at 1. unfold event_step, ndim. rewrite shape_subarray, Hshape. simpl.
  unfold bind, call_fit. rewrite Hraise. f_equal.
  change (logged (logged s (map (subarray y) (seq 0 K))) [subarray y K]
          = logged s (map (subarray y) (seq 0 (S K)))).
  rewrite logged_logged. replace (S K) with (K + 1) by lia.
  rewrite seq_app, map_app. reflexivity.
Qed.

End FitBatch2D.

Lemma fit_batch_2d fit pick x y E F r s :
  shape y = [E; F] ->
  (forall i, i < E ->
     fit (subarray y i) = Return (r i) /\
     broadcastable (length (curve (r i))) [F] = true) ->
  exists b, fit_batch fit pick x y s
            = (Return b, logged s (map (subarray y) (seq 0 E))) /\
    shapes2 E F b /\ forall i, i < E -> row_ok r b i.
Proof.
  intros Hshape Hfit. rewrite (fit_batch_events fit pick x y E F Hshape).
  apply (fold_events_2d fit pick x y E F E r Hshape (le_n E) Hfit E s (le_n E)).
Qed.

Section FitBatch3D.
Variables (fit : ndarray -> outcome FitOut) (pick : ndarray -> ndarray).
Variables (x y : ndarray) (E F S : nat) (r : nat -> nat -> FitOut).
Hypothesis Hshape : shape y = [E; F; S].
Hypothesis Hx : len x = Return F.
Hypothesis Hfit : forall i j, i < E -> j < S ->
  fit (pick (spectrum y i j)) = Return (r i j) /\
  (length (curve (r i j)) = F \/ length (curve (r i j)) = 1).

Definition cell3_ok (b : fit_result) (i j : nat) : Prop :=
  item (fst (fst b)) [i; j] = param1 (r i j) /\
  item (snd (fst b)) [i; j] = param0 (r i j) /\
  forall m, item (snd b) [i; m; j] = bcast_nth (curve (r i j)) m.

Definition shapes3 (b : fit_result) : Prop :=
  shape (fst (fst b)) = [E; S] /\ shape (snd (fst b)) = [E; S] /\
  shape (snd b) = [E; F; S].

Lemma sub_step_3d b i j s :
  i < E -> j < S -> shapes3 b ->
  exists b', sub_step fit pick i b (j, spectrum y i j) s
             = (Return b', logged s [pick (spectrum y i j)]) /\
    shapes3 b' /\ cell3_ok b' i j /\
    forall i' j', (i' <> i \/ j' <> j) -> cell3_ok b i' j' -> cell3_ok b' i' j'.
Proof.
  intros Hi Hj (Hsl & Hoff & Hrs). destruct b as [[sl off] rs]. simpl in Hsl, Hoff, Hrs.
  destruct (Hfit i j Hi Hj) as [Hr Hc].
  assert (Hi' : (i <? E) = true) by (apply Nat.ltb_lt; exact Hi).
  assert (Hj' : (j <? S) = true) by (apply Nat.ltb_lt; exact Hj).
  assert (Hc' : (length (curve (r i j)) =? F) || (length (curve (r i j)) =? 1) = true).
  { apply orb_true_iff. rewrite !Nat.eqb_eq. exact Hc. }
  unfold sub_step, bind, call_fit, lift, ret. rewrite Hr.
  unfold set_item, set_lane. rewrite Hoff, Hsl, Hrs. simpl.
  rewrite Hi', Hj'. simpl. rewrite Hc'.
  eexists. split; [reflexivity|].
  split; [repeat split; simpl; assumption|].
  split.
  - repeat split; simpl; rewrite ?Nat.eqb_refl; reflexivity.
  - intros i' j' Hne (H1 & H2 & H3). simpl in *.
    assert (Hneb : (i' =? i) && (j' =? j) = false).
    { apply andb_false_iff. rewrite !Nat.eqb_neq. exact Hne. }
    assert (Hneb' : (i' =? i) && ((j' =? j) && true) = false).
    { rewrite andb_true_r. exact Hneb. }
    repeat split; simpl; rewrite ?Hneb, ?Hneb'; auto.
Qed.

Lemma freq_dim_num_first i : freq_dim_num x (subarray y i) = Return 0.
Proof.
  unfold freq_dim_num. rewrite Hx. simpl. rewrite Hshape. simpl.
  rewrite Nat.eqb_refl. reflexivity.
Qed.

Lemma event_step_3d b i s :
  i < E -> shapes3 b ->
  exists b', event_step fit pick x b (i, subarray y i) s
             = (Return b', logged s (map (fun j => pick (spectrum y i j)) (seq 0 S))) /\
    shapes3 b' /\ (forall j, j < S -> cell3_ok b' i j) /\
    forall i' j', i' <> i -> cell3_ok b i' j' -> cell3_ok b' i' j'.
Proof.
  intros Hi Hsh. destruct b as [[sl off] rs].
  unfold event_step, ndim. rewrite shape_subarray, Hshape. simpl.
  rewrite (bind_Return _ _ s 0 s) by (rewrite freq_dim_num_first; reflexivity).
  simpl. unfold iterate. rewrite shape_transpose, shape_subarray, Hshape. simpl.
  rewrite (bind_Return _ _ s _ s) by reflexivity.
  rewrite enumerate_map_seq.
  set (b0 := (sl, off, rs)) in *.
  set (l := map (fun j => (j, subarray (transpose (subarray y i)) j)) (seq 0 S)).
  destruct (foldM_progress (sub_step fit pick i)
              (fun done b s1 =>
                 shapes3 b /\ s1 = logged s (map (fun a => pick (snd a)) done) /\
                 (forall j sub, In (j, sub) done -> cell3_ok b i j) /\
                 (forall i' j', i' <> i -> cell3_ok b0 i' j' -> cell3_ok b i' j'))
              l b0 s) as (b' & s' & Hrun & Hsh' & Hs' & Hcells & Hframe).
  - split; [exact Hsh|]. split; [symmetry; apply logged_nil|].
    split; [intros j sub []|]. auto.
  - intros done [j sub] b1 s1 Hin (Hsh1 & Hs1 & Hcells & Hframe).
    apply in_map_iff in Hin as (k & Ek & Hk). inversion Ek; subst k sub. clear Ek.
    apply in_seq in Hk.
    destruct (sub_step_3d b1 i j s1 Hi ltac:(lia) Hsh1)
      as (b2 & Hstep & Hsh2 & Hcell & Hfr).
    exists b2, (logged s1 [pick (spectrum y i j)]). split; [exact Hstep|].
    split; [exact Hsh2|]. split.
    + rewrite Hs1, logged_logged, map_app. reflexivity.
    + split.
      * intros j' sub' Hin'. apply in_app_or in Hin' as [Hin' | [Ein | []]].
        -- destruct (Nat.eq_dec j' j) as [->|Hne]; [exact Hcell|].
           apply Hfr; [right; exact Hne|]. eapply Hcells; eauto.
        -- inversion Ein; subst. exact Hcell.
      * intros i' j' Hne Hold. apply Hfr; [left; exact Hne|]. apply Hframe; auto.
  - exists b'. split.
    + rewrite Hrun, Hs'. unfold l. rewrite map_map. reflexivity.
    + split; [exact Hsh'|]. split; [|exact Hframe].
      intros j Hj. apply (Hcells j (subarray (transpose (subarray y i)) j)).
      unfold l. apply in_map_iff. exists j. split; [reflexivity|].
      apply in_seq. lia.
Qed.

Lemma fit_batch_3d s :
  exists b, fit_batch fit pick x y s
            = (Return b, logged s (flat_map (fun i => map (fun j => pick (spectrum y i j))
                                                        (seq 0 S)) (seq 0 E))) /\
    shapes3 b /\ forall i j, i < E -> j < S -> cell3_ok b i j.
Proof.
  unfold fit_batch, allocate, iterate, ndim. rewrite Hshape. simpl.
  unfold bind at 1. unfold lift at 1. unfold bind at 1. unfold lift at 1.
  rewrite enumerate_map_seq.
  set (b0 := (full_nan [E; S], full_nan [E; S], full_nan [E; F; S])).
  set (l := map (fun i => (i, subarray y i)) (seq 0 E)).
  destruct (foldM_progress (event_step fit pick x)
              (fun done b s1 =>
                 shapes3 b /\
                 s1 = logged s (flat_map (fun a => map (fun j => pick (spectrum y (fst a) j))
                                                     (seq 0 S)) done) /\
                 forall i te j, In (i, te) done -> j < S -> cell3_ok b i j)
              l b0 s) as (b' & s' & Hrun & Hsh & Hs' & Hcells).
  - split; [repeat split|]. split; [symmetry; apply logged_nil|].
    intros i te j [].
  - intros done [i te] b1 s1 Hin (Hsh & Hs1 & Hcells).
    apply in_map_iff in Hin as (k & Ek & Hk). inversion Ek; subst k te. clear Ek.
    apply in_seq in Hk.
    destruct (event_step_3d b1 i s1 ltac:(lia) Hsh) as (b2 & Hstep & Hsh2 & Hrow & Hframe).
    eexists b2, _. split; [exact Hstep|].
    split; [exact Hsh2|]. split.
    + rewrite Hs1, logged_logged, flat_map_app. simpl. rewrite app_nil_r. reflexivity.
    + intros i' te' j Hin' Hj. apply in_app_or in Hin' as [Hin' | [Ein | []]].
      * destruct (Nat.eq_dec i' i) as [->|Hne]; [apply Hrow; exact Hj|].
        apply Hframe; [exact Hne|]. eapply Hcells; eauto.
      * inversion Ein; subst. apply Hrow. exact Hj.
  - exists b'. split.
    + rewrite Hrun, Hs'. unfold l. rewrite flat_map_concat_map, map_map.
      rewrite <- flat_map_concat_map. reflexivity.
    + split; [exact Hsh|]. intros i j Hi Hj. apply (Hcells i (subarray y i) j); [|exact Hj].
      unfold l. apply in_map_iff. exists i. split; [reflexivity|].
      apply in_seq. lia.
Qed.

End FitBatch3D.

(** ** Axis orientation *)

Lemma arr_eq_refl a : arr_eq a a.
Proof. split; auto. Qed.

Lemma swapaxes_Return a i j :
  i < ndim a -> j < ndim a ->
  swapaxes a i j = Return {| shape := swap_at 0 i j (shape a);
                             item := fun idx => item a (swap_at 0 i j idx) |}.
Proof.
  intros Hi Hj. unfold swapaxes.
  apply Nat.ltb_lt in Hi, Hj. rewrite Hi, Hj. reflexivity.
Qed.

Lemma in_boundsb_length idx sh :
  in_boundsb idx sh = true -> length idx = length sh.
Proof.
  revert sh. induction idx as [|k idx IH]; intros [|n sh] Hb; simpl in *;
    try discriminate; try reflexivity.
  apply andb_true_iff in Hb as [_ Hb]. f_equal. apply IH. exact Hb.
Qed.

Lemma swap_at_length {A} (d : A) i j l : length (swap_at d i j l) = length l.
Proof. unfold swap_at. rewrite !length_insert. reflexivity. Qed.

Lemma swap_at_lookup {A} (d : A) i j l k :
  i < length l -> j < length l ->
  swap_at d i j l !! k
  = if decide (k = i) then l !! j else if decide (k = j) then l !! i else l !! k.
Proof.
  intros Hi Hj. unfold swap_at. rewrite !nth_lookup.
  destruct (lookup_lt_is_Some_2 l i Hi) as [vi Hvi].
  destruct (lookup_lt_is_Some_2 l j Hj) as [vj Hvj].
  rewrite Hvi, Hvj. simpl.
  destruct (decide (k = i)) as [->|Hki].
  - rewrite list_lookup_insert_eq by (rewrite length_insert; lia). reflexivity.
  - rewrite list_lookup_insert_ne by congruence.
    destruct (decide (k = j)) as [->|Hkj].
    + rewrite list_lookup_insert_eq by lia. reflexivity.
    + rewrite list_lookup_insert_ne by congruence. reflexivity.
Qed.

Lemma swap_at_involutive {A} (d : A) i j l :
  i < length l -> j < length l -> swap_at d i j (swap_at d i j l) = l.
Proof.
  intros Hi Hj. apply list_eq. intros k.
  rewrite swap_at_lookup by (rewrite swap_at_length; lia).
  rewrite !swap_at_lookup by lia.
  destruct (decide (k = i)) as [->|Hki].
  - destruct (decide (j = i)) as [->|Hji]; [reflexivity|].
    destruct (decide (j = j)); [reflexivity | congruence].
  - destruct (decide (k = j)) as [->|Hkj]; [|reflexivity].
    destruct (decide (i = i)); [reflexivity | congruence].
Qed.

(** Swapping the same two axes twice gives the array back. *)
Lemma swapaxes_involutive a i j b c :
  swapaxes a i j = Return b -> swapaxes b i j = Return c -> arr_eq c a.
Proof.
  unfold swapaxes. intros Hb Hc.
  destruct ((i <? ndim a) && (j <? ndim a)) eqn:Ha; [|discriminate].
  inversion Hb; subst b; clear Hb. unfold ndim in *. simpl in Hc.
  rewrite swap_at_length, Ha in Hc.
  inversion Hc; subst c; clear Hc. simpl.
  apply andb_true_iff in Ha as [Hi Hj]. apply Nat.ltb_lt in Hi, Hj.
  split; simpl.
  - apply swap_at_involutive; assumption.
  - intros idx Hb. f_equal. apply in_boundsb_length in Hb.
    rewrite swap_at_involutive in Hb by assumption.
    apply swap_at_involutive; lia.
Qed.

(** C4.  Normalisation followed by denormalisation is the identity: for
    every three- or four-dimensional power array, [normalize] returns; it
    swaps exactly when the array is four-dimensional and its time axis is
    shorter than its electrode axis; and [denormalize], applied as the
    program applies it -- to an array that lost the event axis through a
    reduction [g] over events, axes 1 and 2 -- returns the array that the
    same reduction gives on the original input, with the same shape, axis
    order and cells. *)
Theorem normalize_denormalize_identity (p : ndarray) (g : list num -> num) :
  ndim p = 3 \/ ndim p = 4 ->
  exists q d,
    normalize p
    = Return (q, (ndim p =? 4) && (nth 3 (shape p) 0 <? nth 2 (shape p) 0)) /\
    denormalize ((ndim p =? 4) && (nth 3 (shape p) 0 <? nth 2 (shape p) 0))
      (reduce0 g q) 1 2 = Return d /\
    arr_eq d (reduce0 g p).
Proof.
  intros Hdim. unfold normalize.
  destruct ((ndim p =? 4) && (nth 3 (shape p) 0 <? nth 2 (shape p) 0)) eqn:Hsw.
  - apply andb_true_iff in Hsw as [H4 _]. apply Nat.eqb_eq in H4.
    unfold ndim in H4.
    destruct (shape p) as [|e [|f [|c [|t [|? ?]]]]] eqn:Hs; try discriminate.
    rewrite swapaxes_Return by (unfold ndim; rewrite Hs; simpl; lia).
    simpl. eexists _, _. split; [reflexivity|].
    unfold denormalize. simpl.
    rewrite swapaxes_Return by (unfold ndim; simpl; rewrite Hs; simpl; lia).
    split; [reflexivity|].
    split; simpl; rewrite Hs; [reflexivity|].
    intros idx Hb. simpl in Hb.
    destruct idx as [|a [|b [|c' [|? ?]]]]; try discriminate;
      try (simpl in Hb; rewrite ?andb_false_r in Hb; discriminate).
    unfold lane. simpl. rewrite Hs. reflexivity.
  - exists p, (reduce0 g p). split; [reflexivity|].
    split; [reflexivity|]. apply arr_eq_refl.
Qed.

(** A three-dimensional input and a four-dimensional one whose time axis is
    the longer are left alone; a four-dimensional one whose time axis is the
    shorter is swapped. *)
Lemma normalize_denormalize_identity_witness :
  (exists q d, normalize (full_nan [4; 5; 3; 2]) = Return (q, true) /\
               denormalize true (reduce0 mean_list q) 1 2 = Return d /\
               arr_eq d (reduce0 mean_list (full_nan [4; 5; 3; 2]))) /\
  (exists q d, normalize (full_nan [4; 5; 2; 3]) = Return (q, false) /\
               denormalize false (reduce0 mean_list q) 1 2 = Return d /\
               arr_eq d (reduce0 mean_list (full_nan [4; 5; 2; 3]))) /\
  (exists q d, normalize (full_nan [4; 5; 3]) = Return (q, false) /\
               denormalize false (reduce0 mean_list q) 1 2 = Return d /\
               arr_eq d (reduce0 mean_list (full_nan [4; 5; 3]))).
Proof.
  split; [|split].
  - apply (normalize_denormalize_identity (full_nan [4; 5; 3; 2]) mean_list).
    right. reflexivity.
  - apply (normalize_denormalize_identity (full_nan [4; 5; 2; 3]) mean_list).
    right. reflexivity.
  - apply (normalize_denormalize_identity (full_nan [4; 5; 3]) mean_list).
    left. reflexivity.
Defined.

(** ** What the fitters store *)

Lemma spectrum_cell y i j m : item (spectrum y i j) [m] = item y [i; m; j].
Proof. reflexivity. Qed.

Lemma spectrum_shape y i j E F S :
  shape y = [E; F; S] -> shape (spectrum y i j) = [F].
Proof. unfold spectrum. simpl. intros ->. reflexivity. Qed.

Lemma bcast_nth_lt (c : list num) F m :
  length c = F -> m < F -> bcast_nth c m = nth m c NaN.
Proof.
  intros Hc Hm. unfold bcast_nth.
  destruct (length c =? 1) eqn:E1; [|reflexivity].
  apply Nat.eqb_eq in E1. replace m with 0 by lia. reflexivity.
Qed.

Lemma broadcastable_length (c : list num) F :
  length c = F -> broadcastable (length c) [F] = true.
Proof. intros ->. simpl. rewrite Nat.eqb_refl. reflexivity. Qed.

Lemma flat_map_const {A B} (b : B) (l : list A) n :
  flat_map (fun _ => repeat b n) l = repeat b (length l * n).
Proof.
  induction l as [|a l IH]; simpl; [reflexivity|].
  rewrite IH, repeat_app. reflexivity.
Qed.

Lemma map_const_seq {B} (b : B) a n : map (fun _ => b) (seq a n) = repeat b n.
Proof.
  revert a. induction n as [|n IH]; intros a; simpl; [reflexivity|].
  rewrite IH. reflexivity.
Qed.

(** The results of a two-dimensional batch whose fits returned [r 0], ...,
    [r (E-1)], and of a three-dimensional one whose fits returned [r i j]. *)
Definition rows_are_fits (r : nat -> FitOut) (E F : nat) (b : fit_result) : Prop :=
  forall i, i < E ->
    item (fst (fst b)) [i] = param1 (r i) /\
    item (snd (fst b)) [i] = param0 (r i) /\
    forall m, m < F -> item (snd b) [i; m] = nth m (curve (r i)) NaN.

Definition cells_are_fits (r : nat -> nat -> FitOut) (E F S : nat) (b : fit_result) : Prop :=
  forall i j, i < E -> j < S ->
    item (fst (fst b)) [i; j] = param1 (r i j) /\
    item (snd (fst b)) [i; j] = param0 (r i j) /\
    forall m, m < F -> item (snd b) [i; m; j] = nth m (curve (r i j)) NaN.

Lemma fit_batch_rows fit pick x y E F r s :
  shape y = [E; F] ->
  (forall i, i < E -> fit (subarray y i) = Return (r i) /\ length (curve (r i)) = F) ->
  exists b, fit_batch fit pick x y s
            = (Return b, logged s (map (subarray y) (seq 0 E))) /\
            rows_are_fits r E F b.
Proof.
  intros Hs Hfit.
  destruct (fit_batch_2d fit pick x y E F r s Hs) as (b & Hrun & _ & Hrows).
  - intros i Hi. destruct (Hfit i Hi) as [Hr Hc]. split; [exact Hr|].
    apply broadcastable_length. exact Hc.
  - exists b. split; [exact Hrun|].
    intros i Hi. destruct (Hrows i Hi) as (H1 & H2 & H3).
    repeat split; auto. intros m Hm. rewrite H3.
    apply (bcast_nth_lt _ F); [apply Hfit; exact Hi | exact Hm].
Qed.

Lemma fit_batch_cells fit pick x y E F S r s :
  shape y = [E; F; S] -> len x = Return F ->
  (forall i j, i < E -> j < S ->
     fit (pick (spectrum y i j)) = Return (r i j) /\ length (curve (r i j)) = F) ->
  exists b, fit_batch fit pick x y s
            = (Return b, logged s (flat_map (fun i => map (fun j => pick (spectrum y i j))
                                                        (seq 0 S)) (seq 0 E))) /\
            cells_are_fits r E F S b.
Proof.
  intros Hs Hx Hfit.
  destruct (fit_batch_3d fit pick x y E F S r Hs Hx) with (s := s)
    as (b & Hrun & _ & Hcells).
  - intros i j Hi Hj. destruct (Hfit i j Hi Hj) as [Hr Hc]. split; [exact Hr|].
    left. exact Hc.
  - exists b. split; [exact Hrun|].
    intros i j Hi Hj. destruct (Hcells i j Hi Hj) as (H1 & H2 & H3).
    repeat split; auto. intros m Hm. rewrite H3.
    apply (bcast_nth_lt _ F); [apply Hfit; assumption | exact Hm].
Qed.

(** [robust_reg] on a three-dimensional batch fits every event at every
    sub-unit on that spectrum alone. *)
Lemma robust_reg_fits_each_spectrum `{Libraries} x y E F S r s :
  shape y = [E; F; S] -> len x = Return F ->
  (forall i j, i < E -> j < S ->
     RLM_fit (spectrum y i j) x = Return (r i j) /\ length (curve (r i j)) = F) ->
  exists b, robust_reg x y s
            = (Return b, logged s (flat_map (fun i => map (spectrum y i) (seq 0 S))
                                             (seq 0 E))) /\
            cells_are_fits r E F S b.
Proof.
  intros Hs Hx Hfit. rewrite robust_reg_unfold.
  exact (fit_batch_cells (fun d => RLM_fit d x) (fun d => d) x y E F S r s Hs Hx Hfit).
Qed.

(** C5.  On a three-dimensional batch (events x frequencies x sub-units)
    [run_foof] does not fit the spectrum of event [i] at sub-unit [j]: each
    of its [E * S] fits is handed the whole batch [y], and every cell of the
    slopes, offsets and residuals holds the outcome [r] of that one fit,
    whatever the event and the sub-unit. *)
Theorem run_foof_fits_whole_batch `{Libraries} x y E F S r s :
  shape y = [E; F; S] -> len x = Return F ->
  FOOOF_fit x y = Return r -> length (curve r) = F ->
  exists b, run_foof x y s = (Return b, logged s (repeat y (E * S))) /\
            cells_are_fits (fun _ _ => r) E F S b.
Proof.
  intros Hs Hx Hr Hc. rewrite run_foof_unfold.
  destruct (fit_batch_cells (FOOOF_fit x) (fun _ => y) x y E F S (fun _ _ => r) s Hs Hx)
    as (b & Hrun & Hcells).
  - intros i j _ _. split; assumption.
  - exists b. split; [|exact Hcells].
    rewrite Hrun. f_equal. f_equal.
    transitivity (flat_map (fun _ : nat => repeat y S) (seq 0 E)).
    + apply flat_map_ext. intros i. apply map_const_seq.
    + rewrite flat_map_const, length_seq. reflexivity.
Qed.

Lemma run_foof_fits_whole_batch_witness :
  exists b, @run_foof level_libs (freqs_array two_freqs) batch_a initial_state
            = (Return b, logged initial_state (repeat batch_a (2 * 2))) /\
            cells_are_fits (fun _ _ => level_fit 2 batch_a) 2 2 2 b.
Proof.
  apply (@run_foof_fits_whole_batch level_libs (freqs_array two_freqs) batch_a 2 2 2
           (level_fit 2 batch_a) initial_state); reflexivity.
Defined.

(** The two batches agree on their first event, yet [run_foof] gives that
    event different slopes; [robust_reg] gives it the same ones. *)
Example run_foof_event_depends_on_siblings :
  let slopes L (f : ndarray -> ndarray -> M fit_result) x y :=
    match fst (f x y initial_state) with
    | Return b => ravel (subarray (fst (fst b)) 0)
    | Raise _ => []
    end in
  ravel (subarray batch_a 0) = ravel (subarray batch_b 0) /\
  nums_eqb (slopes level_libs (@run_foof level_libs) (freqs_array two_freqs) batch_a)
           (slopes level_libs (@run_foof level_libs) (freqs_array two_freqs) batch_b)
  = false /\
  nums_eqb (slopes level_libs (@robust_reg level_libs) (@design_matrix level_libs two_freqs) batch_a)
           (slopes level_libs (@robust_reg level_libs) (@design_matrix level_libs two_freqs) batch_b)
  = true.
Proof. vm_compute. repeat split; reflexivity. Qed.

(** *** Fits that fail *)

(** C3, as stated, fails: when the library raises on the second of three
    events, [robust_reg] and [run_foof] raise too; the third event is never
    fitted and the results of the first are lost. *)
Lemma raising_fit_aborts_batch :
  @RLM_fit strict_libs (subarray batch_nan 1) (@design_matrix strict_libs two_freqs)
  = Raise (LibraryError 1) /\
  fst (@robust_reg strict_libs (@design_matrix strict_libs two_freqs) batch_nan initial_state)
  = Raise (LibraryError 1) /\
  length (fit_log (snd (@robust_reg strict_libs (@design_matrix strict_libs two_freqs)
                          batch_nan initial_state))) = 2 /\
  fst (@run_foof strict_libs (freqs_array two_freqs) batch_nan initial_state)
  = Raise (LibraryError 1) /\
  length (fit_log (snd (@run_foof strict_libs (freqs_array two_freqs)
                          batch_nan initial_state))) = 2.
Proof. vm_compute. repeat split; reflexivity. Qed.

(** C3, amended.  The fitters have no handler of their own.  When every fit
    of a batch returns -- a fit that did not converge returning not-a-number
    outputs -- the fitter returns, and the outputs stored for an event (and
    for a sub-unit, in [robust_reg]) are exactly those of its own fit, so
    not-a-number outputs of one fit stay in that event's cells.  When the fit
    of an event raises after the earlier ones returned, the fitter raises
    the same exception: the batch is aborted. *)
Theorem fitters_store_each_fit_or_abort `{Libraries} x y E F S s :
  (shape y = [E; F] ->
   (forall r, (forall i, i < E ->
                 RLM_fit (subarray y i) x = Return (r i) /\ length (curve (r i)) = F) ->
      exists b s', robust_reg x y s = (Return b, s') /\ rows_are_fits r E F b) /\
   (forall r, (forall i, i < E ->
                 FOOOF_fit x (subarray y i) = Return (r i) /\ length (curve (r i)) = F) ->
      exists b s', run_foof x y s = (Return b, s') /\ rows_are_fits r E F b) /\
   (forall r k e, k < E ->
      (forall i, i < k ->
         RLM_fit (subarray y i) x = Return (r i) /\ length (curve (r i)) = F) ->
      RLM_fit (subarray y k) x = Raise e ->
      exists s', robust_reg x y s = (Raise e, s')) /\
   (forall r k e, k < E ->
      (forall i, i < k ->
         FOOOF_fit x (subarray y i) = Return (r i) /\ length (curve (r i)) = F) ->
      FOOOF_fit x (subarray y k) = Raise e ->
      exists s', run_foof x y s = (Raise e, s'))) /\
  (shape y = [E; F; S] -> len x = Return F ->
   forall r, (forall i j, i < E -> j < S ->
                RLM_fit (spectrum y i j) x = Return (r i j) /\
                length (curve (r i j)) = F) ->
     exists b s', robust_reg x y s = (Return b, s') /\ cells_are_fits r E F S b).
Proof.
  split.
  - intros Hs. repeat split.
    + intros r Hfit. rewrite robust_reg_unfold.
      destruct (fit_batch_rows (fun d => RLM_fit d x) (fun d => d) x y E F r s Hs Hfit)
        as (b & Hrun & Hrows). eauto.
    + intros r Hfit. rewrite run_foof_unfold.
      destruct (fit_batch_rows (FOOOF_fit x) (fun _ => y) x y E F r s Hs Hfit)
        as (b & Hrun & Hrows). eauto.
    + intros r k e Hk Hfit Hraise. rewrite robust_reg_unfold. eexists.
      apply (fit_batch_2d_raise (fun d => RLM_fit d x) (fun d => d) x y E F k r Hs);
        [lia | | exact Hk | exact Hraise].
      intros i Hi. destruct (Hfit i Hi) as [Hr Hc]. split; [exact Hr|].
      apply broadcastable_length. exact Hc.
    + intros r k e Hk Hfit Hraise. rewrite run_foof_unfold. eexists.
      apply (fit_batch_2d_raise (FOOOF_fit x) (fun _ => y) x y E F k r Hs);
        [lia | | exact Hk | exact Hraise].
      intros i Hi. destruct (Hfit i Hi) as [Hr Hc]. split; [exact Hr|].
      apply broadcastable_length. exact Hc.
  - intros Hs Hx r Hfit.
    destruct (robust_reg_fits_each_spectrum x y E F S r s Hs Hx Hfit)
      as (b & Hrun & Hcells). eauto.
Qed.

(** Three events, the second with not-a-number data: the level fit of that
    event gives not-a-number outputs, both fitters return, and the rows of
    the other two events hold their own fits. *)
Lemma fitters_store_each_fit_or_abort_witness :
  (exists b s', @robust_reg level_libs (@design_matrix level_libs two_freqs) batch_nan
                  initial_state = (Return b, s') /\
                rows_are_fits (fun i => level_fit 2 (subarray batch_nan i)) 3 2 b) /\
  (exists b s', @run_foof level_libs (freqs_array two_freqs) batch_nan
                  initial_state = (Return b, s') /\
                rows_are_fits (fun i => level_fit 2 (subarray batch_nan i)) 3 2 b) /\
  (exists s', @robust_reg strict_libs (@design_matrix strict_libs two_freqs) batch_nan
                initial_state = (Raise (LibraryError 1), s')) /\
  (exists b s', @robust_reg level_libs (@design_matrix level_libs two_freqs) batch_a
                  initial_state = (Return b, s') /\
                cells_are_fits (fun i j => level_fit 2 (spectrum batch_a i j)) 2 2 2 b).
Proof.
  split; [|split; [|split]].
  - apply (proj1 (proj1 (@fitters_store_each_fit_or_abort level_libs
             (@design_matrix level_libs two_freqs) batch_nan 3 2 0 initial_state) eq_refl)).
    intros i Hi. split; reflexivity.
  - apply (proj1 (proj2 (proj1 (@fitters_store_each_fit_or_abort level_libs
             (freqs_array two_freqs) batch_nan 3 2 0 initial_state) eq_refl))).
    intros i Hi. split; reflexivity.
  - apply (proj1 (proj2 (proj2 (proj1 (@fitters_store_each_fit_or_abort strict_libs
             (@design_matrix strict_libs two_freqs) batch_nan 3 2 0 initial_state) eq_refl)))
             (fun i => level_fit 2 (subarray batch_nan i)) 1 (LibraryError 1)).
    + lia.
    + intros i Hi. replace i with 0 by lia. split; reflexivity.
    + reflexivity.
  - apply (proj2 (@fitters_store_each_fit_or_abort level_libs
             (@design_matrix level_libs two_freqs) batch_a 2 2 2 initial_state)
             eq_refl eq_refl).
    intros i j Hi Hj. split; reflexivity.
Defined.

(** The not-a-number outputs stay in the second event's row. *)
Example nan_fit_stays_in_its_row :
  match fst (@robust_reg level_libs (@design_matrix level_libs two_freqs) batch_nan
               initial_state) with
  | Return (slopes, offsets, resids) =>
      map isnan (ravel slopes) = [false; true; false] /\
      map isnan (ravel offsets) = [false; true; false] /\
      map isnan (ravel resids) = [false; false; true; true; false; false]
  | Raise _ => False
  end.
Proof. vm_compute. repeat split; reflexivity. Qed.

(** *** Resolving the frequency axis of a slice *)

Lemma freq_dim_num_cases x n d0 d1 te :
  len x = Return n -> shape te = [d0; d1] ->
  freq_dim_num x te
  = if d0 =? n then Return 0 else if d1 =? n then Return 1 else Raise IndexError.
Proof.
  intros Hx Hs. unfold freq_dim_num. rewrite Hx, Hs. simpl.
  destruct (d0 =? n); [reflexivity|]. destruct (d1 =? n); reflexivity.
Qed.

Lemma fit_batch_unresolved fit pick x y n e d0 d1 s :
  len x = Return n -> shape y = [S e; d0; d1] -> d0 <> n -> d1 <> n ->
  fit_batch fit pick x y s = (Raise IndexError, s).
Proof.
  intros Hx Hs H0 H1. unfold fit_batch, allocate, iterate. rewrite Hs.
  unfold bind at 1. unfold lift at 1. unfold bind at 1. unfold lift at 1.
  rewrite enumerate_map_seq. simpl. unfold bind at 1.
  unfold ndim. rewrite shape_subarray, Hs. simpl.
  rewrite (bind_Raise _ _ s IndexError s); [reflexivity|].
  unfold lift. f_equal.
  rewrite (freq_dim_num_cases x n d0 d1) by (auto; rewrite shape_subarray, Hs; reflexivity).
  apply Nat.eqb_neq in H0, H1. rewrite H0, H1. reflexivity.
Qed.

(** A batch whose slices have the frequencies on their second axis only:
    the axis is resolved, the slice is not transposed, and the first store
    of a fit raises, because the result arrays are laid out for slices with
    the frequencies on the first axis. *)
Lemma fit_batch_freq_last fit pick x y n e d0 s :
  len x = Return n -> shape y = [S e; S d0; n] -> S d0 <> n -> n <> 1 ->
  (forall d r, fit d = Return r -> length (curve r) = n) ->
  exists ex s', fit_batch fit pick x y s = (Raise ex, s').
Proof.
  intros Hx Hs H0 H1 Hfit. unfold fit_batch, allocate, iterate. rewrite Hs.
  unfold bind at 1. unfold lift at 1. unfold bind at 1. unfold lift at 1.
  rewrite enumerate_map_seq. simpl.
  unfold bind at 1. unfold ndim. rewrite shape_subarray, Hs. simpl.
  assert (Hk : freq_dim_num x (subarray y 0) = Return 1).
  { rewrite (freq_dim_num_cases x n (S d0) n) by (auto; rewrite shape_subarray, Hs; reflexivity).
    apply Nat.eqb_neq in H0. rewrite H0, Nat.eqb_refl. reflexivity. }
  rewrite (bind_Return _ _ s 1 s) by (unfold lift; rewrite Hk; reflexivity).
  simpl. unfold iterate. rewrite shape_subarray, Hs. simpl tail. cbv iota beta.
  rewrite (bind_Return _ _ s (map (subarray (subarray y 0)) (seq 0 (S d0))) s)
    by reflexivity.
  rewrite enumerate_map_seq. simpl.
  unfold bind at 1. unfold bind at 1. unfold call_fit at 1.
  destruct (fit (pick (subarray (subarray y 0) 0))) as [r|ex] eqn:Hr;
    [|eexists _, _; reflexivity].
  apply Hfit in Hr.
  unfold bind at 1. unfold lift at 1. unfold set_item at 1. simpl.
  destruct n as [|n]; simpl; [eexists _, _; reflexivity|].
  unfold bind at 1. unfold lift at 1. unfold bind at 1. unfold lift at 1.
  unfold set_lane. simpl. rewrite Hr.
  assert (E1 : (S n =? S d0) = false) by (apply Nat.eqb_neq; lia).
  assert (E2 : (S n =? 1) = false) by (apply Nat.eqb_neq; lia).
  rewrite E1, E2. simpl. eexists _, _; reflexivity.
Qed.

(** C10 fails on slices that have the frequencies on their second axis only.
    Take a batch of shape (events, sub-units, frequencies) whose number of
    sub-units differs from the number [n] of frequencies, [n] not 1, and
    library fits that return a curve with one value per frequency.  The
    second axis of every slice has the length of the frequency vector, and
    the resolution finds it (axis 1, no transpose); C10 then promises that
    the fitter raises nothing.  Both fitters end in an exception. *)
Theorem freq_last_slices_raise `{Libraries} x y n e d0 s :
  len x = Return n -> shape y = [S e; S d0; n] -> S d0 <> n -> n <> 1 ->
  (forall d r, RLM_fit d x = Return r -> length (curve r) = n) ->
  (forall d r, FOOOF_fit x d = Return r -> length (curve r) = n) ->
  (forall i, freq_dim_num x (subarray y i) = Return 1) /\
  (exists ex s', robust_reg x y s = (Raise ex, s')) /\
  (exists ex s', run_foof x y s = (Raise ex, s')).
Proof.
  intros Hx Hs H0 H1 Hrlm Hfooof. split; [|split].
  - intros i.
    rewrite (freq_dim_num_cases x n (S d0) n)
      by (auto; rewrite shape_subarray, Hs; reflexivity).
    apply Nat.eqb_neq in H0. rewrite H0, Nat.eqb_refl. reflexivity.
  - rewrite robust_reg_unfold.
    apply (fit_batch_freq_last _ _ x y n e d0 s Hx Hs H0 H1).
    intros d r. apply Hrlm.
  - rewrite run_foof_unfold.
    apply (fit_batch_freq_last _ _ x y n e d0 s Hx Hs H0 H1).
    intros d r. apply Hfooof.
Qed.

(** One event of 2 sub-units x 3 frequencies: the frequency axis of the
    slice is found, and both fitters raise [ValueError] at the store of the
    first curve. *)
Lemma freq_last_slices_raise_witness :
  (len (@design_matrix level_libs three_freqs) = Return 3 /\
   len (freqs_array three_freqs) = Return 3 /\
   shape batch_freq_last = [1; 2; 3]) /\
  ((forall i, freq_dim_num (@design_matrix level_libs three_freqs)
                (subarray batch_freq_last i) = Return 1) /\
   (exists ex s', @robust_reg level_libs (@design_matrix level_libs three_freqs)
                    batch_freq_last initial_state = (Raise ex, s'))) /\
  (exists ex s', @run_foof level_libs (freqs_array three_freqs)
                   batch_freq_last initial_state = (Raise ex, s')) /\
  fst (@robust_reg level_libs (@design_matrix level_libs three_freqs)
         batch_freq_last initial_state) = Raise ValueError /\
  fst (@run_foof level_libs (freqs_array three_freqs)
         batch_freq_last initial_state) = Raise ValueError.
Proof.
  split; [repeat split|]. split; [|split; [|split; reflexivity]].
  - pose proof (@freq_last_slices_raise level_libs (@design_matrix level_libs three_freqs)
                  batch_freq_last 3 0 1 initial_state eq_refl eq_refl
                  ltac:(lia) ltac:(lia)
                  ltac:(intros d r [= <-]; reflexivity)
                  ltac:(intros d r [= <-]; reflexivity)) as (Hk & Hr & _).
    split; [exact Hk | exact Hr].
  - pose proof (@freq_last_slices_raise level_libs (freqs_array three_freqs)
                  batch_freq_last 3 0 1 initial_state eq_refl eq_refl
                  ltac:(lia) ltac:(lia)
                  ltac:(intros d r [= <-]; reflexivity)
                  ltac:(intros d r [= <-]; reflexivity)) as (_ & _ & Hf).
    exact Hf.
Defined.

(** What does hold of the resolution.  It raises exactly when neither axis
    of the slice has the length of the frequency vector, and then both
    fitters raise [IndexError] before any fit; when the first axis has that
    length -- also when both have -- axis 0 is taken without any error, the
    slice is transposed, and the sub-unit [j] that is fitted is the column
    [y[i, :, j]]. *)
Lemma freq_axis_resolution `{Libraries} x n y e d0 d1 s :
  len x = Return n -> shape y = [S e; d0; d1] ->
  (freq_dim_num x (subarray y 0) = Raise IndexError <-> (d0 <> n /\ d1 <> n)) /\
  (d0 <> n -> d1 <> n ->
   robust_reg x y s = (Raise IndexError, s) /\ run_foof x y s = (Raise IndexError, s)) /\
  (d0 = n -> freq_dim_num x (subarray y 0) = Return 0) /\
  (d0 = n ->
   forall r, (forall i j, i < S e -> j < d1 ->
                RLM_fit (spectrum y i j) x = Return (r i j) /\
                length (curve (r i j)) = n) ->
     exists b s', robust_reg x y s = (Return b, s') /\
                  cells_are_fits r (S e) n d1 b /\
                  forall i j m, item (spectrum y i j) [m] = item y [i; m; j]).
Proof.
  intros Hx Hs.
  assert (Hres := freq_dim_num_cases x n d0 d1 (subarray y 0) Hx
                    ltac:(rewrite shape_subarray, Hs; reflexivity)).
  split; [|split; [|split]].
  - rewrite Hres. destruct (d0 =? n) eqn:E0; [|destruct (d1 =? n) eqn:E1].
    + apply Nat.eqb_eq in E0. split; [discriminate | intros [? _]; contradiction].
    + apply Nat.eqb_eq in E1. split; [discriminate | intros [_ ?]; contradiction].
    + apply Nat.eqb_neq in E0, E1. split; auto.
  - intros H0 H1. rewrite robust_reg_unfold, run_foof_unfold.
    split; eapply fit_batch_unresolved; eauto.
  - intros ->. rewrite Hres, Nat.eqb_refl. reflexivity.
  - intros -> r Hfit.
    destruct (robust_reg_fits_each_spectrum x y (S e) n d1 r s Hs Hx Hfit)
      as (b & Hrun & Hcells).
    exists b. eexists. split; [exact Hrun|]. split; [exact Hcells|].
    intros i j m. apply spectrum_cell.
Qed.

(** A slice of 3 x 3 cells with 3 frequencies: both axes match, nothing is
    raised, and the columns are fitted. *)
Example freq_axis_resolution_on_square_slice :
  freq_dim_num (@design_matrix level_libs three_freqs)
    (subarray batch_square 0) = Return 0 /\
  exists b s', @robust_reg level_libs (@design_matrix level_libs three_freqs)
                 batch_square initial_state = (Return b, s') /\
               cells_are_fits (fun i j => level_fit 3 (spectrum batch_square i j))
                 1 3 3 b /\
               forall i j m, item (spectrum batch_square i j) [m]
                             = item batch_square [i; m; j].
Proof.
  pose proof (@freq_axis_resolution level_libs (@design_matrix level_libs three_freqs)
                3 batch_square 0 3 3 initial_state eq_refl eq_refl) as (_ & _ & H0 & Hfit).
  split; [exact (H0 eq_refl)|].
  apply (Hfit eq_refl). intros i j Hi Hj. split; reflexivity.
Qed.

(** ** Runs on concrete inputs *)

(** C1.  A power array of 2 events, 2 frequencies, 3 electrodes and 2 time
    bins has the shorter time axis, so [analysis] swaps the last two axes
    and sets [is_swapped].  With [use_fooof] and [log_power] the spectra are
    read again from [self.subject_data.data], unswapped, while [is_swapped]
    stays set: the residual arrays are stored as (frequencies, time bins,
    electrodes) = (2, 2, 3) instead of (2, 3, 2), and the slope statistics
    as (2, 3) instead of (3, 2).  In every swapped run, this one and the
    robust-regression one, [np.swapaxes(delta_slopes, 1, 2)] is applied to a
    two-dimensional array and raises, so [delta_slopes] and [delta_offsets]
    are never stored. *)
Theorem swapped_run_misorients_results :
  let p := cycle3 [2; 2; 3; 2] in
  let mean_only := @analysis level_libs (example_self p [true; false] true false true)
                     initial_state in
  let per_event := @analysis level_libs (example_self p [true; false] true true true)
                     initial_state in
  let robust := @analysis level_libs (example_self p [true; false] false false false)
                  initial_state in
  tail (shape p) = [2; 3; 2] /\
  (fst mean_only = Raise AxisError /\
   stored_shape (snd mean_only) "delta_resid" = Some [2; 2; 3] /\
   stored_shape (snd mean_only) "delta_slopes" = None /\
   stored_shape (snd mean_only) "delta_offsets" = None) /\
  (fst per_event = Raise AxisError /\
   stored_shape (snd per_event) "ts_resid" = Some [2; 2; 3] /\
   stored_shape (snd per_event) "ps_resid" = Some [2; 2; 3] /\
   stored_shape (snd per_event) "ts_slopes" = Some [2; 3] /\
   stored_shape (snd per_event) "delta_resid" = Some [2; 2; 3] /\
   stored_shape (snd per_event) "delta_slopes" = None) /\
  (fst robust = Raise AxisError /\
   stored_shape (snd robust) "ts_resid" = Some [2; 3; 2] /\
   stored_shape (snd robust) "ts_slopes" = Some [3; 2] /\
   stored_shape (snd robust) "delta_resid" = Some [2; 3; 2] /\
   stored_shape (snd robust) "delta_slopes" = None /\
   stored_shape (snd robust) "delta_offsets" = None).
Proof. vm_compute. repeat split; reflexivity. Qed.

(** C2.  In the per-event branch the deltas of a run whose second event has
    a not-a-number fit equal those of the run without that event, but every
    t-statistic and p-value at the coordinates of that event is not-a-number,
    whereas the run without the event has numbers there: [ttest_ind] is
    called without a policy for not-a-number. *)
Theorem ttest_keeps_nan_events :
  let holed := @analysis level_libs
                 (example_self holed_power [true; true; false; false] false false false)
                 initial_state in
  let cleaned := @analysis level_libs
                   (example_self cleaned_power [true; false; false] false false false)
                   initial_state in
  fst holed = Return tt /\ fst cleaned = Return tt /\
  same_stored (snd cleaned) (snd holed) delta_keys = true /\
  all_stored (forallb isnan) (snd holed) stat_keys = true /\
  all_stored (fun cells => negb (existsb isnan cells)) (snd cleaned) stat_keys = true.
Proof. vm_compute. repeat split; reflexivity. Qed.

(** C6.  With [use_fooof] and without [fooof_fit_each_event], a
    three-dimensional power array gets two fits per electrode, each on a
    one-dimensional condition mean, no statistic is stored and the deltas
    are the differences of the two fits.  A four-dimensional array gets two
    fits per electrode and time bin as well, but each of them is handed the
    whole two-condition batch of its unit (shape (2, 2, 1) here), so the
    fits of the two conditions coincide and every delta is zero although the
    condition means differ. *)
Theorem mean_only_fits_of_4d_power_take_whole_batch :
  let three := @analysis level_libs
                 (example_self power_3d [true; false; true] true false false) initial_state in
  let four := @analysis level_libs
                (example_self power_4d [true; false] true false false) initial_state in
  (fst three = Return tt /\
   map shape (fit_log (snd three)) = [[2]; [2]; [2]; [2]] /\
   none_stored (snd three) stat_keys = true /\
   cells_are (snd three) "delta_slopes"
     [Val (Qc_of_int (-1) / Qc_of_int 4); Val (Qc_of_int (-7) / Qc_of_int 4)] = true) /\
  (fst four = Return tt /\
   map shape (fit_log (snd four)) = [[2; 2; 1]; [2; 2; 1]; [2; 2; 1]; [2; 2; 1]] /\
   none_stored (snd four) stat_keys = true /\
   cells_are (snd four) "delta_resid" (int_cells [0; 0; 0; 0]%Z) = true /\
   cells_are (snd four) "delta_slopes" (int_cells [0; 0]%Z) = true /\
   cells_are (snd four) "delta_offsets" (int_cells [0; 0]%Z) = true /\
   nums_eqb (ravel (subarray power_4d 0)) (ravel (subarray power_4d 1)) = false).
Proof. vm_compute. repeat split; reflexivity. Qed.

(** C7, as stated, fails: with [use_fooof] and [fooof_fit_each_event] the
    deltas that are stored are those of the per-event branch; they are not
    the differences [x[k][0] - x[k][1]] that the mean-only branch would have
    written over them. *)
Lemma per_event_deltas_are_not_overwritten :
  let self := example_self power_3d [true; false; true] true true false in
  let run := @analysis level_libs self initial_state in
  fst run = Return tt /\
  match unit_fits (@run_foof level_libs) (freqs_array (freqs self)) power_3d with
  | Return fits =>
      match @delta_per_event 2 [true; false; true] fits, delta_mean_only 2 fits with
      | Return event_delta, Return mean_delta =>
          cells_are (snd run) "delta_resid" (ravel event_delta) = true /\
          cells_are (snd run) "delta_resid" (ravel mean_delta) = false
      | _, _ => False
      end
  | Raise _ => False
  end.
Proof. vm_compute. repeat split; reflexivity. Qed.

(** C9, as stated, fails: two events but three recall labels.  With the
    robust regression every spectrum is fitted -- six fits -- before the
    mismatch raises in the contrast; nothing is stored. *)
Lemma misaligned_labels_raise_after_fitting :
  let run := @analysis level_libs
               (example_self (cycle3 [2; 2; 3]) [true; false; true] false false false)
               initial_state in
  fst run = Raise IndexError /\
  length (fit_log (snd run)) = 6 /\
  none_stored (snd run) (stat_keys ++ delta_keys) = true.
Proof. vm_compute. repeat split; reflexivity. Qed.

(** ** Not-a-number in the means and in the t-test *)

Lemma nadd_zero_l v : nadd (Val 0%Qc) v = v.
Proof. destruct v as [|q]; simpl; [reflexivity|]. rewrite Qcplus_0_l. reflexivity. Qed.

(** [np.nanmean] is the mean of the cells that are numbers. *)
Lemma nanmean_list_excludes_nan l :
  nanmean_list l = mean_list (filter (fun v => isnan v = false) l).
Proof.
  unfold nanmean_list, mean_list, count_not_nan. f_equal.
  induction l as [|v l IH]; [reflexivity|].
  destruct v as [|q].
  - rewrite filter_cons_False by (simpl; discriminate).
    change (nsum (map replace_nan (NaN :: l)))
      with (nadd (Val 0%Qc) (nsum (map replace_nan l))).
    rewrite nadd_zero_l. exact IH.
  - rewrite filter_cons_True by reflexivity.
    change (nsum (map replace_nan (Val q :: l)))
      with (nadd (Val q) (nsum (map replace_nan l))).
    change (nsum (Val q :: filter (fun v => isnan v = false) l))
      with (nadd (Val q) (nsum (filter (fun v => isnan v = false) l))).
    rewrite IH. reflexivity.
Qed.

Lemma finite_vals_nan l : In NaN l -> finite_vals l = None.
Proof.
  induction l as [|v l IH]; intros Hin; [destruct Hin|].
  destruct v as [|q]; [reflexivity|]. simpl.
  destruct Hin as [Hin | Hin]; [discriminate|]. rewrite (IH Hin). reflexivity.
Qed.

(** [ttest_ind] does not leave not-a-number events out: one such event in
    either sample makes the statistic and the p-value not-a-number. *)
Lemma ttest_lane_propagates_nan `{Libraries} a b :
  In NaN a \/ In NaN b -> ttest_lane a b = (NaN, NaN).
Proof.
  intros Hnan. unfold ttest_lane.
  destruct ((length a =? 0) || (length b =? 0)); [reflexivity|].
  destruct Hnan as [Ha | Hb].
  - rewrite (finite_vals_nan a Ha). reflexivity.
  - rewrite (finite_vals_nan b Hb). destruct (finite_vals a); reflexivity.
Qed.

(** On samples of numbers it is the Student statistic of the library. *)
Lemma ttest_lane_finite `{Libraries} a b p q :
  a <> [] -> b <> [] -> finite_vals a = Some p -> finite_vals b = Some q ->
  ttest_lane a b = student p q.
Proof.
  intros Ha Hb Hp Hq. unfold ttest_lane. rewrite Hp, Hq.
  destruct a; [contradiction|]. destruct b; [contradiction|]. reflexivity.
Qed.

(** ** The contrast on degenerate label vectors *)

Definition nan_everywhere (a : ndarray) : Prop := forall idx, item a idx = NaN.

Lemma nan_everywhere_all_nan a : nan_everywhere a -> all_nan a.
Proof. intros Ha idx _. apply Ha. Qed.

Lemma nsub_nan_l b : nsub NaN b = NaN.
Proof. reflexivity. Qed.

Lemma nsub_nan_r a : nsub a NaN = NaN.
Proof. destruct a; reflexivity. Qed.

Lemma omap_Return_Forall {A B} (f : A -> outcome B) (P : B -> Prop) l bs :
  (forall a b, In a l -> f a = Return b -> P b) ->
  omap f l = Return bs -> Forall P bs.
Proof.
  revert bs. induction l as [|a l IH]; intros bs Hf E; simpl in E.
  - inversion E. constructor.
  - destruct (f a) as [b|e] eqn:Ea; simpl in E; [|discriminate].
    destruct (omap f l) as [bs'|e] eqn:El; simpl in E; [|discriminate].
    inversion E; subst. constructor.
    + apply (Hf a b); [left; reflexivity | exact Ea].
    + apply IH; [|reflexivity]. intros a' b' Hin. apply Hf. right. exact Hin.
Qed.

Lemma nth_Forall {A} (P : A -> Prop) l d k : Forall P l -> P d -> P (nth k l d).
Proof.
  intros Hl Hd. revert k. induction Hl as [|a l Ha Hl IH]; intros [|k]; simpl; auto.
Qed.

Lemma stack_last_nan arrs d :
  Forall nan_everywhere arrs -> stack_last arrs = Return d -> nan_everywhere d.
Proof.
  intros Hall E. unfold stack_last in E. destruct arrs as [|a0 arrs]; [discriminate|].
  destruct (forallb _ _); [|discriminate]. inversion E; subst d. clear E.
  intros idx. simpl item.
  assert (G : nan_everywhere (nth (List.last idx 0) (a0 :: arrs) a0)).
  { apply nth_Forall; [exact Hall|]. inversion Hall; assumption. }
  apply G.
Qed.

Lemma swapaxes_nan a i j b :
  nan_everywhere a -> swapaxes a i j = Return b -> nan_everywhere b.
Proof.
  intros Ha E. unfold swapaxes in E. destruct (_ && _); [|discriminate].
  inversion E; subst b. intros idx. apply Ha.
Qed.

Lemma denormalize_nan sw a i j b :
  nan_everywhere a -> denormalize sw a i j = Return b -> nan_everywhere b.
Proof.
  intros Ha E. unfold denormalize in E. destruct sw; simpl in E.
  - eapply swapaxes_nan; eauto.
  - inversion E; subst. exact Ha.
Qed.

Lemma true_positions_all_false from m :
  all_false m = true -> true_positions from m = [].
Proof.
  revert from. induction m as [|b m IH]; intros from Hm; simpl in *; [reflexivity|].
  apply andb_true_iff in Hm as [Hb Hm]. destruct b; [discriminate|]. apply IH. exact Hm.
Qed.

Lemma all_true_negb m : all_true m = true -> all_false (map negb m) = true.
Proof.
  induction m as [|b m IH]; simpl; [reflexivity|]. intros Hm.
  apply andb_true_iff in Hm as [Hb Hm]. destruct b; [|discriminate]. simpl. apply IH, Hm.
Qed.

(** A mask without a [True] selects no event: every lane is empty. *)
Lemma mask_index_all_false a m a' idx :
  all_false m = true -> mask_index a m = Return a' -> lane a' idx = [].
Proof.
  intros Hm E. unfold mask_index in E. destruct (shape a) as [|n sh]; [discriminate|].
  destruct (length m =? n); [|discriminate]. inversion E; subst a'.
  unfold lane. simpl. rewrite (true_positions_all_false 0 m Hm). reflexivity.
Qed.

Section DegenerateLabels.
Context `{Libraries}.
Variable recalled : list bool.
Hypothesis Hdegenerate : all_true recalled = true \/ all_false recalled = true.

Lemma masked_pair_has_empty_lane a ra rb :
  mask_index a recalled = Return ra -> mask_index a (map negb recalled) = Return rb ->
  forall idx, lane ra idx = [] \/ lane rb idx = [].
Proof.
  intros Ea Eb idx. destruct Hdegenerate as [Ht | Hf].
  - right. eapply mask_index_all_false; [apply all_true_negb, Ht | exact Eb].
  - left. eapply mask_index_all_false; eauto.
Qed.

Lemma delta_per_event_nan k fits d :
  delta_per_event k recalled fits = Return d -> nan_everywhere d.
Proof.
  unfold delta_per_event. intros E.
  destruct (omap _ fits) as [arrs|e] eqn:Earrs; simpl in E; [|discriminate].
  eapply stack_last_nan; [|exact E].
  eapply omap_Return_Forall; [|exact Earrs].
  intros x b _ Ex. simpl in Ex.
  destruct (mask_index (field k x) recalled) as [ra|?] eqn:Ea; simpl in Ex; [|discriminate].
  destruct (mask_index (field k x) (map negb recalled)) as [rb|?] eqn:Eb; simpl in Ex;
    [|discriminate].
  inversion Ex; subst b. intros idx. simpl.
  destruct (masked_pair_has_empty_lane _ _ _ Ea Eb idx) as [-> | ->].
  - apply nsub_nan_l.
  - apply nsub_nan_r.
Qed.

Lemma ttest_lane_empty a b : a = [] \/ b = [] -> ttest_lane a b = (NaN, NaN).
Proof.
  unfold ttest_lane. intros [-> | ->]; simpl; [reflexivity|].
  rewrite orb_true_r. reflexivity.
Qed.

Lemma ttest_per_event_nan k fits ts ps :
  ttest_per_event k recalled fits = Return (ts, ps) ->
  nan_everywhere ts /\ nan_everywhere ps.
Proof.
  unfold ttest_per_event. intros E.
  destruct (omap _ fits) as [tests|e] eqn:Etests; simpl in E; [|discriminate].
  destruct (stack_last (map fst tests)) as [ts'|?] eqn:Ets; simpl in E; [|discriminate].
  destruct (stack_last (map snd tests)) as [ps'|?] eqn:Eps; simpl in E; [|discriminate].
  inversion E; subst ts' ps'.
  assert (Hall : Forall (fun t => nan_everywhere (fst t) /\ nan_everywhere (snd t)) tests).
  { eapply omap_Return_Forall; [|exact Etests].
    intros x b _ Ex. simpl in Ex.
    destruct (mask_index (field k x) recalled) as [ra|?] eqn:Ea; simpl in Ex;
      [|discriminate].
    destruct (mask_index (field k x) (map negb recalled)) as [rb|?] eqn:Eb; simpl in Ex;
      [|discriminate].
    inversion Ex; subst b. unfold ttest_ind. simpl.
    split; intros idx; simpl;
      rewrite (ttest_lane_empty _ _ (masked_pair_has_empty_lane _ _ _ Ea Eb idx));
      reflexivity. }
  split.
  - eapply stack_last_nan; [|exact Ets]. apply Forall_map.
    eapply Forall_impl; [exact Hall|]. intros t [Ht _]. exact Ht.
  - eapply stack_last_nan; [|exact Eps]. apply Forall_map.
    eapply Forall_impl; [exact Hall|]. intros t [_ Ht]. exact Ht.
Qed.

End DegenerateLabels.

(** *** Fits of a condition without events *)

Lemma isnan_true v : isnan v = true -> v = NaN.
Proof. destruct v; [reflexivity | discriminate]. Qed.

Lemma nan_everywhere_empty_or_nan d : nan_everywhere d -> empty_or_nan d = true.
Proof.
  intros Hd. unfold empty_or_nan, ravel.
  destruct (coords (shape d)) as [|c cs]; [reflexivity|].
  simpl. rewrite Hd. reflexivity.
Qed.

Lemma nan_row_empty_or_nan y i0 :
  (forall r, item y (i0 :: r) = NaN) ->
  i0 < hd 0 (shape y) ->
  empty_or_nan y = true.
Proof.
  intros Hrow Hi. unfold empty_or_nan, ravel.
  destruct (map (item y) (coords (shape y))) as [|v vs] eqn:El; [reflexivity|].
  rewrite <- El. apply existsb_exists.
  destruct (shape y) as [|n sh]; [simpl in Hi; lia|]. simpl in Hi.
  destruct (coords sh) as [|c cs] eqn:Ec.
  - exfalso. simpl in El. rewrite Ec in El.
    assert (G : forall l : list nat, flat_map (fun i => map (cons i) []) l = []).
    { induction l as [|? ? IH]; simpl; auto. }
    rewrite G in El. discriminate.
  - exists NaN. split; [|reflexivity].
    apply in_map_iff. exists (i0 :: c). split; [apply Hrow|].
    simpl. apply in_flat_map. exists i0. split.
    + apply in_seq. lia.
    + rewrite Ec. left. reflexivity.
Qed.

Lemma nan_outputs_from_fit r v : nan_outputs r = true -> from_fit r v -> v = NaN.
Proof.
  unfold nan_outputs. intros Hr Hv.
  apply andb_true_iff in Hr as [Hr Hc]. apply andb_true_iff in Hr as [H0 H1].
  destruct Hv as [-> | [-> | [m ->]]].
  - apply isnan_true, H0.
  - apply isnan_true, H1.
  - unfold bcast_nth. generalize (if length (curve r) =? 1 then 0 else m). intros k.
    rewrite forallb_forall in Hc.
    destruct (nth_in_or_default k (curve r) NaN) as [Hin | ->]; [|reflexivity].
    apply isnan_true, Hc. exact Hin.
Qed.

Section NanRow.
Context `{Libraries}.
Hypothesis Hfooof : fooof_propagates_nan.

(** When the fit data of event [i0] are not-a-number, every cell [run_foof]
    returns for that event is not-a-number. *)
Lemma run_foof_nan_row x y i0 b s s' :
  (forall r, item y (i0 :: r) = NaN) ->
  shape y = [] \/ i0 < hd 0 (shape y) ->
  run_foof x y s = (Return b, s') ->
  forall k rest, item (field k b) (i0 :: rest) = NaN.
Proof.
  intros Hrow Hsh Hrun. rewrite run_foof_unfold in Hrun.
  assert (Hy : i0 < hd 0 (shape y)).
  { destruct Hsh as [Hnil | Hlt]; [|exact Hlt]. exfalso.
    unfold fit_batch, allocate in Hrun. rewrite Hnil in Hrun. discriminate. }
  destruct (fit_batch_weak _ _ _ _ _ _ _ Hrun) as (_ & Hsl & Hoff & Hrs).
  assert (G : forall a, cells_ok (FOOOF_fit x) (fun _ => y) y a ->
                        forall rest, item a (i0 :: rest) = NaN).
  { intros a Ha rest. destruct (Ha (i0 :: rest)) as [Hnan | (i & rest' & d & r & Eidx & Hd & Hfit & Hfrom)].
    - exact Hnan.
    - inversion Eidx; subst i rest'.
      assert (Hbad : empty_or_nan d = true).
      { destruct Hd as [-> | [sub ->]].
        - apply nan_everywhere_empty_or_nan. intros idx. apply Hrow.
        - eapply nan_row_empty_or_nan; eauto. }
      pose proof (Hfooof x d Hbad) as Hout. rewrite Hfit in Hout.
      eapply nan_outputs_from_fit; eauto. }
  intros k rest. destruct b as [[sl off] rs]. destruct k as [|[|k]]; simpl; auto.
Qed.

Lemma delta_mean_only_nan k fits d i0 :
  i0 = 0 \/ i0 = 1 ->
  Forall (fun b => forall k rest, item (field k b) (i0 :: rest) = NaN) fits ->
  delta_mean_only k fits = Return d -> nan_everywhere d.
Proof.
  intros Hi Hfits E. unfold delta_mean_only in E.
  destruct (omap _ fits) as [arrs|e] eqn:Earrs; simpl in E; [|discriminate].
  eapply stack_last_nan; [|exact E].
  eapply omap_Return_Forall; [|exact Earrs].
  intros x b Hin Ex. simpl in Ex.
  rewrite Forall_forall in Hfits. pose proof (Hfits x ltac:(apply list_elem_of_In; exact Hin)) as Hx.
  unfold index_int in Ex. destruct (shape (field k x)) as [|n sh]; [discriminate|].
  destruct (0 <? n); simpl in Ex; [|discriminate].
  destruct (1 <? n); simpl in Ex; [|discriminate].
  inversion Ex; subst b. intros idx. simpl.
  destruct Hi as [-> | ->]; rewrite Hx.
  - apply nsub_nan_l.
  - apply nsub_nan_r.
Qed.

End NanRow.

Lemma mapM_Return_Forall {A B} (f : A -> M B) (P : B -> Prop) l s bs s' :
  (forall a b s1 s2, In a l -> f a s1 = (Return b, s2) -> P b) ->
  mapM f l s = (Return bs, s') -> Forall P bs.
Proof.
  revert s bs s'. induction l as [|a l IH]; intros s bs s' Hf E; simpl in E.
  - apply ret_inv in E as [E _]. inversion E. constructor.
  - bind_returned E b s1 Hb. bind_returned E bs' s2 Hbs.
    apply ret_inv in E as [E _]. inversion E; subst. constructor.
    + eapply Hf; [left; reflexivity | exact Hb].
    + eapply IH; [|exact Hbs]. intros a' b' s3 s4 Hin. apply Hf. right. exact Hin.
Qed.

(** The cells of a unit, as the fitter receives it, are the cells of the
    array with the unit's index last. *)
Lemma unit_cell p k idx :
  item (transpose (subarray (transpose p) k)) idx = item p (idx ++ [k]).
Proof. simpl. rewrite rev_involutive. reflexivity. Qed.

Lemma unit_shape_hd p k n sh :
  shape p = n :: sh ->
  shape (transpose (subarray (transpose p) k)) = [] \/
  hd 0 (shape (transpose (subarray (transpose p) k))) = n.
Proof.
  intros Hs. simpl. rewrite Hs. simpl.
  destruct (rev sh) as [|a t] eqn:Er; simpl.
  - left. reflexivity.
  - right. rewrite rev_app_distr. reflexivity.
Qed.

(** *** What a run writes into the result dictionary *)

Definition result_keys : list string := stat_keys ++ delta_keys.

(** Between two states, every statistic and delta key is untouched or holds
    an array of not-a-number. *)
Definition nan_or_kept (s s' : State) : Prop :=
  forall key, In key result_keys ->
    res s' !! key = res s !! key \/
    exists a, res s' !! key = Some (RArr a) /\ nan_everywhere a.

Definition writes_nan {A} (m : M A) : Prop :=
  forall s o s', m s = (o, s') -> nan_or_kept s s'.

Lemma nan_or_kept_refl s s' : res s' = res s -> nan_or_kept s s'.
Proof. intros E key _. left. rewrite E. reflexivity. Qed.

Lemma nan_or_kept_trans s1 s2 s3 :
  nan_or_kept s1 s2 -> nan_or_kept s2 s3 -> nan_or_kept s1 s3.
Proof.
  intros H12 H23 key Hk. destruct (H23 key Hk) as [E | Hnan]; [|right; exact Hnan].
  rewrite E. apply H12. exact Hk.
Qed.

Lemma writes_nan_effects {A} Q (m : M A) : effects Q m -> writes_nan m.
Proof. intros Hm s o s' E. apply nan_or_kept_refl. apply (Hm _ _ _ E). Qed.

Lemma writes_nan_ret {A} (a : A) : writes_nan (ret a).
Proof. apply (writes_nan_effects (fun _ => True)), effects_ret. Qed.

Lemma writes_nan_lift {A} (o : outcome A) : writes_nan (lift o).
Proof. apply (writes_nan_effects (fun _ => True)), effects_lift. Qed.

Lemma writes_nan_print line : writes_nan (print line).
Proof. intros s o s' E. inversion E; subst. apply nan_or_kept_refl. reflexivity. Qed.

(** A bind whose first part establishes [Q] of its value. *)
Lemma writes_nan_bind_post {A B} (Q : A -> Prop) (m : M A) (k : A -> M B) :
  (forall s a s', m s = (Return a, s') -> Q a) ->
  writes_nan m -> (forall a, Q a -> writes_nan (k a)) -> writes_nan (bind m k).
Proof.
  intros HQ Hm Hk s o s' E.
  apply bind_inv in E as [(e & Em & ->) | (a & s1 & Em & Ek)].
  - exact (Hm _ _ _ Em).
  - eapply nan_or_kept_trans; [exact (Hm _ _ _ Em)|].
    exact (Hk a (HQ _ _ _ Em) _ _ _ Ek).
Qed.

Lemma writes_nan_bind {A B} (m : M A) (k : A -> M B) :
  writes_nan m -> (forall a, writes_nan (k a)) -> writes_nan (bind m k).
Proof.
  intros Hm Hk. apply (writes_nan_bind_post (fun _ => True)); auto.
Qed.

Lemma writes_nan_store_array key a : nan_everywhere a -> writes_nan (store key (RArr a)).
Proof.
  intros Ha s o s' E. inversion E; subst. intros key' _. simpl.
  destruct (decide (key = key')) as [->|Hne].
  - right. exists a. split; [apply lookup_insert_eq | exact Ha].
  - left. apply lookup_insert_ne. exact Hne.
Qed.

Lemma writes_nan_store_other key v : ~ In key result_keys -> writes_nan (store key v).
Proof.
  intros Hk s o s' E. inversion E; subst. intros key' Hk'. simpl.
  left. apply lookup_insert_ne. intros ->. contradiction.
Qed.

Lemma writes_nan_store_denormalized key sw a i j :
  nan_everywhere a -> writes_nan (store_denormalized key sw a i j).
Proof.
  intros Ha. unfold store_denormalized.
  apply (writes_nan_bind_post nan_everywhere).
  - intros s a' s' E. apply lift_inv in E as [E _]. eapply denormalize_nan; eauto.
  - apply writes_nan_lift.
  - intros a'. apply writes_nan_store_array.
Qed.

Lemma prepare_effects `{Libraries} self sd recalled q :
  effects (fun _ => True) (prepare self sd recalled q).
Proof.
  unfold prepare. destruct (negb (use_fooof self)); [apply effects_ret|].
  apply effects_bind.
  - destruct (negb (fooof_fit_each_event self)); [apply effects_lift | apply effects_ret].
  - intros p. apply effects_ret.
Qed.

Lemma robust_reg_effects `{Libraries} x y : effects (fun _ => True) (robust_reg x y).
Proof. rewrite robust_reg_unfold. apply fit_batch_effects; auto. Qed.

Lemma run_foof_effects `{Libraries} x y : effects (fun _ => True) (run_foof x y).
Proof. rewrite run_foof_unfold. apply fit_batch_effects; auto. Qed.

Lemma fitter_effects `{Libraries} (f : ndarray -> ndarray -> M fit_result) x y :
  f = robust_reg \/ f = run_foof -> effects (fun _ => True) (f x y).
Proof.
  intros [-> | ->]; [apply robust_reg_effects | apply run_foof_effects].
Qed.

Section DegenerateRun.
Context `{Libraries}.
Hypothesis Hfooof : fooof_propagates_nan.
Variable recalled : list bool.
Hypothesis Hdegenerate : all_true recalled = true \/ all_false recalled = true.

Definition nan_deltas (d : deltas) : Prop :=
  nan_everywhere (fst (fst d)) /\ nan_everywhere (snd (fst d)) /\ nan_everywhere (snd d).

Lemma per_event_contrast_deltas sw fits s d s' :
  per_event_contrast sw recalled fits s = (Return d, s') -> nan_deltas d.
Proof.
  unfold per_event_contrast. intros E.
  bind_returned E dr s1 H1. lift_returned H1.
  bind_returned E ds s2 H2. lift_returned H2.
  bind_returned E do s3 H3. lift_returned H3.
  bind_returned E t1 s4 H4. bind_returned E t2 s5 H5. bind_returned E t3 s6 H6.
  bind_returned E u1 s7 H7. bind_returned E u2 s8 H8. bind_returned E u3 s9 H9.
  bind_returned E u4 s10 H10. bind_returned E u5 s11 H11. bind_returned E u6 s12 H12.
  apply ret_inv in E as [E _]. inversion E; subst d.
  repeat split; simpl; eapply delta_per_event_nan; eauto.
Qed.

Lemma per_event_contrast_writes_nan sw fits :
  writes_nan (per_event_contrast sw recalled fits).
Proof.
  unfold per_event_contrast.
  apply writes_nan_bind; [apply writes_nan_lift|]. intros dr.
  apply writes_nan_bind; [apply writes_nan_lift|]. intros ds.
  apply writes_nan_bind; [apply writes_nan_lift|]. intros do.
  apply (writes_nan_bind_post (fun t => nan_everywhere (fst t) /\ nan_everywhere (snd t)));
    [|apply writes_nan_lift|].
  { intros s [ts ps] s' E. apply lift_inv in E as [E _].
    eapply ttest_per_event_nan; eauto. }
  intros resid [Hr1 Hr2].
  apply (writes_nan_bind_post (fun t => nan_everywhere (fst t) /\ nan_everywhere (snd t)));
    [|apply writes_nan_lift|].
  { intros s [ts ps] s' E. apply lift_inv in E as [E _].
    eapply ttest_per_event_nan; eauto. }
  intros slopes [Hs1 Hs2].
  apply (writes_nan_bind_post (fun t => nan_everywhere (fst t) /\ nan_everywhere (snd t)));
    [|apply writes_nan_lift|].
  { intros s [ts ps] s' E. apply lift_inv in E as [E _].
    eapply ttest_per_event_nan; eauto. }
  intros offsets [Ho1 Ho2].
  repeat (apply writes_nan_bind;
          [apply writes_nan_store_denormalized; assumption | intros _]).
  apply writes_nan_ret.
Qed.

Lemma mean_only_contrast_deltas fits i0 s d s' :
  i0 = 0 \/ i0 = 1 ->
  Forall (fun b => forall k rest, item (field k b) (i0 :: rest) = NaN) fits ->
  mean_only_contrast fits s = (Return d, s') -> nan_deltas d.
Proof.
  unfold mean_only_contrast. intros Hi Hfits E.
  bind_returned E dr s1 H1. lift_returned H1.
  bind_returned E ds s2 H2. lift_returned H2.
  bind_returned E do s3 H3. lift_returned H3.
  apply ret_inv in E as [E _]. inversion E; subst d.
  repeat split; simpl; eapply delta_mean_only_nan; eauto.
Qed.

Lemma mean_only_contrast_writes_nan fits : writes_nan (mean_only_contrast fits).
Proof.
  unfold mean_only_contrast.
  repeat (apply writes_nan_bind; [apply writes_nan_lift | intros ?]).
  apply writes_nan_ret.
Qed.

(** In the mean-only mode the spectra handed on have a not-a-number row:
    the mean of the condition without events. *)
Lemma prepare_mean_only self sd q s setup s' :
  use_fooof self = true -> fooof_fit_each_event self = false ->
  prepare self sd recalled q s = (Return setup, s') ->
  fst (fst setup) = run_foof /\
  exists i0 sh, (i0 = 0 \/ i0 = 1) /\
                (forall r, item (snd setup) (i0 :: r) = NaN) /\
                shape (snd setup) = 2 :: sh.
Proof.
  intros Hu He. unfold prepare. rewrite Hu, He. simpl. intros E.
  bind_returned E p' s1 Hp. apply ret_inv in E as [E _]. inversion E; subst setup.
  simpl. split; [reflexivity|]. lift_returned Hp.
  set (p1 := if log_power self then exp10 (data sd) else q) in *.
  unfold condition_means in Hp.
  destruct (mask_index p1 recalled) as [ra|?] eqn:Ea; simpl in Hp; [|discriminate].
  destruct (mask_index p1 (map negb recalled)) as [rb|?] eqn:Eb; simpl in Hp; [|discriminate].
  destruct (shape_eqb _ _ && _); [|discriminate].
  inversion Hp; subst p'. simpl.
  destruct Hdegenerate as [Ht | Hf].
  - exists 1, (tail (shape ra)). split; [right; reflexivity|]. split; [|reflexivity].
    intros r. simpl. unfold mean_list.
    rewrite (mask_index_all_false _ _ _ r (all_true_negb _ Ht) Eb). reflexivity.
  - exists 0, (tail (shape ra)). split; [left; reflexivity|]. split; [|reflexivity].
    intros r. simpl. unfold mean_list.
    rewrite (mask_index_all_false _ _ _ r Hf Ea). reflexivity.
Qed.

Lemma mean_only_fits_nan_row x p i0 sh units fits s s' :
  (i0 = 0 \/ i0 = 1) ->
  (forall r, item p (i0 :: r) = NaN) -> shape p = 2 :: sh ->
  iterate (transpose p) = Return units ->
  mapM (fun y => run_foof x (transpose y)) units s = (Return fits, s') ->
  Forall (fun b => forall k rest, item (field k b) (i0 :: rest) = NaN) fits.
Proof.
  intros Hi Hrow Hs Hunits Hfits.
  eapply mapM_Return_Forall; [|exact Hfits].
  intros u b s1 s2 Hin Hrun. simpl in Hrun.
  apply iterate_Return in Hunits as (n & sh' & _ & ->).
  apply in_map_iff in Hin as (k & <- & _).
  eapply (run_foof_nan_row Hfooof); [| |exact Hrun].
  - intros r. rewrite unit_cell. simpl. apply Hrow.
  - destruct (unit_shape_hd p k 2 sh Hs) as [Hnil | Hhd]; [left; exact Hnil|].
    right. rewrite Hhd. destruct Hi; lia.
Qed.

End DegenerateRun.

Lemma prepare_fitter `{Libraries} self sd recalled q s setup s' :
  prepare self sd recalled q s = (Return setup, s') ->
  fst (fst setup) = robust_reg \/ fst (fst setup) = run_foof.
Proof.
  unfold prepare. destruct (negb (use_fooof self)); intros E.
  - apply ret_inv in E as [E _]. inversion E. left. reflexivity.
  - bind_returned E p' s1 Hp. apply ret_inv in E as [E _]. inversion E.
    right. reflexivity.
Qed.

Lemma not_in_result_keys key :
  key = "p_recall"%string \/ key = "recalled"%string -> ~ In key result_keys.
Proof.
  intros [-> | ->] Hin; simpl in Hin;
    repeat (destruct Hin as [Hin | Hin]; [discriminate|]); exact Hin.
Qed.

(** C8.  Let the recall labels be all true or all false, and let the FOOOF
    library propagate not-a-number (it is the only external code the deltas
    of the mean-only mode depend on).  Then, however a run of [analysis]
    ends -- with an exception or normally -- every t-statistic, p-value
    and delta array it has stored consists of not-a-number only: no key
    holds a number computed from a sample without events. *)
Theorem degenerate_labels_store_nan `{Libraries} self g recalled s o s' :
  fooof_propagates_nan ->
  recall_filter_func self = Some g ->
  g (subject_data self) = Return recalled ->
  all_true recalled = true \/ all_false recalled = true ->
  analysis self s = (o, s') ->
  forall key, In key (stat_keys ++ delta_keys) ->
    res s' !! key = res s !! key \/
    exists a, res s' !! key = Some (RArr a) /\ all_nan a.
Proof.
  intros Hfooof Hg Hgr Hdeg Hrun.
  assert (W : writes_nan (analysis self)).
  { clear Hrun. unfold analysis. rewrite Hg, Hgr.
    apply writes_nan_bind;
      [destruct (subject_data self); [apply writes_nan_ret | apply writes_nan_print]|].
    intros _.
    apply writes_nan_bind; [apply writes_nan_ret|]. intros _.
    apply (writes_nan_bind_post (fun m => m = recalled)); [|apply writes_nan_lift|].
    { intros s1 m s2 E. apply lift_inv in E as [E _]. congruence. }
    intros m ->.
    apply writes_nan_bind; [apply writes_nan_lift|]. intros sd.
    apply writes_nan_bind; [apply writes_nan_lift|]. intros normalized.
    apply (writes_nan_bind_post
             (fun setup =>
                (fst (fst setup) = robust_reg \/ fst (fst setup) = run_foof) /\
                (use_fooof self = true -> fooof_fit_each_event self = false ->
                 fst (fst setup) = run_foof /\
                 exists i0 sh, (i0 = 0 \/ i0 = 1) /\
                               (forall r, item (snd setup) (i0 :: r) = NaN) /\
                               shape (snd setup) = 2 :: sh)));
      [|apply (writes_nan_effects (fun _ => True)), prepare_effects|].
    { intros s1 setup s2 E. split; [eapply prepare_fitter; eauto|].
      intros Hu He. eapply prepare_mean_only; eauto. }
    intros setup [Hfitter Hmean]. cbv zeta.
    apply (writes_nan_bind_post
             (fun units => iterate (transpose (snd setup)) = Return units));
      [|apply writes_nan_lift|].
    { intros s1 units s2 E. apply lift_inv in E as [E _]. exact E. }
    intros units Hunits.
    apply (writes_nan_bind_post
             (fun fits =>
                use_fooof self = true -> fooof_fit_each_event self = false ->
                exists i0, (i0 = 0 \/ i0 = 1) /\
                  Forall (fun b => forall k rest, item (field k b) (i0 :: rest) = NaN) fits)).
    { intros s1 fits s2 E Hu He.
      destruct (Hmean Hu He) as (Hf & i0 & sh & Hi & Hrow & Hsh).
      exists i0. split; [exact Hi|]. rewrite Hf in E.
      eapply mean_only_fits_nan_row; eauto. }
    { apply (writes_nan_effects (fun _ => True)). apply effects_mapM.
      intros y _. apply fitter_effects. exact Hfitter. }
    intros fits Hfits.
    apply (writes_nan_bind_post nan_deltas).
    { intros s1 d s2 E.
      destruct (use_fooof self) eqn:Hu, (fooof_fit_each_event self) eqn:He; simpl in E.
      - eapply per_event_contrast_deltas; eauto.
      - destruct (Hfits eq_refl eq_refl) as (i0 & Hi & Hrows).
        eapply mean_only_contrast_deltas; eauto.
      - eapply per_event_contrast_deltas; eauto.
      - eapply per_event_contrast_deltas; eauto. }
    { destruct (use_fooof self), (fooof_fit_each_event self); simpl;
        try (apply per_event_contrast_writes_nan; assumption).
      apply mean_only_contrast_writes_nan. }
    intros d (Hd1 & Hd2 & Hd3).
    apply writes_nan_bind; [apply writes_nan_store_denormalized; assumption|]. intros _.
    apply writes_nan_bind; [apply writes_nan_store_denormalized; assumption|]. intros _.
    apply writes_nan_bind; [apply writes_nan_store_denormalized; assumption|]. intros _.
    apply writes_nan_bind; [apply writes_nan_store_other, not_in_result_keys; auto|].
    intros _. apply writes_nan_store_other, not_in_result_keys; auto. }
  intros key Hk. destruct (W _ _ _ Hrun key Hk) as [Hkept | (a & Ha & Hnan)].
  - left. exact Hkept.
  - right. exists a. split; [exact Ha|]. apply nan_everywhere_all_nan. exact Hnan.
Qed.

(** ** Missing and misaligned inputs *)

Lemma normalize_Return p :
  exists q sw, normalize p = Return (q, sw) /\ hd 0 (shape q) = hd 0 (shape p).
Proof.
  unfold normalize.
  destruct ((ndim p =? 4) && (nth 3 (shape p) 0 <? nth 2 (shape p) 0)) eqn:Hsw.
  - apply andb_true_iff in Hsw as [H4 _]. apply Nat.eqb_eq in H4. unfold ndim in H4.
    destruct (shape p) as [|e [|f [|c [|t [|? ?]]]]] eqn:Hs; try discriminate.
    rewrite swapaxes_Return by (unfold ndim; rewrite Hs; simpl; lia).
    simpl. eexists _, _. split; [reflexivity|]. simpl. rewrite Hs. reflexivity.
  - exists p, false. split; reflexivity.
Qed.

Lemma mask_index_misaligned a m :
  shape a = [] \/ hd 0 (shape a) <> length m -> mask_index a m = Raise IndexError.
Proof.
  unfold mask_index. intros [-> | Hne]; [reflexivity|].
  destruct (shape a) as [|n sh]; [reflexivity|]. simpl in Hne.
  destruct (length m =? n) eqn:E; [|reflexivity].
  apply Nat.eqb_eq in E. congruence.
Qed.

Lemma delta_per_event_misaligned `{Libraries} k recalled fits :
  Forall (fun b : fit_result =>
            shape (field k b) = [] \/ hd 0 (shape (field k b)) <> length recalled) fits ->
  exists e, delta_per_event k recalled fits = Raise e.
Proof.
  intros Hfits. unfold delta_per_event. destruct Hfits as [|b fits Hb _].
  - exists ValueError. reflexivity.
  - exists IndexError. simpl. rewrite (mask_index_misaligned _ _ Hb). reflexivity.
Qed.

Lemma fitter_resid_shape `{Libraries} (f : ndarray -> ndarray -> M fit_result) x y s b s' :
  f = robust_reg \/ f = run_foof ->
  f x y s = (Return b, s') -> shape (field 2 b) = shape y.
Proof.
  intros [-> | ->]; [rewrite robust_reg_unfold | rewrite run_foof_unfold]; intros E;
    apply fit_batch_weak in E as [Hs _]; exact Hs.
Qed.

(** The residual array of every unit has the events of the spectra on its
    first axis, or no axis at all. *)
Lemma unit_fits_resid_shape `{Libraries} f x p units fits s s' :
  f = robust_reg \/ f = run_foof ->
  iterate (transpose p) = Return units ->
  mapM (fun y => f x (transpose y)) units s = (Return fits, s') ->
  Forall (fun b => shape (field 2 b) = [] \/ hd 0 (shape (field 2 b)) = hd 0 (shape p)) fits.
Proof.
  intros Hf Hunits Hfits.
  eapply mapM_Return_Forall; [|exact Hfits].
  intros u b s1 s2 Hin Hrun. simpl in Hrun.
  rewrite (fitter_resid_shape f x _ _ _ _ Hf Hrun).
  apply iterate_Return in Hunits as (n & sh' & Hs & ->).
  apply in_map_iff in Hin as (k & <- & _).
  destruct (shape p) as [|e sh] eqn:Hp.
  - rewrite shape_transpose, Hp in Hs. discriminate.
  - apply (unit_shape_hd p k e sh Hp).
Qed.

Definition message_data (self : Self) : string :=
  subject self +:+ ": compute or load data first with .load_data()!".

Definition message_filter (self : Self) : string :=
  subject self +:+ " SME: please provide a .recall_filter_func function.".

(** C9, amended.  When [subject_data] or [recall_filter_func] is missing, a
    message is printed and [analysis] raises before any fit, leaving the
    results untouched.  When the recall labels do not have one entry per
    event, nothing checks it before the fits: [analysis] raises as well and
    leaves the results untouched, and in the mean-only mode it does so
    before any fit; in the other modes the mismatch only raises in the
    contrast, after the fits of all units. *)
Theorem missing_or_misaligned_inputs_raise `{Libraries} self s :
  (subject_data self = None ->
   exists e s', analysis self s = (Raise e, s') /\
                res s' = res s /\ fit_log s' = fit_log s /\
                In (message_data self) (stdout s')) /\
  (recall_filter_func self = None ->
   exists s', analysis self s = (Raise TypeError, s') /\
              res s' = res s /\ fit_log s' = fit_log s /\
              In (message_filter self) (stdout s')) /\
  (forall sd g recalled,
     subject_data self = Some sd -> recall_filter_func self = Some g ->
     g (Some sd) = Return recalled ->
     length recalled <> hd 0 (shape (data sd)) ->
     exists e s', analysis self s = (Raise e, s') /\ res s' = res s /\
                  (use_fooof self = true -> fooof_fit_each_event self = false ->
                   fit_log s' = fit_log s)).
Proof.
  split; [|split].
  - intros Hsd. unfold analysis, message_data. rewrite Hsd.
    unfold bind, print, lift, ret.
    destruct (recall_filter_func self) as [g|]; [destruct (g None) as [m|e]|];
      simpl; eexists _, _; (split; [reflexivity|]); simpl;
      repeat split; try reflexivity; rewrite ?in_app_iff; simpl; auto.
  - intros Hg. unfold analysis, message_filter. rewrite Hg.
    unfold bind, print, lift, ret.
    destruct (subject_data self); simpl; eexists; (split; [reflexivity|]); simpl;
      repeat split; try reflexivity; rewrite ?in_app_iff; simpl; auto.
  - intros sd g recalled Hsd Hg Hgr Hlen.
    destruct (analysis self s) as [o s'] eqn:Hrun.
    unfold analysis in Hrun. rewrite Hsd, Hg, Hgr in Hrun.
    rewrite (bind_Return _ _ s tt s) in Hrun by reflexivity.
    rewrite (bind_Return _ _ s tt s) in Hrun by reflexivity.
    rewrite (bind_Return _ _ s recalled s) in Hrun by reflexivity.
    rewrite (bind_Return _ _ s sd s) in Hrun by reflexivity.
    destruct (normalize_Return (data sd)) as (q & sw & Hnorm & Hq).
    rewrite (bind_Return _ _ s (q, sw) s) in Hrun by (rewrite Hnorm; reflexivity).
    cbv zeta in Hrun. simpl fst in Hrun. simpl snd in Hrun.
    assert (Hmask : forall p, hd 0 (shape p) = hd 0 (shape (data sd)) ->
                              mask_index p recalled = Raise IndexError).
    { intros p Hp. apply mask_index_misaligned. right. congruence. }
    apply bind_inv in Hrun as [(e & Hm & ->) | (setup & s1 & Hm & Hrun)].
    { (* the preparation raised *)
      destruct (prepare_effects self sd recalled q _ _ _ Hm) as (Hres & _ & l & Hlog & _).
      exists e, s'. split; [reflexivity|]. split; [exact Hres|].
      intros Hu He. unfold prepare in Hm. rewrite Hu, He in Hm. simpl in Hm.
      apply bind_inv in Hm as [(e' & Hm & _) | (p' & s2 & Hm & Hm')].
      - apply lift_inv in Hm as [_ ->]. reflexivity.
      - apply ret_inv in Hm' as [Hm' _]. discriminate. }
    destruct (prepare_effects self sd recalled q _ _ _ Hm) as (Hres1 & _).
    assert (Hmode : use_fooof self = false \/ fooof_fit_each_event self = true).
    { destruct (use_fooof self) eqn:Hu; [|left; reflexivity].
      destruct (fooof_fit_each_event self) eqn:He; [right; reflexivity|]. exfalso.
      unfold prepare in Hm. rewrite Hu, He in Hm. simpl in Hm.
      bind_returned Hm p' s2 Hp. lift_returned Hp. unfold condition_means in Hp.
      rewrite Hmask in Hp; [discriminate|].
      destruct (log_power self); [reflexivity | exact Hq]. }
    assert (Hsetup : (fst (fst setup) = robust_reg \/ fst (fst setup) = run_foof) /\
                     hd 0 (shape (snd setup)) = hd 0 (shape (data sd))).
    { split; [eapply prepare_fitter; eauto|].
      unfold prepare in Hm. destruct (use_fooof self) eqn:Hu; simpl in Hm.
      - destruct Hmode as [? | He]; [discriminate|]. rewrite He in Hm. simpl in Hm.
        bind_returned Hm p' s2 Hp. apply ret_inv in Hp as [Hp _]. inversion Hp; subst p'.
        apply ret_inv in Hm as [Hm _]. inversion Hm; subst setup. simpl.
        destruct (log_power self); [reflexivity | exact Hq].
      - apply ret_inv in Hm as [Hm _]. inversion Hm; subst setup. exact Hq. }
    destruct Hsetup as [Hfitter Hhd].
    assert (Hnot_mean : use_fooof self = true -> fooof_fit_each_event self = false ->
                        fit_log s' = fit_log s).
    { intros Hu He. destruct Hmode; congruence. }
    apply bind_inv in Hrun as [(e & Hm2 & ->) | (units & s2 & Hm2 & Hrun)].
    { apply lift_inv in Hm2 as [_ ->]. eauto. }
    lift_returned Hm2.
    apply bind_inv in Hrun as [(e & Hm3 & ->) | (fits & s3 & Hm3 & Hrun)].
    { exists e, s'. split; [reflexivity|]. split; [|exact Hnot_mean].
      assert (Heff : effects (fun _ => True)
                       (mapM (fun y => fst (fst setup) (snd (fst setup)) (transpose y)) units)).
      { apply effects_mapM. intros y _. apply fitter_effects. exact Hfitter. }
      destruct (Heff _ _ _ Hm3) as (Hres3 & _). congruence. }
    assert (Hres3 : res s3 = res s).
    { assert (Heff : effects (fun _ => True)
                       (mapM (fun y => fst (fst setup) (snd (fst setup)) (transpose y)) units)).
      { apply effects_mapM. intros y _. apply fitter_effects. exact Hfitter. }
      destruct (Heff _ _ _ Hm3) as (Hres3 & _). congruence. }
    pose proof (unit_fits_resid_shape _ _ _ _ _ _ _ Hfitter Hm2 Hm3) as Hshapes.
    destruct (delta_per_event_misaligned 2 recalled fits) as [e He].
    { eapply Forall_impl; [exact Hshapes|]. intros b [Hb | Hb]; [left; exact Hb|].
      right. rewrite Hb, Hhd. congruence. }
    assert (Hbranch : negb (use_fooof self)
                      || use_fooof self && fooof_fit_each_event self = true).
    { destruct Hmode as [-> | ->]; [reflexivity|]. destruct (use_fooof self); reflexivity. }
    rewrite Hbranch in Hrun. unfold per_event_contrast in Hrun.
    rewrite (bind_Raise _ _ s3 e s3) in Hrun.
    + inversion Hrun; subst. eauto.
    + apply bind_Raise. unfold lift. rewrite He. reflexivity.
Qed.

(** ** The mean-only mode on a three-dimensional power array *)

Lemma mapM_seq_progress {B} (f : ndarray -> M B) (g : nat -> ndarray)
    (R : nat -> B -> Prop) (lg : nat -> list ndarray) n s :
  (forall c s, c < n -> exists b, f (g c) s = (Return b, logged s (lg c)) /\ R c b) ->
  exists bs, mapM f (map g (seq 0 n)) s
             = (Return bs, logged s (flat_map lg (seq 0 n))) /\
             length bs = n /\ forall c d, c < n -> R c (nth c bs d).
Proof.
  intros Hstep.
  assert (G : forall m a s, a + m <= n ->
            exists bs, mapM f (map g (seq a m)) s
                       = (Return bs, logged s (flat_map lg (seq a m))) /\
                       length bs = m /\ forall c d, c < m -> R (a + c) (nth c bs d)).
  { induction m as [|m IH]; intros a s0 Ha; simpl.
    - exists []. rewrite logged_nil. repeat split. intros c d Hc. lia.
    - destruct (Hstep a s0 ltac:(lia)) as (b & Hb & HR).
      destruct (IH (S a) (logged s0 (lg a)) ltac:(lia)) as (bs & Hbs & Hlen & Hnth).
      exists (b :: bs). split; [|split].
      + rewrite (bind_Return _ _ _ _ _ Hb), (bind_Return _ _ _ _ _ Hbs).
        unfold ret. rewrite logged_logged. reflexivity.
      + simpl. rewrite Hlen. reflexivity.
      + intros [|c] d Hc; simpl.
        * rewrite Nat.add_0_r. exact HR.
        * replace (a + S c) with (S a + c) by lia. apply Hnth. lia. }
  destruct (G n 0 s ltac:(lia)) as (bs & Hbs & Hlen & Hnth).
  exists bs. repeat split; auto.
Qed.

Lemma idx_eqb_refl a : idx_eqb a a = true.
Proof. apply idx_eqb_eq. reflexivity. Qed.

Lemma map_nth_seq {A B} (h : A -> B) (l : list A) d :
  map (fun k => h (nth k l d)) (seq 0 (length l)) = map h l.
Proof.
  induction l as [|a l IH]; simpl; [reflexivity|].
  f_equal. rewrite <- seq_shift, map_map. exact IH.
Qed.

(** The two condition means of an array with [E] events. *)
Lemma condition_means_Return p recalled E sh :
  shape p = E :: sh -> length recalled = E ->
  exists pm, condition_means p recalled = Return pm /\
             shape pm = 2 :: sh /\
             (forall r, item pm (0 :: r)
                        = mean_list (map (fun e => item p (e :: r))
                                         (true_positions 0 recalled))) /\
             (forall r, item pm (1 :: r)
                        = mean_list (map (fun e => item p (e :: r))
                                         (true_positions 0 (map negb recalled)))).
Proof.
  intros Hs Hlen. unfold condition_means, mask_index. rewrite Hs, length_map, Hlen.
  rewrite Nat.eqb_refl. simpl. unfold shape_eqb. rewrite !idx_eqb_refl. simpl.
  eexists. split; [reflexivity|]. split; [reflexivity|].
  split; intros r; simpl; unfold lane; simpl; f_equal;
    apply (map_nth_seq (fun e => item p (e :: r))).
Qed.

(** The unit [c] of an array as the fitter gets it: [y.T] for the [c]-th
    [y] of [p.T]. *)
Definition unit_of (p : ndarray) (c : nat) : ndarray :=
  transpose (subarray (transpose p) c).

(** The spectrum of condition [i] at electrode [c]. *)
Lemma condition_spectrum_cell pm c i m :
  item (subarray (unit_of pm c) i) [m] = item pm [i; m; c].
Proof. reflexivity. Qed.

Lemma last_snoc (idx : list nat) c d : List.last (idx ++ [c]) d = c.
Proof. apply last_last. Qed.

Lemma delta_mean_only_Return k fits n sh :
  fits <> [] ->
  Forall (fun b => shape (field k b) = n :: sh) fits -> 1 < n ->
  exists d, delta_mean_only k fits = Return d /\
            shape d = sh ++ [length fits] /\
            forall c idx dflt, c < length fits ->
              item d (idx ++ [c])
              = nsub (item (field k (nth c fits dflt)) (0 :: idx))
                     (item (field k (nth c fits dflt)) (1 :: idx)).
Proof.
  intros Hne Hshapes Hn.
  set (f' := fun b : fit_result =>
               arr_sub (subarray (field k b) 0) (subarray (field k b) 1)).
  assert (Homap : omap (fun x => obind (index_int (field k x) 0) (fun a =>
                                 obind (index_int (field k x) 1) (fun b =>
                                 Return (arr_sub a b)))) fits = Return (map f' fits)).
  { clear Hne. induction Hshapes as [|b fits Hb Hrest IH]; [reflexivity|].
    simpl. unfold index_int at 1 2. rewrite Hb.
    assert (H0 : (0 <? n) = true) by (apply Nat.ltb_lt; lia).
    assert (H1 : (1 <? n) = true) by (apply Nat.ltb_lt; lia).
    rewrite H0, H1. simpl. rewrite IH. reflexivity. }
  unfold delta_mean_only. rewrite Homap. simpl.
  destruct fits as [|b0 fits]; [contradiction|].
  change (map f' (b0 :: fits)) with (f' b0 :: map f' fits). unfold stack_last.
  assert (Hall : forallb (fun a => shape_eqb (shape a) (shape (f' b0)))
                   (f' b0 :: map f' fits) = true).
  { apply forallb_forall. intros a Ha.
    assert (Hin : exists b, In b (b0 :: fits) /\ a = f' b).
    { destruct Ha as [<- | Ha]; [exists b0; split; [left|]; reflexivity|].
      apply in_map_iff in Ha as (b & <- & Hb). exists b. split; [right; exact Hb | reflexivity]. }
    destruct Hin as (b & Hb & ->). unfold f'. simpl.
    rewrite Forall_forall in Hshapes.
    rewrite (Hshapes b ltac:(apply list_elem_of_In; exact Hb)).
    rewrite (Hshapes b0 ltac:(apply list_elem_of_In; left; reflexivity)).
    simpl. apply idx_eqb_refl. }
  rewrite Hall. eexists. split; [reflexivity|]. simpl.
  rewrite Forall_forall in Hshapes.
  rewrite (Hshapes b0 ltac:(apply list_elem_of_In; left; reflexivity)). simpl.
  rewrite length_map. split; [reflexivity|].
  intros c idx dflt Hc. rewrite last_snoc, removelast_last.
  destruct c as [|c]; [reflexivity|].
  rewrite (nth_indep (map f' fits) (f' b0) (f' dflt))
    by (rewrite length_map; simpl in Hc; lia).
  rewrite map_nth. reflexivity.
Qed.

Section MeanOnly3D.
Context `{Libraries}.
Variables (self : Self) (sd : SubjectData) (g : option SubjectData -> outcome (list bool)).
Variables (recalled : list bool) (E F C : nat) (pm : ndarray) (r : nat -> nat -> FitOut).
Hypothesis Hsd : subject_data self = Some sd.
Hypothesis Hg : recall_filter_func self = Some g.
Hypothesis Hgr : g (Some sd) = Return recalled.
Hypothesis Hu : use_fooof self = true.
Hypothesis He : fooof_fit_each_event self = false.
Hypothesis Hshape : shape (data sd) = [E; F; C].
Hypothesis Hlen : length recalled = E.
Hypothesis HC : 0 < C.
Hypothesis Hpm :
  condition_means (if log_power self then exp10 (data sd) else data sd) recalled
  = Return pm.
Hypothesis Hfit : forall c i, c < C -> i < 2 ->
  FOOOF_fit (freqs_array (freqs self)) (subarray (unit_of pm c) i) = Return (r c i) /\
  length (curve (r c i)) = F.

Lemma mean_only_pm_shape : shape pm = [2; F; C].
Proof.
  destruct (condition_means_Return
              (if log_power self then exp10 (data sd) else data sd) recalled E [F; C])
    as (pm' & Hpm' & Hs & _).
  - destruct (log_power self); exact Hshape.
  - exact Hlen.
  - rewrite Hpm in Hpm'. inversion Hpm'; subst pm'. exact Hs.
Qed.

Lemma mean_only_unit_fit c s :
  c < C ->
  exists b, run_foof (freqs_array (freqs self)) (unit_of pm c) s
            = (Return b, logged s [subarray (unit_of pm c) 0; subarray (unit_of pm c) 1]) /\
            shapes2 2 F b /\ row_ok (r c) b 0 /\ row_ok (r c) b 1.
Proof.
  intros Hc. rewrite run_foof_unfold.
  destruct (fit_batch_2d (FOOOF_fit (freqs_array (freqs self))) (fun _ => unit_of pm c)
              (freqs_array (freqs self)) (unit_of pm c) 2 F (r c) s)
    as (b & Hrun & Hsh & Hrows).
  - unfold unit_of. simpl. rewrite mean_only_pm_shape. reflexivity.
  - intros i Hi. destruct (Hfit c i Hc Hi) as [Hr Hcv]. split; [exact Hr|].
    apply broadcastable_length. exact Hcv.
  - exists b. split; [exact Hrun|]. split; [exact Hsh|].
    split; apply Hrows; lia.
Qed.

(** The mean-only mode on a three-dimensional power array: two fits per
    electrode, on the mean spectrum of each condition; no statistic key is
    touched; and each delta is the fit of the recalled condition minus that
    of the other one. *)
Lemma mean_only_run_3d s :
  exists s' dr ds do,
    analysis self s = (Return tt, s') /\
    fit_log s' = fit_log s
                 ++ flat_map (fun c => [subarray (unit_of pm c) 0; subarray (unit_of pm c) 1])
                      (seq 0 C) /\
    Forall (fun key => res s' !! key = res s !! key) stat_keys /\
    res s' !! "delta_resid" = Some (RArr dr) /\
    res s' !! "delta_slopes" = Some (RArr ds) /\
    res s' !! "delta_offsets" = Some (RArr do) /\
    shape dr = [F; C] /\ shape ds = [C] /\ shape do = [C] /\
    forall c, c < C ->
      item ds [c] = nsub (param1 (r c 0)) (param1 (r c 1)) /\
      item do [c] = nsub (param0 (r c 0)) (param0 (r c 1)) /\
      forall m, m < F ->
        item dr [m; c] = nsub (nth m (curve (r c 0)) NaN) (nth m (curve (r c 1)) NaN).
Proof.
  pose proof mean_only_pm_shape as Hpms.
  (* the fits of all units *)
  destruct (mapM_seq_progress
              (fun y => run_foof (freqs_array (freqs self)) (transpose y))
              (subarray (transpose pm))
              (fun c b => shapes2 2 F b /\ row_ok (r c) b 0 /\ row_ok (r c) b 1)
              (fun c => [subarray (unit_of pm c) 0; subarray (unit_of pm c) 1])
              C s) as (fits & Hfits & Hlenfits & Hnth).
  { intros c s0 Hc. apply (mean_only_unit_fit c s0 Hc). }
  assert (Hne : fits <> []) by (intros ->; simpl in Hlenfits; lia).
  assert (Hshape_of : forall k sh, (forall b, shapes2 2 F b -> shape (field k b) = 2 :: sh) ->
                                   Forall (fun b => shape (field k b) = 2 :: sh) fits).
  { intros k sh Hk. apply Forall_forall. intros b Hb. apply Hk.
    apply list_elem_of_In, (In_nth _ _ b) in Hb as (c & Hc & <-).
    apply Hnth. lia. }
  destruct (delta_mean_only_Return 2 fits 2 [F] Hne) as (dr & Hdr & Hsdr & Hcdr);
    [apply Hshape_of; intros b (_ & _ & Hb); exact Hb | lia |].
  destruct (delta_mean_only_Return 0 fits 2 [] Hne) as (ds & Hds & Hsds & Hcds);
    [apply Hshape_of; intros b (Hb & _ & _); exact Hb | lia |].
  destruct (delta_mean_only_Return 1 fits 2 [] Hne) as (do & Hdo & Hsdo & Hcdo);
    [apply Hshape_of; intros b (_ & Hb & _); exact Hb | lia |].
  eexists _, dr, ds, do. split.
  { unfold analysis. rewrite Hsd, Hg, Hgr.
    rewrite (bind_Return _ _ s tt s) by reflexivity.
    rewrite (bind_Return _ _ s tt s) by reflexivity.
    rewrite (bind_Return _ _ s recalled s) by reflexivity.
    rewrite (bind_Return _ _ s sd s) by reflexivity.
    rewrite (bind_Return _ _ s (data sd, false) s)
      by (unfold normalize, ndim; rewrite Hshape; reflexivity).
    cbv zeta. simpl fst. simpl snd.
    rewrite (bind_Return _ _ s (run_foof, freqs_array (freqs self), pm) s).
    2:{ unfold prepare. rewrite Hu, He. simpl.
        rewrite (bind_Return _ _ s pm s) by (unfold lift; rewrite Hpm; reflexivity).
        reflexivity. }
    simpl fst. simpl snd.
    rewrite (bind_Return _ _ s (map (subarray (transpose pm)) (seq 0 C)) s)
      by (unfold iterate, lift; rewrite shape_transpose, Hpms; reflexivity).
    set (s1 := logged s _) in Hfits.
    rewrite (bind_Return _ _ _ _ _ Hfits).
    rewrite Hu, He. cbn [negb orb andb].
    rewrite (bind_Return _ _ s1 (dr, ds, do) s1).
    2:{ unfold mean_only_contrast, bind, lift, ret. rewrite Hdr, Hds, Hdo. reflexivity. }
    subst s1.
    unfold store_denormalized, denormalize, bind, lift, store. simpl. reflexivity. }
  simpl. rewrite Hsdr, Hsds, Hsdo, Hlenfits. simpl.
  split; [reflexivity|]. split.
  { repeat constructor; simplify_map_eq; reflexivity. }
  split; [simplify_map_eq; reflexivity|].
  split; [simplify_map_eq; reflexivity|].
  split; [simplify_map_eq; reflexivity|].
  split; [reflexivity|]. split; [reflexivity|]. split; [reflexivity|].
  intros c Hc.
  destruct (Hnth c (full_nan [], full_nan [], full_nan []) Hc) as (_ & Hr0 & Hr1).
  destruct Hr0 as (H01 & H00 & H0c). destruct Hr1 as (H11 & H10 & H1c).
  pose proof (Hcds c [] (full_nan [], full_nan [], full_nan []) ltac:(lia)) as Xs.
  pose proof (Hcdo c [] (full_nan [], full_nan [], full_nan []) ltac:(lia)) as Xo.
  simpl in Xs, Xo, H01, H11, H00, H10, H0c, H1c.
  split; [|split].
  - rewrite Xs, H01, H11. reflexivity.
  - rewrite Xo, H00, H10. reflexivity.
  - intros m Hm.
    pose proof (Hcdr c [m] (full_nan [], full_nan [], full_nan []) ltac:(lia)) as Xr.
    simpl in Xr. rewrite Xr, H0c, H1c.
    rewrite !(bcast_nth_lt _ F) by (try apply Hfit; lia). reflexivity.
Qed.

End MeanOnly3D.

(** The lemma at work: three events, two frequencies and two electrodes give
    four fits, two per electrode. *)
Example mean_only_run_3d_fits_twice_per_electrode :
  let self := example_self power_3d [true; false; true] true false false in
  exists s', @analysis level_libs self initial_state = (Return tt, s') /\
             length (fit_log s') = 4 /\
             stored_shape s' "delta_resid" = Some [2; 2] /\
             stored_shape s' "delta_slopes" = Some [2] /\
             stored_shape s' "ts_resid" = None.
Proof.
  cbv zeta.
  set (self := example_self power_3d [true; false; true] true false false).
  set (pm := match condition_means power_3d [true; false; true] with
             | Return a => a
             | Raise _ => full_nan []
             end).
  destruct (@mean_only_run_3d level_libs self {| data := power_3d |}
              (fun _ => Return [true; false; true]) [true; false; true] 3 2 2 pm
              (fun c i => level_fit 2 (subarray (unit_of pm c) i)))
    with (s := initial_state)
    as (s' & dr & ds & do & Hrun & Hlog & Hstat & Hdr & Hds & Hdo & Hsr & Hss & _);
    try reflexivity; try lia.
  - intros c i Hc Hi. split; [reflexivity|]. unfold level_fit. simpl.
    reflexivity.
  - exists s'. split; [exact Hrun|]. split; [rewrite Hlog; reflexivity|].
    unfold stored_shape. rewrite Hdr, Hds, Hsr, Hss.
    repeat split.
    apply Forall_inv in Hstat. rewrite Hstat. reflexivity.
Qed.

(** ** Which contrast branch runs *)

(** [key] holds [a], denormalised. *)
Definition holds_denormalized (s : State) (key : string) (sw : bool) (a : ndarray)
  (i j : nat) : Prop :=
  exists a', denormalize sw a i j = Return a' /\ res s !! key = Some (RArr a').

Lemma store_denormalized_Return key sw a i j s u s' :
  store_denormalized key sw a i j s = (Return u, s') ->
  exists a', denormalize sw a i j = Return a' /\
             s' = {| res := <[key := RArr a']> (res s); stdout := stdout s;
                     fit_log := fit_log s |}.
Proof.
  unfold store_denormalized. intros E.
  bind_returned E a' s1 Ha. lift_returned Ha.
  inversion E; subst. eauto.
Qed.

(** C7, amended.  With [use_fooof] and [fooof_fit_each_event] a run that
    returns has executed the per-event branch only: the fits are those of
    [run_foof] on every unit; the six statistic keys hold the stacked
    [ttest_ind] results on these fits; and the three delta keys hold the
    stacked [nanmean] differences of the same fits, which nothing has
    overwritten. *)
Theorem fit_each_event_runs_per_event_branch `{Libraries} self s s' :
  use_fooof self = true -> fooof_fit_each_event self = true ->
  analysis self s = (Return tt, s') ->
  exists g sd recalled q sw units s0 fits s1 d2 d0 d1 t2 t0 t1,
    recall_filter_func self = Some g /\
    g (subject_data self) = Return recalled /\
    subject_data self = Some sd /\
    normalize (data sd) = Return (q, sw) /\
    iterate (transpose (if log_power self then exp10 (data sd) else q)) = Return units /\
    mapM (fun y => run_foof (freqs_array (freqs self)) (transpose y)) units s0
    = (Return fits, s1) /\
    delta_per_event 2 recalled fits = Return d2 /\
    delta_per_event 0 recalled fits = Return d0 /\
    delta_per_event 1 recalled fits = Return d1 /\
    ttest_per_event 2 recalled fits = Return t2 /\
    ttest_per_event 0 recalled fits = Return t0 /\
    ttest_per_event 1 recalled fits = Return t1 /\
    holds_denormalized s' "ts_resid" sw (fst t2) 1 2 /\
    holds_denormalized s' "ps_resid" sw (snd t2) 1 2 /\
    holds_denormalized s' "ts_slopes" sw (fst t0) 0 1 /\
    holds_denormalized s' "ps_slopes" sw (snd t0) 0 1 /\
    holds_denormalized s' "ts_offsets" sw (fst t1) 0 1 /\
    holds_denormalized s' "ps_offsets" sw (snd t1) 0 1 /\
    holds_denormalized s' "delta_resid" sw d2 1 2 /\
    holds_denormalized s' "delta_slopes" sw d0 1 2 /\
    holds_denormalized s' "delta_offsets" sw d1 1 2.
Proof.
  intros Hu He Hrun. unfold analysis in Hrun.
  bind_returned Hrun u1 a1 H1. bind_returned Hrun u2 a2 H2.
  bind_returned Hrun recalled a3 H3. lift_returned H3.
  destruct (recall_filter_func self) as [g|] eqn:Hg; [|discriminate].
  bind_returned Hrun sd a4 H4.
  lift_returned H4. destruct (subject_data self) as [sd'|] eqn:Hsd; [|discriminate].
  inversion H4; subst sd'. clear H4.
  bind_returned Hrun normalized a5 H5. lift_returned H5. destruct normalized as [q sw].
  bind_returned Hrun setup a6 H6.
  unfold prepare in H6. rewrite Hu, He in H6. simpl in H6.
  bind_returned H6 p' a7 H7. apply ret_inv in H7 as [H7 ->]. inversion H7; subst p'.
  apply ret_inv in H6 as [H6 ->]. inversion H6; subst setup. clear H6 H7.
  cbv zeta in Hrun. simpl fst in Hrun. simpl snd in Hrun.
  bind_returned Hrun units a8 H8. lift_returned H8.
  bind_returned Hrun fits s1 H9.
  bind_returned Hrun d s2 H10.
  rewrite Hu, He in H10. simpl in H10. unfold per_event_contrast in H10.
  bind_returned H10 d2 b1 G1. lift_returned G1.
  bind_returned H10 d0 b2 G2. lift_returned G2.
  bind_returned H10 d1 b3 G3. lift_returned G3.
  bind_returned H10 t2 b4 G4. lift_returned G4.
  bind_returned H10 t0 b5 G5. lift_returned G5.
  bind_returned H10 t1 b6 G6. lift_returned G6.
  bind_returned H10 v1 c1 K1. apply store_denormalized_Return in K1 as (x1 & D1 & ->).
  bind_returned H10 v2 c2 K2. apply store_denormalized_Return in K2 as (x2 & D2 & ->).
  bind_returned H10 v3 c3 K3. apply store_denormalized_Return in K3 as (x3 & D3 & ->).
  bind_returned H10 v4 c4 K4. apply store_denormalized_Return in K4 as (x4 & D4 & ->).
  bind_returned H10 v5 c5 K5. apply store_denormalized_Return in K5 as (x5 & D5 & ->).
  bind_returned H10 v6 c6 K6. apply store_denormalized_Return in K6 as (x6 & D6 & ->).
  apply ret_inv in H10 as [H10 ->]. inversion H10; subst d. clear H10.
  simpl fst in Hrun. simpl snd in Hrun.
  bind_returned Hrun v7 c7 K7. apply store_denormalized_Return in K7 as (x7 & D7 & ->).
  bind_returned Hrun v8 c8 K8. apply store_denormalized_Return in K8 as (x8 & D8 & ->).
  bind_returned Hrun v9 c9 K9. apply store_denormalized_Return in K9 as (x9 & D9 & ->).
  bind_returned Hrun v10 c10 K10. inversion K10; subst. inversion Hrun; subst. clear K10 Hrun.
  eexists g, sd, recalled, q, sw, units, _, fits, s1, d2, d0, d1, t2, t0, t1.
  split; [reflexivity|]. split; [exact H3|].
  repeat (split; [solve [eassumption | reflexivity]|]).
  unfold holds_denormalized. simpl.
  repeat split; eexists; (split; [eassumption|]); simplify_map_eq; reflexivity.
Qed.

(** ** Runs on a swapped array *)

Lemma stack_last_ndim arrs d n :
  Forall (fun a => ndim a <= n) arrs -> stack_last arrs = Return d -> ndim d <= S n.
Proof.
  intros Hall E. unfold stack_last in E. destruct arrs as [|a0 arrs]; [discriminate|].
  destruct (forallb _ _); [|discriminate]. inversion E; subst d.
  inversion Hall; subst. unfold ndim in *. simpl. rewrite length_app. simpl. lia.
Qed.

Lemma mask_index_tail a m a' : mask_index a m = Return a' -> tail (shape a') = tail (shape a).
Proof.
  unfold mask_index. destruct (shape a) as [|n sh]; [discriminate|].
  destruct (length m =? n); [|discriminate]. intros E. inversion E. reflexivity.
Qed.

Lemma tail_ndim (sh : list nat) n : length sh <= S n -> length (tail sh) <= n.
Proof. destruct sh; simpl; lia. Qed.

Lemma field_flat k b : k < 2 -> flat_params b -> ndim (field k b) <= 2.
Proof.
  intros Hk [H0 H1]. destruct k as [|[|k]]; simpl; [exact H0 | exact H1 | lia].
Qed.

Lemma delta_per_event_flat k recalled fits d :
  k < 2 -> Forall flat_params fits ->
  delta_per_event k recalled fits = Return d -> ndim d <= 2.
Proof.
  intros Hk Hfits E. unfold delta_per_event in E.
  destruct (omap _ fits) as [arrs|e] eqn:Earrs; simpl in E; [|discriminate].
  eapply (stack_last_ndim arrs d 1); [|exact E].
  eapply omap_Return_Forall; [|exact Earrs].
  intros x b Hin Ex. simpl in Ex.
  destruct (mask_index (field k x) recalled) as [ra|?] eqn:Ea; simpl in Ex; [|discriminate].
  destruct (mask_index (field k x) (map negb recalled)) as [rb|?] eqn:Eb; simpl in Ex;
    [|discriminate].
  inversion Ex; subst b. unfold ndim. simpl. rewrite (mask_index_tail _ _ _ Ea).
  apply tail_ndim. apply (field_flat k x Hk).
  rewrite Forall_forall in Hfits. apply Hfits, list_elem_of_In, Hin.
Qed.

Lemma delta_mean_only_flat k fits d :
  k < 2 -> Forall flat_params fits ->
  delta_mean_only k fits = Return d -> ndim d <= 2.
Proof.
  intros Hk Hfits E. unfold delta_mean_only in E.
  destruct (omap _ fits) as [arrs|e] eqn:Earrs; simpl in E; [|discriminate].
  eapply (stack_last_ndim arrs d 1); [|exact E].
  eapply omap_Return_Forall; [|exact Earrs].
  intros x b Hin Ex. simpl in Ex. unfold index_int in Ex.
  destruct (shape (field k x)) as [|n sh] eqn:Hs; [discriminate|].
  destruct (0 <? n); simpl in Ex; [|discriminate].
  destruct (1 <? n); simpl in Ex; [|discriminate].
  inversion Ex; subst b. unfold ndim. simpl. rewrite Hs. simpl.
  rewrite Forall_forall in Hfits.
  pose proof (field_flat k x Hk (Hfits x ltac:(apply list_elem_of_In; exact Hin))) as Hx.
  unfold ndim in Hx. rewrite Hs in Hx. simpl in Hx. lia.
Qed.

Lemma fitter_flat_params `{Libraries} (f : ndarray -> ndarray -> M fit_result) x y s b s' :
  f = robust_reg \/ f = run_foof -> f x y s = (Return b, s') -> flat_params b.
Proof.
  intros [-> | ->]; [rewrite robust_reg_unfold | rewrite run_foof_unfold];
    apply fit_batch_flat_params.
Qed.

Lemma normalize_swapped p q sw :
  ndim p = 4 -> nth 3 (shape p) 0 < nth 2 (shape p) 0 ->
  normalize p = Return (q, sw) -> sw = true.
Proof.
  intros H4 Hlt. unfold normalize. apply Nat.eqb_eq in H4. apply Nat.ltb_lt in Hlt.
  rewrite H4, Hlt. simpl. destruct (swapaxes p 2 3); simpl; intros E; inversion E.
  reflexivity.
Qed.

(** Whenever the electrode and time axes were swapped, [analysis] ends with
    an exception: the slope deltas have at most two axes, and line 138 swaps
    their axes 1 and 2. *)
Lemma swapped_run_never_returns `{Libraries} self sd s s' :
  subject_data self = Some sd ->
  ndim (data sd) = 4 ->
  nth 3 (shape (data sd)) 0 < nth 2 (shape (data sd)) 0 ->
  analysis self s <> (Return tt, s').
Proof.
  intros Hsd H4 Hlt Hrun. unfold analysis in Hrun. rewrite Hsd in Hrun.
  bind_returned Hrun u1 a1 H1. bind_returned Hrun u2 a2 H2.
  bind_returned Hrun recalled a3 H3.
  bind_returned Hrun sd' a4 H5. lift_returned H5. inversion H5; subst sd'. clear H5.
  bind_returned Hrun normalized a5 H6. lift_returned H6. destruct normalized as [q sw].
  pose proof (normalize_swapped _ _ _ H4 Hlt H6) as ->.
  bind_returned Hrun setup a6 H7.
  pose proof (prepare_fitter _ _ _ _ _ _ _ H7) as Hfitter.
  cbv zeta in Hrun. simpl fst in Hrun. simpl snd in Hrun.
  bind_returned Hrun units a8 H8.
  bind_returned Hrun fits s1 H9.
  assert (Hflat : Forall flat_params fits).
  { eapply mapM_Return_Forall; [|exact H9].
    intros u b s2 s3 _ Hb. simpl in Hb. eapply fitter_flat_params; eauto. }
  bind_returned Hrun d s2 H10.
  assert (Hd : ndim (snd (fst d)) <= 2).
  { destruct (negb (use_fooof self) || use_fooof self && fooof_fit_each_event self).
    - unfold per_event_contrast in H10.
      bind_returned H10 d2 b1 G1. bind_returned H10 d0 b2 G2. lift_returned G2.
      bind_returned H10 d1 b3 G3.
      bind_returned H10 t2 b4 G4. bind_returned H10 t0 b5 G5. bind_returned H10 t1 b6 G6.
      bind_returned H10 v1 c1 K1. bind_returned H10 v2 c2 K2. bind_returned H10 v3 c3 K3.
      bind_returned H10 v4 c4 K4. bind_returned H10 v5 c5 K5. bind_returned H10 v6 c6 K6.
      apply ret_inv in H10 as [H10 _]. inversion H10; subst d. simpl.
      eapply (delta_per_event_flat 0); eauto.
    - destruct (use_fooof self && negb (fooof_fit_each_event self)).
      + unfold mean_only_contrast in H10.
        bind_returned H10 d2 b1 G1. bind_returned H10 d0 b2 G2. lift_returned G2.
        bind_returned H10 d1 b3 G3.
        apply ret_inv in H10 as [H10 _]. inversion H10; subst d. simpl.
        eapply (delta_mean_only_flat 0); eauto.
      + apply lift_inv in H10 as [H10 _]. discriminate. }
  bind_returned Hrun v7 c7 K7.
  bind_returned Hrun v8 c8 K8.
  apply store_denormalized_Return in K8 as (x8 & D8 & _).
  unfold denormalize in D8. simpl in D8. unfold swapaxes in D8.
  destruct ((1 <? ndim (snd (fst d))) && (2 <? ndim (snd (fst d)))) eqn:Hax; [|discriminate].
  apply andb_true_iff in Hax as [_ Hax]. apply Nat.ltb_lt in Hax. lia.
Qed.

(** ** The theorems at concrete inputs *)

Lemma nsum_nan l : existsb isnan l = true -> nsum l = NaN.
Proof.
  induction l as [|v l IH]; simpl; [discriminate|]. intros Hl.
  destruct v as [|q]; [reflexivity|]. simpl in Hl.
  change (nsum (Val q :: l)) with (nadd (Val q) (nsum l)).
  rewrite IH by exact Hl. reflexivity.
Qed.

Lemma mean_list_empty_or_nan d : empty_or_nan d = true -> mean_list (ravel d) = NaN.
Proof.
  unfold empty_or_nan, mean_list. destruct (ravel d) as [|v l] eqn:E; [reflexivity|].
  intros Hl. rewrite (nsum_nan _ Hl). reflexivity.
Qed.

(** The level fit propagates not-a-number. *)
Lemma level_libs_propagate_nan : @fooof_propagates_nan level_libs.
Proof.
  intros x d Hbad. simpl. unfold nan_outputs, level_fit. simpl.
  rewrite (mean_list_empty_or_nan d Hbad), nsub_nan_r. simpl.
  apply forallb_forall. intros v Hv. apply in_map_iff in Hv as (k & <- & _).
  rewrite nsub_nan_r. reflexivity.
Qed.

Definition none_recalled : Self :=
  example_self power_3d [false; false; false] false false false.

Definition all_recalled_mean_only : Self :=
  example_self power_3d [true; true; true] true false false.

(** With no recalled event the robust-regression run returns and stores
    arrays of not-a-number; with every event recalled the mean-only run
    does. *)
Lemma degenerate_labels_store_nan_witness :
  Forall (fun key =>
            res (snd (@analysis level_libs none_recalled initial_state)) !! key
            = res initial_state !! key \/
            exists a, res (snd (@analysis level_libs none_recalled initial_state)) !! key
                      = Some (RArr a) /\ all_nan a)
         (stat_keys ++ delta_keys) /\
  Forall (fun key =>
            res (snd (@analysis level_libs all_recalled_mean_only initial_state)) !! key
            = res initial_state !! key \/
            exists a, res (snd (@analysis level_libs all_recalled_mean_only initial_state)) !! key
                      = Some (RArr a) /\ all_nan a)
         (stat_keys ++ delta_keys).
Proof.
  split; apply List.Forall_forall; intros key Hkey.
  - apply (@degenerate_labels_store_nan level_libs none_recalled
             (fun _ => Return [false; false; false]) [false; false; false] initial_state
             (fst (@analysis level_libs none_recalled initial_state))
             (snd (@analysis level_libs none_recalled initial_state))
             level_libs_propagate_nan eq_refl eq_refl (or_intror eq_refl)
             (surjective_pairing _) key Hkey).
  - apply (@degenerate_labels_store_nan level_libs all_recalled_mean_only
             (fun _ => Return [true; true; true]) [true; true; true] initial_state
             (fst (@analysis level_libs all_recalled_mean_only initial_state))
             (snd (@analysis level_libs all_recalled_mean_only initial_state))
             level_libs_propagate_nan eq_refl eq_refl (or_introl eq_refl)
             (surjective_pairing _) key Hkey).
Defined.

(** Both runs return, and the arrays are there. *)
Example degenerate_runs_return :
  let stored_nan s key :=
    match stored_cells s key with
    | Some cells => negb (length cells =? 0) && forallb isnan cells
    | None => false
    end in
  fst (@analysis level_libs none_recalled initial_state) = Return tt /\
  forallb (stored_nan (snd (@analysis level_libs none_recalled initial_state)))
    (stat_keys ++ delta_keys) = true /\
  fst (@analysis level_libs all_recalled_mean_only initial_state) = Return tt /\
  forallb (stored_nan (snd (@analysis level_libs all_recalled_mean_only initial_state)))
    delta_keys = true.
Proof. vm_compute. repeat split; reflexivity. Qed.

Definition each_event_self : Self :=
  example_self power_3d [true; false; true] true true false.

Lemma fit_each_event_runs_per_event_branch_witness :
  exists fits d2 sw,
    delta_per_event 2 [true; false; true] fits = Return d2 /\
    holds_denormalized (snd (@analysis level_libs each_event_self initial_state))
      "delta_resid" sw d2 1 2.
Proof.
  assert (Hrun : @analysis level_libs each_event_self initial_state
                 = (Return tt, snd (@analysis level_libs each_event_self initial_state))).
  { transitivity (fst (@analysis level_libs each_event_self initial_state),
                  snd (@analysis level_libs each_event_self initial_state));
      [apply surjective_pairing | f_equal; vm_compute; reflexivity]. }
  destruct (@fit_each_event_runs_per_event_branch level_libs each_event_self initial_state
              _ eq_refl eq_refl Hrun)
    as (g & sd & recalled & q & sw & units & s0 & fits & s1 & d2 & d0 & d1 & t2 & t0 & t1 &
        Hg & Hgr & Hsd & Hnorm & Hunits & Hfits & Hd2 & _ & _ & _ & _ & _ & _ & _ & _ &
        _ & _ & _ & Hstored & _).
  exists fits, d2, sw. split; [|exact Hstored].
  injection Hg as <-. injection Hgr as <-. exact Hd2.
Defined.

Definition no_data_self : Self :=
  {| subject := "R1001P";
     subject_data := None;
     recall_filter_func := Some (fun _ => Return [true; false]);
     use_fooof := false;
     fooof_fit_each_event := false;
     log_power := false;
     freqs := two_freqs |}.

Definition misaligned_mean_only : Self :=
  example_self (cycle3 [2; 2; 3]) [true; false; true] true false false.

(** Without data the run prints its message and raises before any fit; with
    three labels for two events the mean-only run raises before any fit. *)
Lemma missing_or_misaligned_inputs_raise_witness :
  (exists e s', @analysis level_libs no_data_self initial_state = (Raise e, s') /\
                res s' = res initial_state /\ fit_log s' = fit_log initial_state /\
                In (message_data no_data_self) (stdout s')) /\
  (exists e s', @analysis level_libs misaligned_mean_only initial_state = (Raise e, s') /\
                res s' = res initial_state /\
                (use_fooof misaligned_mean_only = true ->
                 fooof_fit_each_event misaligned_mean_only = false ->
                 fit_log s' = fit_log initial_state)).
Proof.
  split.
  - apply (proj1 (@missing_or_misaligned_inputs_raise level_libs no_data_self initial_state)).
    reflexivity.
  - apply (proj2 (proj2 (@missing_or_misaligned_inputs_raise level_libs misaligned_mean_only
                           initial_state))
             {| data := cycle3 [2; 2; 3] |} (fun _ => Return [true; false; true])
             [true; false; true] eq_refl eq_refl eq_refl).
    simpl. lia.
Defined.

(** ** The per-event mode on a three-dimensional power array *)

Lemma omap_total {A B} (f : A -> outcome B) (f' : A -> B) l :
  (forall a, In a l -> f a = Return (f' a)) -> omap f l = Return (map f' l).
Proof.
  induction l as [|a l IH]; intros Hf; simpl; [reflexivity|].
  rewrite (Hf a) by (left; reflexivity). simpl.
  rewrite IH by (intros a' Ha'; apply Hf; right; exact Ha'). reflexivity.
Qed.

(** [np.stack([h(a) for a in l], -1)] when every [h a] has the shape [sh]. *)
Lemma stack_last_map {A} (h : A -> ndarray) (l : list A) sh :
  l <> [] -> (forall a, In a l -> shape (h a) = sh) ->
  exists d, stack_last (map h l) = Return d /\
            shape d = sh ++ [length l] /\
            forall c idx dflt, c < length l ->
              item d (idx ++ [c]) = item (h (nth c l dflt)) idx.
Proof.
  intros Hne Hsh. destruct l as [|a0 l]; [contradiction|].
  change (map h (a0 :: l)) with (h a0 :: map h l). unfold stack_last.
  assert (Hall : forallb (fun a => shape_eqb (shape a) (shape (h a0)))
                   (h a0 :: map h l) = true).
  { change (h a0 :: map h l) with (map h (a0 :: l)).
    apply forallb_forall. intros a Ha.
    apply in_map_iff in Ha as (b & <- & Hb).
    rewrite (Hsh b Hb), (Hsh a0) by (left; reflexivity). apply idx_eqb_refl. }
  rewrite Hall. eexists. split; [reflexivity|].
  cbn [shape item]. rewrite (Hsh a0) by (left; reflexivity).
  split; [cbn [length]; rewrite length_map; reflexivity|].
  intros c idx dflt Hc. rewrite last_snoc, removelast_last.
  change (h a0 :: map h l) with (map h (a0 :: l)).
  rewrite (nth_indep (map h (a0 :: l)) (h a0) (h dflt)) by (rewrite length_map; exact Hc).
  rewrite map_nth. reflexivity.
Qed.

(** The events of a condition, as positions on the event axis. *)
Definition events_of (recalled : list bool) (condition : bool) : list nat :=
  true_positions 0 (if condition then recalled else map negb recalled).

(** A statistic [g] of the two samples that a quantity [v], known per
    event, forms under the recall labels. *)
Definition contrast (g : list num -> list num -> num) (recalled : list bool)
  (v : nat -> num) : num :=
  g (map v (events_of recalled true)) (map v (events_of recalled false)).

(** [np.nanmean(a) - np.nanmean(b)] *)
Definition nanmean_diff (a b : list num) : num :=
  nsub (nanmean_list a) (nanmean_list b).

Lemma true_positions_bound from m k :
  In k (true_positions from m) -> from <= k < from + length m.
Proof.
  revert from. induction m as [|b m IH]; intros from; simpl; [intros []|].
  destruct b; simpl.
  - intros [<- | Hin]; [lia|]. apply IH in Hin. lia.
  - intros Hin. apply IH in Hin. lia.
Qed.

Lemma events_of_bound recalled condition e :
  In e (events_of recalled condition) -> e < length recalled.
Proof.
  unfold events_of. intros Hin. apply true_positions_bound in Hin.
  destruct condition; [|rewrite length_map in Hin]; lia.
Qed.

(** The lane of a masked array: the cells of the selected events. *)
Lemma lane_mask_index a m a' idx :
  mask_index a m = Return a' ->
  lane a' idx = map (fun e => item a (e :: idx)) (true_positions 0 m).
Proof.
  unfold mask_index. destruct (shape a) as [|n sh]; [discriminate|].
  destruct (length m =? n); [|discriminate].
  intros E. inversion E; subst a'. unfold lane. cbn [shape item hd].
  apply (map_nth_seq (fun e => item a (e :: idx))).
Qed.

Lemma mask_index_Return a m E sh :
  shape a = E :: sh -> length m = E ->
  exists a', mask_index a m = Return a' /\ tail (shape a') = sh.
Proof.
  intros Hs Hm. unfold mask_index. rewrite Hs, Hm, Nat.eqb_refl.
  eexists. split; reflexivity.
Qed.

Section PerEventContrast.
Context `{Libraries}.
Variables (recalled : list bool) (E : nat).
Hypothesis Hlen : length recalled = E.

(** The masked pair of a field, taken out of the computation. *)
Definition masked (cond : bool) (a : ndarray) : ndarray :=
  match mask_index a (if cond then recalled else map negb recalled) with
  | Return a' => a'
  | Raise _ => a
  end.

Lemma masked_Return (cond : bool) a sh :
  shape a = E :: sh ->
  mask_index a (if cond then recalled else map negb recalled) = Return (masked cond a) /\
  tail (shape (masked cond a)) = sh.
Proof.
  intros Hs. unfold masked.
  destruct (mask_index_Return a (if cond then recalled else map negb recalled) E sh Hs)
    as (a' & -> & Ht); [destruct cond; [|rewrite length_map]; exact Hlen|].
  auto.
Qed.

Lemma lane_masked (cond : bool) a sh idx :
  shape a = E :: sh ->
  lane (masked cond a) idx = map (fun e => item a (e :: idx)) (events_of recalled cond).
Proof.
  intros Hs. destruct (masked_Return cond a sh Hs) as [Hm _].
  apply (lane_mask_index _ _ _ idx) in Hm. exact Hm.
Qed.

Lemma delta_per_event_Return k fits sh :
  fits <> [] ->
  (forall b, In b fits -> shape (field k b) = E :: sh) ->
  exists d, delta_per_event k recalled fits = Return d /\
            shape d = sh ++ [length fits] /\
            forall c idx dflt, c < length fits ->
              item d (idx ++ [c])
              = contrast nanmean_diff recalled
                  (fun e => item (field k (nth c fits dflt)) (e :: idx)).
Proof.
  intros Hne Hsh.
  set (h := fun b : fit_result =>
              arr_sub (nanmean0 (masked true (field k b)))
                      (nanmean0 (masked false (field k b)))).
  destruct (stack_last_map h fits sh Hne) as (d & Hd & Hsd & Hcell).
  { intros b Hb. unfold h. cbn [arr_sub shape nanmean0 reduce0].
    apply (masked_Return true (field k b) sh (Hsh b Hb)). }
  exists d. split; [|split; [exact Hsd|]].
  - unfold delta_per_event. rewrite (omap_total _ h); [exact Hd|].
    intros b Hb.
    destruct (masked_Return true (field k b) sh (Hsh b Hb)) as [-> _].
    destruct (masked_Return false (field k b) sh (Hsh b Hb)) as [Hf _].
    cbv iota in Hf. cbn [obind]. rewrite Hf. reflexivity.
  - intros c idx dflt Hc. rewrite (Hcell c idx dflt Hc). unfold h.
    cbn [arr_sub item nanmean0 reduce0].
    assert (Hin : shape (field k (nth c fits dflt)) = E :: sh)
      by (apply Hsh, nth_In, Hc).
    rewrite (lane_masked true _ sh idx Hin), (lane_masked false _ sh idx Hin).
    reflexivity.
Qed.

Lemma ttest_per_event_Return k fits sh :
  fits <> [] ->
  (forall b, In b fits -> shape (field k b) = E :: sh) ->
  exists ts ps, ttest_per_event k recalled fits = Return (ts, ps) /\
            shape ts = sh ++ [length fits] /\ shape ps = sh ++ [length fits] /\
            forall c idx dflt, c < length fits ->
              item ts (idx ++ [c])
              = contrast (fun a b => fst (ttest_lane a b)) recalled
                  (fun e => item (field k (nth c fits dflt)) (e :: idx)) /\
              item ps (idx ++ [c])
              = contrast (fun a b => snd (ttest_lane a b)) recalled
                  (fun e => item (field k (nth c fits dflt)) (e :: idx)).
Proof.
  intros Hne Hsh.
  set (h := fun b : fit_result =>
              ttest_ind (masked true (field k b)) (masked false (field k b))).
  destruct (stack_last_map (fun b => fst (h b)) fits sh Hne) as (ts & Hts & Hsts & Hcts).
  { intros b Hb. unfold h. cbn [ttest_ind fst shape].
    apply (masked_Return true (field k b) sh (Hsh b Hb)). }
  destruct (stack_last_map (fun b => snd (h b)) fits sh Hne) as (ps & Hps & Hsps & Hcps).
  { intros b Hb. unfold h. cbn [ttest_ind snd shape].
    apply (masked_Return true (field k b) sh (Hsh b Hb)). }
  exists ts, ps. split; [|split; [exact Hsts|split; [exact Hsps|]]].
  - unfold ttest_per_event. rewrite (omap_total _ h).
    + cbn [obind]. rewrite !map_map, Hts. cbn [obind]. rewrite Hps. reflexivity.
    + intros b Hb.
      destruct (masked_Return true (field k b) sh (Hsh b Hb)) as [-> _].
      destruct (masked_Return false (field k b) sh (Hsh b Hb)) as [Hf _].
      cbv iota in Hf. cbn [obind]. rewrite Hf. reflexivity.
  - intros c idx dflt Hc. rewrite (Hcts c idx dflt Hc), (Hcps c idx dflt Hc). unfold h.
    cbn [ttest_ind fst snd item].
    assert (Hin : shape (field k (nth c fits dflt)) = E :: sh)
      by (apply Hsh, nth_In, Hc).
    rewrite (lane_masked true _ sh idx Hin), (lane_masked false _ sh idx Hin).
    split; reflexivity.
Qed.

End PerEventContrast.

Lemma contrast_ext g recalled v v' :
  (forall e, e < length recalled -> v e = v' e) ->
  contrast g recalled v = contrast g recalled v'.
Proof.
  intros Hv. unfold contrast. f_equal; apply map_ext_in; intros e He;
    apply Hv; eapply events_of_bound; eauto.
Qed.

(** [key] holds an array of shape [sh] whose cells are given by [cell]. *)
Definition holds (s : State) (key : string) (sh : list nat) (cell : list nat -> num)
  : Prop :=
  exists a, res s !! key = Some (RArr a) /\ shape a = sh /\
            forall idx, in_boundsb idx sh = true -> item a idx = cell idx.

Lemma in_bounds1 idx n :
  in_boundsb idx [n] = true -> exists c, idx = [c] /\ c < n.
Proof.
  destruct idx as [|c [|? ?]]; simpl; try discriminate.
  - rewrite andb_true_r. intros Hc. apply Nat.ltb_lt in Hc. eauto.
  - rewrite andb_false_r. discriminate.
Qed.

Lemma in_bounds2 idx n1 n2 :
  in_boundsb idx [n1; n2] = true -> exists m c, idx = [m; c] /\ m < n1 /\ c < n2.
Proof.
  destruct idx as [|m [|c [|? ?]]]; simpl; rewrite ?andb_false_r; try discriminate.
  rewrite andb_true_r. intros Hb. apply andb_true_iff in Hb as [Hm Hc].
  apply Nat.ltb_lt in Hm, Hc. eauto.
Qed.

Lemma per_event_contrast_Return `{Libraries} recalled fits d2 d0 d1 t2 t0 t1 s :
  delta_per_event 2 recalled fits = Return d2 ->
  delta_per_event 0 recalled fits = Return d0 ->
  delta_per_event 1 recalled fits = Return d1 ->
  ttest_per_event 2 recalled fits = Return t2 ->
  ttest_per_event 0 recalled fits = Return t0 ->
  ttest_per_event 1 recalled fits = Return t1 ->
  per_event_contrast false recalled fits s
  = (Return (d2, d0, d1),
     {| res := <["ps_offsets" := RArr (snd t1)]> (<["ts_offsets" := RArr (fst t1)]>
               (<["ps_slopes" := RArr (snd t0)]> (<["ts_slopes" := RArr (fst t0)]>
               (<["ps_resid" := RArr (snd t2)]> (<["ts_resid" := RArr (fst t2)]> (res s))))));
        stdout := stdout s; fit_log := fit_log s |}).
Proof.
  intros E2 E0 E1 T2 T0 T1. unfold per_event_contrast, bind, lift.
  rewrite E2, E0, E1, T2, T0, T1. reflexivity.
Qed.

(** The cells of the results of the per-event mode: for the residuals at
    frequency [m] and electrode [c], for the slopes and offsets at
    electrode [c]. *)
Definition resid_cells (g : list num -> list num -> num) (recalled : list bool)
  (r : nat -> nat -> FitOut) (idx : list nat) : num :=
  match idx with
  | [m; c] => contrast g recalled (fun e => nth m (curve (r c e)) NaN)
  | _ => NaN
  end.

Definition param_cells (g : list num -> list num -> num) (recalled : list bool)
  (v : nat -> nat -> num) (idx : list nat) : num :=
  match idx with
  | [c] => contrast g recalled (v c)
  | _ => NaN
  end.

Definition tstat `{Libraries} (a b : list num) : num := fst (ttest_lane a b).
Definition pvalue `{Libraries} (a b : list num) : num := snd (ttest_lane a b).

(** What a run of the per-event mode on [C] electrodes and [F] frequencies
    leaves in [self.res] when the fit of event [e] at electrode [c] gave
    [r c e]: the nanmean difference, the t-statistic and the p-value of the
    residual curves at every frequency and electrode, and of the slopes and
    the offsets at every electrode; the fraction of recalled events and the
    labels. *)
Definition per_event_results `{Libraries} (recalled : list bool) (F C : nat)
  (r : nat -> nat -> FitOut) (s' : State) : Prop :=
  holds s' "delta_resid" [F; C] (resid_cells nanmean_diff recalled r) /\
  holds s' "ts_resid" [F; C] (resid_cells tstat recalled r) /\
  holds s' "ps_resid" [F; C] (resid_cells pvalue recalled r) /\
  holds s' "delta_slopes" [C] (param_cells nanmean_diff recalled (fun c e => param1 (r c e))) /\
  holds s' "ts_slopes" [C] (param_cells tstat recalled (fun c e => param1 (r c e))) /\
  holds s' "ps_slopes" [C] (param_cells pvalue recalled (fun c e => param1 (r c e))) /\
  holds s' "delta_offsets" [C] (param_cells nanmean_diff recalled (fun c e => param0 (r c e))) /\
  holds s' "ts_offsets" [C] (param_cells tstat recalled (fun c e => param0 (r c e))) /\
  holds s' "ps_offsets" [C] (param_cells pvalue recalled (fun c e => param0 (r c e))) /\
  res s' !! "p_recall" = Some (RNum (p_recall recalled)) /\
  res s' !! "recalled" = Some (RBools recalled).

Section PerEvent3D.
Context `{Libraries}.
Variables (self : Self) (sd : SubjectData) (g : option SubjectData -> outcome (list bool)).
Variables (recalled : list bool) (E F C : nat) (r : nat -> nat -> FitOut).
Variables (fit : ndarray -> outcome FitOut).
Variables (x p : ndarray) (f : ndarray -> ndarray -> M fit_result).
Hypothesis Hsd : subject_data self = Some sd.
Hypothesis Hg : recall_filter_func self = Some g.
Hypothesis Hgr : g (Some sd) = Return recalled.
Hypothesis Hmode :
  negb (use_fooof self) || (use_fooof self && fooof_fit_each_event self) = true.
Hypothesis Hprep : forall s, prepare self sd recalled (data sd) s = (Return (f, x, p), s).
Hypothesis Hf : forall y, exists pick, f x y = fit_batch fit pick x y.
Hypothesis Hdata : ndim (data sd) = 3.
Hypothesis Hshape : shape p = [E; F; C].
Hypothesis Hlen : length recalled = E.
Hypothesis HC : 0 < C.
Hypothesis Hfit : forall c i, c < C -> i < E ->
  fit (subarray (unit_of p c) i) = Return (r c i) /\ length (curve (r c i)) = F.

Lemma per_event_unit_fit c s :
  c < C ->
  exists b, f x (unit_of p c) s
            = (Return b, logged s (map (subarray (unit_of p c)) (seq 0 E))) /\
            shapes2 E F b /\ forall i, i < E -> row_ok (r c) b i.
Proof.
  intros Hc. destruct (Hf (unit_of p c)) as [pick ->].
  apply (fit_batch_2d fit pick x (unit_of p c) E F (r c) s).
  - unfold unit_of. simpl. rewrite Hshape. reflexivity.
  - intros i Hi. destruct (Hfit c i Hc Hi) as [Hr Hcv]. split; [exact Hr|].
    apply broadcastable_length. exact Hcv.
Qed.

Lemma per_event_run s :
  exists s',
    analysis self s = (Return tt, s') /\
    fit_log s' = fit_log s
                 ++ flat_map (fun c => map (subarray (unit_of p c)) (seq 0 E)) (seq 0 C) /\
    stdout s' = stdout s /\
    per_event_results recalled F C r s'.
Proof.
  destruct (mapM_seq_progress
              (fun y => f x (transpose y))
              (subarray (transpose p))
              (fun c b => shapes2 E F b /\ forall i, i < E -> row_ok (r c) b i)
              (fun c => map (subarray (unit_of p c)) (seq 0 E))
              C s) as (fits & Hfits & Hlenfits & Hnth).
  { intros c s0 Hc. apply (per_event_unit_fit c s0 Hc). }
  set (dflt := (full_nan [], full_nan [], full_nan []) : fit_result).
  assert (Hne : fits <> []) by (intros ->; simpl in Hlenfits; lia).
  assert (Hin : forall b, In b fits -> shapes2 E F b).
  { intros b Hb. apply (In_nth _ _ dflt) in Hb as (c & Hc & <-). apply Hnth. lia. }
  assert (Hs2 : forall b, In b fits -> shape (field 2 b) = E :: [F])
    by (intros b Hb; apply (Hin b Hb)).
  assert (Hs0 : forall b, In b fits -> shape (field 0 b) = E :: [])
    by (intros b Hb; apply (Hin b Hb)).
  assert (Hs1 : forall b, In b fits -> shape (field 1 b) = E :: [])
    by (intros b Hb; apply (Hin b Hb)).
  destruct (delta_per_event_Return recalled E Hlen 2 fits [F] Hne Hs2) as (d2 & D2 & Sd2 & Cd2).
  destruct (delta_per_event_Return recalled E Hlen 0 fits [] Hne Hs0) as (d0 & D0 & Sd0 & Cd0).
  destruct (delta_per_event_Return recalled E Hlen 1 fits [] Hne Hs1) as (d1 & D1 & Sd1 & Cd1).
  destruct (ttest_per_event_Return recalled E Hlen 2 fits [F] Hne Hs2)
    as (ts2 & ps2 & T2 & Sts2 & Sps2 & Ct2).
  destruct (ttest_per_event_Return recalled E Hlen 0 fits [] Hne Hs0)
    as (ts0 & ps0 & T0 & Sts0 & Sps0 & Ct0).
  destruct (ttest_per_event_Return recalled E Hlen 1 fits [] Hne Hs1)
    as (ts1 & ps1 & T1 & Sts1 & Sps1 & Ct1).
  rewrite Hlenfits in *. simpl in Sd2, Sd0, Sd1, Sts2, Sps2, Sts0, Sps0, Sts1, Sps1.
  (* the cells of the fits, in terms of the library's outputs *)
  assert (Hrows : forall c, c < C -> forall i, i < E -> row_ok (r c) (nth c fits dflt) i)
    by (intros c Hc; apply (Hnth c dflt Hc)).
  assert (Rcell : forall gg c m, c < C -> m < F ->
            contrast gg recalled (fun e => item (field 2 (nth c fits dflt)) [e; m])
            = contrast gg recalled (fun e => nth m (curve (r c e)) NaN)).
  { intros gg c m Hc Hm. apply contrast_ext. intros e He. rewrite Hlen in He.
    destruct (Hrows c Hc e He) as (_ & _ & Hcv). simpl. rewrite Hcv.
    apply (bcast_nth_lt _ F); [apply Hfit; assumption | exact Hm]. }
  assert (Scell : forall gg c, c < C ->
            contrast gg recalled (fun e => item (field 0 (nth c fits dflt)) [e])
            = contrast gg recalled (fun e => param1 (r c e))).
  { intros gg c Hc. apply contrast_ext. intros e He. rewrite Hlen in He.
    destruct (Hrows c Hc e He) as (Hp1 & _ & _). exact Hp1. }
  assert (Ocell : forall gg c, c < C ->
            contrast gg recalled (fun e => item (field 1 (nth c fits dflt)) [e])
            = contrast gg recalled (fun e => param0 (r c e))).
  { intros gg c Hc. apply contrast_ext. intros e He. rewrite Hlen in He.
    destruct (Hrows c Hc e He) as (_ & Hp0 & _). exact Hp0. }
  eexists. split.
  { unfold analysis. rewrite Hsd, Hg, Hgr.
    rewrite (bind_Return _ _ s tt s) by reflexivity.
    rewrite (bind_Return _ _ s tt s) by reflexivity.
    rewrite (bind_Return _ _ s recalled s) by reflexivity.
    rewrite (bind_Return _ _ s sd s) by reflexivity.
    rewrite (bind_Return _ _ s (data sd, false) s)
      by (unfold normalize; rewrite Hdata; reflexivity).
    cbv zeta. simpl fst. simpl snd.
    rewrite (bind_Return _ _ s (f, x, p) s) by apply Hprep.
    simpl fst. simpl snd.
    rewrite (bind_Return _ _ s (map (subarray (transpose p)) (seq 0 C)) s)
      by (unfold iterate, lift; rewrite shape_transpose, Hshape; reflexivity).
    set (s1 := logged s _) in Hfits.
    rewrite (bind_Return _ _ _ _ _ Hfits).
    rewrite Hmode.
    rewrite (bind_Return _ _ s1 _ _
               (per_event_contrast_Return recalled fits d2 d0 d1 (ts2, ps2) (ts0, ps0)
                  (ts1, ps1) s1 D2 D0 D1 T2 T0 T1)).
    subst s1. unfold store_denormalized, denormalize, bind, lift, store. simpl.
    reflexivity. }
  simpl. split; [reflexivity|]. split; [reflexivity|].
  unfold per_event_results. cbn [res].
  repeat split.
  - exists d2. split; [simplify_map_eq; reflexivity|]. split; [exact Sd2|].
    intros idx Hb. apply in_bounds2 in Hb as (m & c & -> & Hm & Hc).
    etrans; [exact (Cd2 c [m] dflt Hc)|]. apply Rcell; assumption.
  - exists ts2. split; [simplify_map_eq; reflexivity|]. split; [exact Sts2|].
    intros idx Hb. apply in_bounds2 in Hb as (m & c & -> & Hm & Hc).
    etrans; [exact (proj1 (Ct2 c [m] dflt Hc))|]. apply (Rcell tstat); assumption.
  - exists ps2. split; [simplify_map_eq; reflexivity|]. split; [exact Sps2|].
    intros idx Hb. apply in_bounds2 in Hb as (m & c & -> & Hm & Hc).
    etrans; [exact (proj2 (Ct2 c [m] dflt Hc))|]. apply (Rcell pvalue); assumption.
  - exists d0. split; [simplify_map_eq; reflexivity|]. split; [exact Sd0|].
    intros idx Hb. apply in_bounds1 in Hb as (c & -> & Hc).
    etrans; [exact (Cd0 c [] dflt Hc)|]. apply Scell; assumption.
  - exists ts0. split; [simplify_map_eq; reflexivity|]. split; [exact Sts0|].
    intros idx Hb. apply in_bounds1 in Hb as (c & -> & Hc).
    etrans; [exact (proj1 (Ct0 c [] dflt Hc))|]. apply (Scell tstat); assumption.
  - exists ps0. split; [simplify_map_eq; reflexivity|]. split; [exact Sps0|].
    intros idx Hb. apply in_bounds1 in Hb as (c & -> & Hc).
    etrans; [exact (proj2 (Ct0 c [] dflt Hc))|]. apply (Scell pvalue); assumption.
  - exists d1. split; [simplify_map_eq; reflexivity|]. split; [exact Sd1|].
    intros idx Hb. apply in_bounds1 in Hb as (c & -> & Hc).
    etrans; [exact (Cd1 c [] dflt Hc)|]. apply Ocell; assumption.
  - exists ts1. split; [simplify_map_eq; reflexivity|]. split; [exact Sts1|].
    intros idx Hb. apply in_bounds1 in Hb as (c & -> & Hc).
    etrans; [exact (proj1 (Ct1 c [] dflt Hc))|]. apply (Ocell tstat); assumption.
  - exists ps1. split; [simplify_map_eq; reflexivity|]. split; [exact Sps1|].
    intros idx Hb. apply in_bounds1 in Hb as (c & -> & Hc).
    etrans; [exact (proj2 (Ct1 c [] dflt Hc))|]. apply (Ocell pvalue); assumption.
  - simplify_map_eq. reflexivity.
  - simplify_map_eq. reflexivity.
Qed.

End PerEvent3D.

(** The spectrum that the fit of event [i] at electrode [c] is handed. *)
Lemma unit_spectrum_cell p c i m :
  item (subarray (unit_of p c) i) [m] = item p [i; m; c].
Proof. reflexivity. Qed.

(** The default mode, robust regression, on a power array of [E] events,
    [F] frequencies and [C] electrodes with one recall label per event:
    when the regression of every spectrum returns a residual per
    frequency, [analysis] returns; it has fitted every event of every
    electrode once, on that spectrum alone, electrode by electrode; and
    [self.res] holds the eleven results, the statistics shaped
    (frequencies, electrodes) and (electrodes). *)
Theorem robust_regression_run_3d `{Libraries} self sd g recalled E F C r s :
  subject_data self = Some sd ->
  recall_filter_func self = Some g ->
  g (Some sd) = Return recalled ->
  use_fooof self = false ->
  shape (data sd) = [E; F; C] ->
  length recalled = E ->
  0 < C ->
  (forall c i, c < C -> i < E ->
     RLM_fit (subarray (unit_of (data sd) c) i) (design_matrix (freqs self))
     = Return (r c i) /\ length (curve (r c i)) = F) ->
  exists s',
    analysis self s = (Return tt, s') /\
    fit_log s' = fit_log s
                 ++ flat_map (fun c => map (subarray (unit_of (data sd) c)) (seq 0 E))
                      (seq 0 C) /\
    stdout s' = stdout s /\
    per_event_results recalled F C r s'.
Proof.
  intros Hsd Hg Hgr Hu Hshape Hlen HC Hfit.
  apply (per_event_run self sd g recalled E F C r
           (fun d => RLM_fit d (design_matrix (freqs self)))
           (design_matrix (freqs self)) (data sd) robust_reg); auto.
  - rewrite Hu. reflexivity.
  - intros s0. unfold prepare. rewrite Hu. reflexivity.
  - intros y. exists (fun d => d). apply robust_reg_unfold.
  - unfold ndim. rewrite Hshape. reflexivity.
Qed.

(** The same with FOOOF fitted to every event ([use_fooof] and
    [fooof_fit_each_event]): the spectra are those of the power array,
    raised to the power of ten first when [log_power] is set, and every fit
    is handed the spectrum of its own event. *)
Theorem fooof_each_event_run_3d `{Libraries} self sd g recalled E F C r s :
  subject_data self = Some sd ->
  recall_filter_func self = Some g ->
  g (Some sd) = Return recalled ->
  use_fooof self = true ->
  fooof_fit_each_event self = true ->
  shape (data sd) = [E; F; C] ->
  length recalled = E ->
  0 < C ->
  (forall c i, c < C -> i < E ->
     FOOOF_fit (freqs_array (freqs self))
       (subarray (unit_of (if log_power self then exp10 (data sd) else data sd) c) i)
     = Return (r c i) /\ length (curve (r c i)) = F) ->
  exists s',
    analysis self s = (Return tt, s') /\
    fit_log s' = fit_log s
                 ++ flat_map (fun c =>
                      map (subarray (unit_of (if log_power self then exp10 (data sd)
                                              else data sd) c)) (seq 0 E))
                      (seq 0 C) /\
    stdout s' = stdout s /\
    per_event_results recalled F C r s'.
Proof.
  intros Hsd Hg Hgr Hu He Hshape Hlen HC Hfit.
  apply (per_event_run self sd g recalled E F C r
           (FOOOF_fit (freqs_array (freqs self)))
           (freqs_array (freqs self))
           (if log_power self then exp10 (data sd) else data sd) run_foof); auto.
  - rewrite Hu, He. reflexivity.
  - intros s0. unfold prepare. rewrite Hu, He. reflexivity.
  - intros y. exists (fun _ => y). apply run_foof_unfold.
  - unfold ndim. rewrite Hshape. reflexivity.
  - destruct (log_power self); exact Hshape.
Qed.

(** ** Robust regression on a four-dimensional power array *)

Lemma in_bounds3 idx n1 n2 n3 :
  in_boundsb idx [n1; n2; n3] = true ->
  exists m c t, idx = [m; c; t] /\ m < n1 /\ c < n2 /\ t < n3.
Proof.
  destruct idx as [|m [|c [|t [|? ?]]]]; simpl; rewrite ?andb_false_r; try discriminate.
  rewrite andb_true_r. intros Hb. apply andb_true_iff in Hb as [Hm Hb].
  apply andb_true_iff in Hb as [Hc Ht].
  apply Nat.ltb_lt in Hm, Hc, Ht. exists m, c, t. auto.
Qed.

(** The cells of the results when the array has time bins: [r t e c] is
    the fit of event [e] at electrode [c] in time bin [t]. *)
Definition resid_cells_4d (g : list num -> list num -> num) (recalled : list bool)
  (r : nat -> nat -> nat -> FitOut) (idx : list nat) : num :=
  match idx with
  | [m; c; t] => contrast g recalled (fun e => nth m (curve (r t e c)) NaN)
  | _ => NaN
  end.

Definition param_cells_4d (g : list num -> list num -> num) (recalled : list bool)
  (v : nat -> nat -> nat -> num) (idx : list nat) : num :=
  match idx with
  | [c; t] => contrast g recalled (fun e => v t e c)
  | _ => NaN
  end.

Definition per_event_results_4d `{Libraries} (recalled : list bool) (F C T : nat)
  (r : nat -> nat -> nat -> FitOut) (s' : State) : Prop :=
  holds s' "delta_resid" [F; C; T] (resid_cells_4d nanmean_diff recalled r) /\
  holds s' "ts_resid" [F; C; T] (resid_cells_4d tstat recalled r) /\
  holds s' "ps_resid" [F; C; T] (resid_cells_4d pvalue recalled r) /\
  holds s' "delta_slopes" [C; T]
    (param_cells_4d nanmean_diff recalled (fun t e c => param1 (r t e c))) /\
  holds s' "ts_slopes" [C; T]
    (param_cells_4d tstat recalled (fun t e c => param1 (r t e c))) /\
  holds s' "ps_slopes" [C; T]
    (param_cells_4d pvalue recalled (fun t e c => param1 (r t e c))) /\
  holds s' "delta_offsets" [C; T]
    (param_cells_4d nanmean_diff recalled (fun t e c => param0 (r t e c))) /\
  holds s' "ts_offsets" [C; T]
    (param_cells_4d tstat recalled (fun t e c => param0 (r t e c))) /\
  holds s' "ps_offsets" [C; T]
    (param_cells_4d pvalue recalled (fun t e c => param0 (r t e c))) /\
  res s' !! "p_recall" = Some (RNum (p_recall recalled)) /\
  res s' !! "recalled" = Some (RBools recalled).

(** The spectrum fitted for event [i] at electrode [c] in time bin [t]. *)
Lemma unit_spectrum_cell_4d p t i c m :
  item (spectrum (unit_of p t) i c) [m] = item p [i; m; c; t].
Proof. reflexivity. Qed.

(** Robust regression on a power array of [E] events, [F] frequencies, [C]
    electrodes and [T] time bins, with at least as many time bins as
    electrodes (so that no axes are swapped) and one recall label per
    event: when the regression of every spectrum returns a residual per
    frequency, [analysis] returns; it has fitted every event at every
    electrode and time bin once, on that spectrum alone, time bin by time
    bin; and the results are shaped (frequencies, electrodes, time bins)
    and (electrodes, time bins). *)
Theorem robust_regression_run_4d `{Libraries} self sd g recalled E F C T r s :
  subject_data self = Some sd ->
  recall_filter_func self = Some g ->
  g (Some sd) = Return recalled ->
  use_fooof self = false ->
  shape (data sd) = [E; F; C; T] ->
  C <= T -> 0 < T ->
  length (freqs self) = F ->
  length recalled = E ->
  (forall t i c, t < T -> i < E -> c < C ->
     RLM_fit (spectrum (unit_of (data sd) t) i c) (design_matrix (freqs self))
     = Return (r t i c) /\ length (curve (r t i c)) = F) ->
  exists s',
    analysis self s = (Return tt, s') /\
    fit_log s' = fit_log s
                 ++ flat_map (fun t =>
                      flat_map (fun i => map (spectrum (unit_of (data sd) t) i) (seq 0 C))
                        (seq 0 E))
                      (seq 0 T) /\
    stdout s' = stdout s /\
    per_event_results_4d recalled F C T r s'.
Proof.
  intros Hsd Hg Hgr Hu Hshape HCT HT HF Hlen Hfit.
  set (x := design_matrix (freqs self)). set (p := data sd) in *.
  destruct (mapM_seq_progress
              (fun y => robust_reg x (transpose y))
              (subarray (transpose p))
              (fun t b => shapes3 E F C b /\
                          forall i c, i < E -> c < C -> cell3_ok (r t) b i c)
              (fun t => flat_map (fun i => map (spectrum (unit_of p t) i) (seq 0 C))
                          (seq 0 E))
              T s) as (fits & Hfits & Hlenfits & Hnth).
  { intros t s0 Ht. rewrite robust_reg_unfold.
    destruct (fit_batch_3d (fun d => RLM_fit d x) (fun d => d) x (unit_of p t) E F C (r t))
      with (s := s0) as (b & Hrun & Hsh & Hcells).
    - unfold unit_of. simpl. rewrite Hshape. reflexivity.
    - unfold x, len. simpl. rewrite HF. reflexivity.
    - intros i c Hi Hc. destruct (Hfit t i c Ht Hi Hc) as [Hr Hcv].
      split; [exact Hr | left; exact Hcv].
    - exists b. split; [exact Hrun|]. split; assumption. }
  set (dflt := (full_nan [], full_nan [], full_nan []) : fit_result).
  assert (Hne : fits <> []) by (intros ->; simpl in Hlenfits; lia).
  assert (Hin : forall b, In b fits -> shapes3 E F C b).
  { intros b Hb. apply (In_nth _ _ dflt) in Hb as (c & Hc & <-). apply Hnth. lia. }
  assert (Hs2 : forall b, In b fits -> shape (field 2 b) = E :: [F; C])
    by (intros b Hb; apply (Hin b Hb)).
  assert (Hs0 : forall b, In b fits -> shape (field 0 b) = E :: [C])
    by (intros b Hb; apply (Hin b Hb)).
  assert (Hs1 : forall b, In b fits -> shape (field 1 b) = E :: [C])
    by (intros b Hb; apply (Hin b Hb)).
  destruct (delta_per_event_Return recalled E Hlen 2 fits [F; C] Hne Hs2)
    as (d2 & D2 & Sd2 & Cd2).
  destruct (delta_per_event_Return recalled E Hlen 0 fits [C] Hne Hs0)
    as (d0 & D0 & Sd0 & Cd0).
  destruct (delta_per_event_Return recalled E Hlen 1 fits [C] Hne Hs1)
    as (d1 & D1 & Sd1 & Cd1).
  destruct (ttest_per_event_Return recalled E Hlen 2 fits [F; C] Hne Hs2)
    as (ts2 & ps2 & T2 & Sts2 & Sps2 & Ct2).
  destruct (ttest_per_event_Return recalled E Hlen 0 fits [C] Hne Hs0)
    as (ts0 & ps0 & T0 & Sts0 & Sps0 & Ct0).
  destruct (ttest_per_event_Return recalled E Hlen 1 fits [C] Hne Hs1)
    as (ts1 & ps1 & T1 & Sts1 & Sps1 & Ct1).
  rewrite Hlenfits in *. simpl in Sd2, Sd0, Sd1, Sts2, Sps2, Sts0, Sps0, Sts1, Sps1.
  assert (Hcells : forall t, t < T -> forall i c, i < E -> c < C ->
                     cell3_ok (r t) (nth t fits dflt) i c)
    by (intros t Ht; apply (Hnth t dflt Ht)).
  assert (Rcell : forall gg t c m, t < T -> c < C -> m < F ->
            contrast gg recalled (fun e => item (field 2 (nth t fits dflt)) [e; m; c])
            = contrast gg recalled (fun e => nth m (curve (r t e c)) NaN)).
  { intros gg t c m Ht Hc Hm. apply contrast_ext. intros e He. rewrite Hlen in He.
    destruct (Hcells t Ht e c He Hc) as (_ & _ & Hcv). simpl. rewrite Hcv.
    apply (bcast_nth_lt _ F); [apply Hfit; assumption | exact Hm]. }
  assert (Scell : forall gg t c, t < T -> c < C ->
            contrast gg recalled (fun e => item (field 0 (nth t fits dflt)) [e; c])
            = contrast gg recalled (fun e => param1 (r t e c))).
  { intros gg t c Ht Hc. apply contrast_ext. intros e He. rewrite Hlen in He.
    destruct (Hcells t Ht e c He Hc) as (Hp1 & _ & _). exact Hp1. }
  assert (Ocell : forall gg t c, t < T -> c < C ->
            contrast gg recalled (fun e => item (field 1 (nth t fits dflt)) [e; c])
            = contrast gg recalled (fun e => param0 (r t e c))).
  { intros gg t c Ht Hc. apply contrast_ext. intros e He. rewrite Hlen in He.
    destruct (Hcells t Ht e c He Hc) as (_ & Hp0 & _). exact Hp0. }
  eexists. split.
  { unfold analysis. rewrite Hsd, Hg, Hgr.
    rewrite (bind_Return _ _ s tt s) by reflexivity.
    rewrite (bind_Return _ _ s tt s) by reflexivity.
    rewrite (bind_Return _ _ s recalled s) by reflexivity.
    rewrite (bind_Return _ _ s sd s) by reflexivity.
    rewrite (bind_Return _ _ s (p, false) s).
    2:{ unfold normalize, ndim, lift. fold p. rewrite Hshape. simpl.
        assert (Hlt : (T <? C) = false) by (apply Nat.ltb_ge; lia).
        rewrite Hlt. reflexivity. }
    cbv zeta. simpl fst. simpl snd.
    rewrite (bind_Return _ _ s (robust_reg, x, p) s)
      by (unfold prepare; rewrite Hu; reflexivity).
    simpl fst. simpl snd.
    rewrite (bind_Return _ _ s (map (subarray (transpose p)) (seq 0 T)) s)
      by (unfold iterate, lift; rewrite shape_transpose, Hshape; reflexivity).
    set (s1 := logged s _) in Hfits.
    rewrite (bind_Return _ _ _ _ _ Hfits).
    rewrite Hu. cbn [negb orb].
    rewrite (bind_Return _ _ s1 _ _
               (per_event_contrast_Return recalled fits d2 d0 d1 (ts2, ps2) (ts0, ps0)
                  (ts1, ps1) s1 D2 D0 D1 T2 T0 T1)).
    subst s1. unfold store_denormalized, denormalize, bind, lift, store. simpl.
    reflexivity. }
  simpl. split; [reflexivity|]. split; [reflexivity|].
  unfold per_event_results_4d. cbn [res].
  repeat split.
  - exists d2. split; [simplify_map_eq; reflexivity|]. split; [exact Sd2|].
    intros idx Hb. apply in_bounds3 in Hb as (m & c & t & -> & Hm & Hc & Ht).
    etrans; [exact (Cd2 t [m; c] dflt Ht)|]. apply Rcell; assumption.
  - exists ts2. split; [simplify_map_eq; reflexivity|]. split; [exact Sts2|].
    intros idx Hb. apply in_bounds3 in Hb as (m & c & t & -> & Hm & Hc & Ht).
    etrans; [exact (proj1 (Ct2 t [m; c] dflt Ht))|]. apply (Rcell tstat); assumption.
  - exists ps2. split; [simplify_map_eq; reflexivity|]. split; [exact Sps2|].
    intros idx Hb. apply in_bounds3 in Hb as (m & c & t & -> & Hm & Hc & Ht).
    etrans; [exact (proj2 (Ct2 t [m; c] dflt Ht))|]. apply (Rcell pvalue); assumption.
  - exists d0. split; [simplify_map_eq; reflexivity|]. split; [exact Sd0|].
    intros idx Hb. apply in_bounds2 in Hb as (c & t & -> & Hc & Ht).
    etrans; [exact (Cd0 t [c] dflt Ht)|]. apply Scell; assumption.
  - exists ts0. split; [simplify_map_eq; reflexivity|]. split; [exact Sts0|].
    intros idx Hb. apply in_bounds2 in Hb as (c & t & -> & Hc & Ht).
    etrans; [exact (proj1 (Ct0 t [c] dflt Ht))|]. apply (Scell tstat); assumption.
  - exists ps0. split; [simplify_map_eq; reflexivity|]. split; [exact Sps0|].
    intros idx Hb. apply in_bounds2 in Hb as (c & t & -> & Hc & Ht).
    etrans; [exact (proj2 (Ct0 t [c] dflt Ht))|]. apply (Scell pvalue); assumption.
  - exists d1. split; [simplify_map_eq; reflexivity|]. split; [exact Sd1|].
    intros idx Hb. apply in_bounds2 in Hb as (c & t & -> & Hc & Ht).
    etrans; [exact (Cd1 t [c] dflt Ht)|]. apply Ocell; assumption.
  - exists ts1. split; [simplify_map_eq; reflexivity|]. split; [exact Sts1|].
    intros idx Hb. apply in_bounds2 in Hb as (c & t & -> & Hc & Ht).
    etrans; [exact (proj1 (Ct1 t [c] dflt Ht))|]. apply (Ocell tstat); assumption.
  - exists ps1. split; [simplify_map_eq; reflexivity|]. split; [exact Sps1|].
    intros idx Hb. apply in_bounds2 in Hb as (c & t & -> & Hc & Ht).
    etrans; [exact (proj2 (Ct1 t [c] dflt Ht))|]. apply (Ocell pvalue); assumption.
  - simplify_map_eq. reflexivity.
  - simplify_map_eq. reflexivity.
Qed.

(** ** The axis ticks of the plots *)

Lemma bit_length_nonneg n : (0 <= bit_length n)%Z.
Proof.
  destruct n; unfold bit_length; [lia | |]; pose proof (Z.log2_nonneg (Z.pos p)); lia.
Qed.

(** For a positive [n] the bit length is the least [b] with [n < 2 ** b]. *)
Lemma bit_length_spec n :
  (0 < n)%Z -> (2 ^ (bit_length n - 1) <= n < 2 ^ bit_length n)%Z.
Proof.
  intros Hn. destruct n as [|p|p]; try lia.
  unfold bit_length.
  replace (Z.log2 (Z.pos p) + 1 - 1)%Z with (Z.log2 (Z.pos p)) by lia.
  replace (Z.log2 (Z.pos p) + 1)%Z with (Z.succ (Z.log2 (Z.pos p))) by lia.
  apply Z.log2_spec. lia.
Qed.

Lemma wrap64_small z : (- 2 ^ 63 <= z < 2 ^ 63)%Z -> wrap64 z = z.
Proof.
  intros Hz. unfold wrap64. rewrite Z.mod_small by lia. lia.
Qed.

Lemma range_succ (b : nat) : range (Z.of_nat b + 1) = map Z.of_nat (seq 0 (S b)).
Proof.
  unfold range. replace (Z.to_nat (Z.of_nat b + 1)) with (S b) by lia. reflexivity.
Qed.

(** The series of a top frequency whose integer part minus one has [b]
    binary digits, [b] at most 62. *)
Lemma compute_pow_two_series_digits self top (b : nat) :
  last (freqs self) = Some top ->
  bit_length (int_of top - 1) = Z.of_nat b -> b <= 62 ->
  compute_pow_two_series self = Return (powers_upto b).
Proof.
  intros Hlast Hb Hle. unfold compute_pow_two_series. rewrite Hlast. cbv zeta.
  rewrite Hb.
  assert (Hc : (Z.of_nat b <=? 63)%Z = true) by (apply Z.leb_le; lia).
  rewrite Hc, range_succ, map_map. unfold powers_upto. f_equal.
  apply map_ext_in. intros k Hk. apply in_seq in Hk.
  apply wrap64_small. split.
  - pose proof (Z.pow_nonneg 2 (Z.of_nat k)). lia.
  - apply Z.pow_lt_mono_r; lia.
Qed.

(** The ticks are the powers of two from 1 up to the least one that is not
    below the integer part of the top frequency. *)
Theorem pow_two_series_covers_integer_part self top :
  last (freqs self) = Some top ->
  (1 <= int_of top <= 2 ^ 62)%Z ->
  exists b : nat,
    compute_pow_two_series self = Return (powers_upto b) /\
    (int_of top <= 2 ^ Z.of_nat b)%Z /\
    forall k : nat, (int_of top <= 2 ^ Z.of_nat k)%Z -> b <= k.
Proof.
  intros Hlast [Hlo Hhi].
  set (n := int_of top) in *.
  pose proof (bit_length_nonneg (n - 1)) as Hnn.
  exists (Z.to_nat (bit_length (n - 1))).
  destruct (Z.eq_dec n 1%Z) as [E1 | Hne].
  - rewrite E1. simpl. split; [|split; [lia | lia]].
    apply (compute_pow_two_series_digits self top 0 Hlast); [|lia].
    fold n. rewrite E1. reflexivity.
  - pose proof (bit_length_spec (n - 1) ltac:(lia)) as [Hlow Hup].
    assert (Hb62 : (bit_length (n - 1) <= 62)%Z).
    { destruct (Z_le_gt_dec (bit_length (n - 1)) 62%Z) as [|Hgt]; [assumption|].
      assert (2 ^ 62 <= 2 ^ (bit_length (n - 1) - 1))%Z
        by (apply Z.pow_le_mono_r; lia).
      lia. }
    split; [|split].
    + apply (compute_pow_two_series_digits self top _ Hlast); [fold n; lia | lia].
    + rewrite Z2Nat.id by lia. lia.
    + intros k Hk.
      destruct (le_gt_dec (Z.to_nat (bit_length (n - 1))) k) as [|Hgt]; [assumption|].
      assert (2 ^ Z.of_nat k <= 2 ^ (bit_length (n - 1) - 1))%Z
        by (apply Z.pow_le_mono_r; lia).
      lia.
Qed.

Lemma int_of_between q z :
  (0 <= z)%Z -> (Qc_of_int z <= q)%Qc -> (q < Qc_of_int (z + 1))%Qc -> int_of q = z.
Proof.
  intros Hz Hlo Hhi. unfold Qcle, Qclt, Qc_of_int, Qc_of_Z, Q2Qc in *.
  cbn [this] in Hlo, Hhi.
  unfold Qle, Qlt, inject_Z in *. simpl in Hlo, Hhi.
  unfold int_of. destruct (this q) as [a d]. simpl in *.
  rewrite Z.quot_div_nonneg by nia.
  symmetry. apply (Z.div_unique_pos a (Z.pos d) z (a - z * Z.pos d)); nia.
Qed.

Lemma bit_length_pred_pow2 (k : nat) : bit_length (2 ^ Z.of_nat k - 1) = Z.of_nat k.
Proof.
  destruct k as [|k]; [reflexivity|].
  assert (Hpos : (0 < 2 ^ Z.of_nat (S k) - 1)%Z).
  { assert (2 ^ 1 <= 2 ^ Z.of_nat (S k))%Z by (apply Z.pow_le_mono_r; lia). lia. }
  destruct (2 ^ Z.of_nat (S k) - 1)%Z as [|p|p] eqn:Ep; try lia.
  unfold bit_length. rewrite <- Ep.
  rewrite (Z.log2_unique (2 ^ Z.of_nat (S k) - 1) (Z.of_nat k)); [lia | lia |].
  replace (Z.succ (Z.of_nat k)) with (Z.of_nat (S k)) by lia.
  replace (Z.of_nat (S k)) with (Z.of_nat k + 1)%Z by lia.
  rewrite Z.pow_add_r by lia. pose proof (Z.pow_pos_nonneg 2 (Z.of_nat k)). lia.
Qed.

(** The last tick may lie below the top frequency, and is not one power
    above it: a top frequency from [2 ** k] up to, but excluding,
    [2 ** k + 1] gives the ticks [1, 2, ..., 2 ** k]. *)
Theorem pow_two_series_stops_at_top self top (k : nat) :
  last (freqs self) = Some top -> k <= 62 ->
  (Qc_of_int (2 ^ Z.of_nat k) <= top)%Qc ->
  (top < Qc_of_int (2 ^ Z.of_nat k + 1))%Qc ->
  compute_pow_two_series self = Return (powers_upto k) /\
  List.last (powers_upto k) 0%Z = (2 ^ Z.of_nat k)%Z.
Proof.
  intros Hlast Hk Hlo Hhi. split.
  - apply (compute_pow_two_series_digits self top k Hlast); [|exact Hk].
    rewrite (int_of_between top (2 ^ Z.of_nat k)); auto.
    + apply bit_length_pred_pow2.
    + apply Z.pow_nonneg. lia.
  - unfold powers_upto. rewrite seq_S, map_app. apply last_last.
Qed.

Lemma bit_length_le n b :
  (0 <= b)%Z -> (Z.abs n < 2 ^ b)%Z -> (bit_length n <= b)%Z.
Proof.
  intros Hb Hn. destruct n as [|p|p]; unfold bit_length; [lia | |];
    assert (Z.log2 (Z.pos p) < b)%Z by (apply Z.log2_lt_pow2; lia); lia.
Qed.

(** The series is never empty and starts at 1, whatever the top frequency
    below [2 ** 63] is, zero and negative ones included; without
    frequencies the look-up of the last one raises. *)
Theorem pow_two_series_starts_at_one self :
  (freqs self = [] -> compute_pow_two_series self = Raise IndexError) /\
  (forall top, last (freqs self) = Some top ->
     (Z.abs (int_of top - 1) < 2 ^ 63)%Z ->
     exists rest, compute_pow_two_series self = Return (1%Z :: rest)).
Proof.
  split.
  - intros E. unfold compute_pow_two_series. rewrite E. reflexivity.
  - intros top Hlast Hb. unfold compute_pow_two_series. rewrite Hlast. cbv zeta.
    apply (bit_length_le _ 63) in Hb; [|lia].
    apply Z.leb_le in Hb. rewrite Hb.
    pose proof (bit_length_nonneg (int_of top - 1)) as Hnn.
    unfold range.
    replace (Z.to_nat (bit_length (int_of top - 1) + 1))
      with (S (Z.to_nat (bit_length (int_of top - 1)))) by lia.
    simpl. eexists. reflexivity.
Qed.

(** ** Further properties of the runs of [analysis] *)

(** The mean-only mode of FOOOF on a power array of [E] events, [F]
    frequencies and [C] electrodes with one recall label per event: the
    spectra are averaged over the events of each condition first; when the
    fits of these means return a curve per frequency, [analysis] returns
    after two fits per electrode, it leaves the six statistic keys as they
    were, and every delta is the fit of the recalled condition minus the
    fit of the other one. *)
Theorem fooof_mean_only_run_3d `{Libraries} self sd g recalled E F C r s :
  subject_data self = Some sd ->
  recall_filter_func self = Some g ->
  g (Some sd) = Return recalled ->
  use_fooof self = true ->
  fooof_fit_each_event self = false ->
  shape (data sd) = [E; F; C] ->
  length recalled = E ->
  0 < C ->
  (forall pm c i,
     condition_means (if log_power self then exp10 (data sd) else data sd) recalled
     = Return pm ->
     c < C -> i < 2 ->
     FOOOF_fit (freqs_array (freqs self)) (subarray (unit_of pm c) i) = Return (r c i) /\
     length (curve (r c i)) = F) ->
  exists pm s',
    (forall i m c, i < 2 ->
       item (subarray (unit_of pm c) i) [m]
       = mean_list (map (fun e => item (if log_power self then exp10 (data sd)
                                        else data sd) [e; m; c])
                        (events_of recalled (i =? 0)))) /\
    analysis self s = (Return tt, s') /\
    fit_log s' = fit_log s
                 ++ flat_map (fun c => [subarray (unit_of pm c) 0; subarray (unit_of pm c) 1])
                      (seq 0 C) /\
    Forall (fun key => res s' !! key = res s !! key) stat_keys /\
    holds s' "delta_resid" [F; C]
      (fun idx => match idx with
                  | [m; c] => nsub (nth m (curve (r c 0)) NaN) (nth m (curve (r c 1)) NaN)
                  | _ => NaN
                  end) /\
    holds s' "delta_slopes" [C]
      (fun idx => match idx with
                  | [c] => nsub (param1 (r c 0)) (param1 (r c 1))
                  | _ => NaN
                  end) /\
    holds s' "delta_offsets" [C]
      (fun idx => match idx with
                  | [c] => nsub (param0 (r c 0)) (param0 (r c 1))
                  | _ => NaN
                  end).
Proof.
  intros Hsd Hg Hgr Hu He Hshape Hlen HC Hfit.
  set (p := if log_power self then exp10 (data sd) else data sd) in *.
  assert (Hp : shape p = [E; F; C]) by (unfold p; destruct (log_power self); exact Hshape).
  destruct (condition_means_Return p recalled E [F; C] Hp Hlen)
    as (pm & Hpm & Hspm & Hrec & Hnrec).
  destruct (mean_only_run_3d self sd g recalled E F C pm r Hsd Hg Hgr Hu He Hshape Hlen HC
              Hpm (fun c i => Hfit pm c i Hpm) s)
    as (s' & dr & ds & do & Hrun & Hlog & Hstat & Hdr & Hds & Hdo & Sdr & Sds & Sdo & Hcells).
  exists pm, s'.
  split; [|split; [exact Hrun|split; [exact Hlog|split; [exact Hstat|]]]].
  - intros i m c Hi. rewrite condition_spectrum_cell.
    destruct i as [|[|i]]; [apply Hrec | apply Hnrec | lia].
  - split; [|split].
    + exists dr. split; [exact Hdr|]. split; [exact Sdr|].
      intros idx Hb. apply in_bounds2 in Hb as (m & c & -> & Hm & Hc).
      apply (Hcells c Hc). exact Hm.
    + exists ds. split; [exact Hds|]. split; [exact Sds|].
      intros idx Hb. apply in_bounds1 in Hb as (c & -> & Hc).
      apply (Hcells c Hc).
    + exists do. split; [exact Hdo|]. split; [exact Sdo|].
      intros idx Hb. apply in_bounds1 in Hb as (c & -> & Hc).
      apply (Hcells c Hc).
Qed.

(** Whenever the electrode and time axes were swapped -- a four-dimensional
    power array with fewer time bins than electrodes -- the run ends with
    an exception, in every mode. *)
Theorem swapped_run_raises `{Libraries} self sd s :
  subject_data self = Some sd ->
  ndim (data sd) = 4 ->
  nth 3 (shape (data sd)) 0 < nth 2 (shape (data sd)) 0 ->
  exists e s', analysis self s = (Raise e, s').
Proof.
  intros Hsd H4 Hlt.
  destruct (analysis self s) as [[[]|e] s'] eqn:Hrun.
  - exfalso. exact (swapped_run_never_returns self sd s s' Hsd H4 Hlt Hrun).
  - eauto.
Qed.

(** *** The keys a run writes *)

Definition analysis_keys : list string :=
  stat_keys ++ delta_keys ++ ["p_recall"; "recalled"].

(** [m] leaves every key outside [analysis_keys] as it was. *)
Definition keeps_other_keys {A} (m : M A) : Prop :=
  forall s o s', m s = (o, s') ->
    forall key, ~ In key analysis_keys -> res s' !! key = res s !! key.

Lemma keeps_effects {A} Q (m : M A) : effects Q m -> keeps_other_keys m.
Proof. intros Hm s o s' E key _. destruct (Hm _ _ _ E) as [-> _]. reflexivity. Qed.

Lemma keeps_print line : keeps_other_keys (print line).
Proof. intros s o s' E key _. inversion E; subst. reflexivity. Qed.

Lemma keeps_bind_post {A B} (Q : A -> Prop) (m : M A) (k : A -> M B) :
  (forall s a s', m s = (Return a, s') -> Q a) ->
  keeps_other_keys m -> (forall a, Q a -> keeps_other_keys (k a)) ->
  keeps_other_keys (bind m k).
Proof.
  intros HQ Hm Hk s o s' E key Hkey.
  apply bind_inv in E as [(e & Em & ->) | (a & s1 & Em & Ek)].
  - exact (Hm _ _ _ Em key Hkey).
  - rewrite (Hk a (HQ _ _ _ Em) _ _ _ Ek key Hkey). exact (Hm _ _ _ Em key Hkey).
Qed.

Lemma keeps_bind {A B} (m : M A) (k : A -> M B) :
  keeps_other_keys m -> (forall a, keeps_other_keys (k a)) -> keeps_other_keys (bind m k).
Proof. intros Hm Hk. apply (keeps_bind_post (fun _ => True)); auto. Qed.

Lemma keeps_store key v : In key analysis_keys -> keeps_other_keys (store key v).
Proof.
  intros Hin s o s' E key' Hkey'. inversion E; subst. simpl.
  apply lookup_insert_ne. intros ->. contradiction.
Qed.

Lemma keeps_store_denormalized key sw a i j :
  In key analysis_keys -> keeps_other_keys (store_denormalized key sw a i j).
Proof.
  intros Hin. unfold store_denormalized.
  apply keeps_bind; [apply (keeps_effects (fun _ => True)), effects_lift|].
  intros a'. apply keeps_store. exact Hin.
Qed.

Ltac key_listed := unfold analysis_keys, stat_keys, delta_keys; simpl; tauto.

Lemma keeps_per_event_contrast `{Libraries} sw recalled fits :
  keeps_other_keys (per_event_contrast sw recalled fits).
Proof.
  unfold per_event_contrast.
  do 6 (apply keeps_bind; [apply (keeps_effects (fun _ => True)), effects_lift | intros ?]).
  do 6 (apply keeps_bind; [apply keeps_store_denormalized; key_listed | intros _]).
  apply (keeps_effects (fun _ => True)), effects_ret.
Qed.

Lemma keeps_mean_only_contrast `{Libraries} fits :
  keeps_other_keys (mean_only_contrast fits).
Proof.
  unfold mean_only_contrast.
  do 3 (apply keeps_bind; [apply (keeps_effects (fun _ => True)), effects_lift | intros ?]).
  apply (keeps_effects (fun _ => True)), effects_ret.
Qed.

Lemma analysis_frame `{Libraries} self : keeps_other_keys (analysis self).
Proof.
  unfold analysis.
  apply keeps_bind;
    [destruct (subject_data self);
       [apply (keeps_effects (fun _ => True)), effects_ret | apply keeps_print]|].
  intros _.
  apply keeps_bind;
    [destruct (recall_filter_func self);
       [apply (keeps_effects (fun _ => True)), effects_ret | apply keeps_print]|].
  intros _.
  apply keeps_bind; [apply (keeps_effects (fun _ => True)), effects_lift|]. intros recalled.
  apply keeps_bind; [apply (keeps_effects (fun _ => True)), effects_lift|]. intros sd.
  apply keeps_bind; [apply (keeps_effects (fun _ => True)), effects_lift|]. intros normalized.
  cbv zeta.
  apply (keeps_bind_post
           (fun setup => fst (fst setup) = robust_reg \/ fst (fst setup) = run_foof));
    [|apply (keeps_effects (fun _ => True)), prepare_effects|].
  { intros s1 setup s2 E. eapply prepare_fitter; eauto. }
  intros setup Hfitter.
  apply keeps_bind; [apply (keeps_effects (fun _ => True)), effects_lift|]. intros units.
  apply keeps_bind.
  { apply (keeps_effects (fun _ => True)), effects_mapM.
    intros y _. apply fitter_effects. exact Hfitter. }
  intros fits.
  apply keeps_bind.
  { destruct (negb (use_fooof self) || use_fooof self && fooof_fit_each_event self);
      [apply keeps_per_event_contrast|].
    destruct (use_fooof self && negb (fooof_fit_each_event self));
      [apply keeps_mean_only_contrast|].
    apply (keeps_effects (fun _ => True)), effects_lift. }
  intros d.
  do 3 (apply keeps_bind; [apply keeps_store_denormalized; key_listed | intros _]).
  apply keeps_bind; [apply keeps_store; key_listed | intros _].
  apply keeps_store; key_listed.
Qed.

(** However a run of [analysis] ends, it has written to no key of
    [self.res] other than its eleven own: the six statistics, the three
    deltas, [p_recall] and [recalled]. *)
Theorem analysis_writes_only_its_keys `{Libraries} self s o s' key :
  analysis self s = (o, s') ->
  ~ In key analysis_keys ->
  res s' !! key = res s !! key.
Proof.
  intros Hrun Hkey. exact (analysis_frame self s o s' Hrun key Hkey).
Qed.

(** *** What a run that returns has stored *)

Definition count_true (m : list bool) : nat := length (filter (fun b => b = true) m).

Lemma Qc_of_nat_succ n : (1 + Qc_of_nat n)%Qc = Qc_of_nat (S n).
Proof.
  apply Qc_is_canon. unfold Qc_of_nat, Qc_of_Z, Qcplus, Q2Qc. cbn [this].
  rewrite !Qred_correct. unfold Qeq, Qplus, inject_Z. simpl. lia.
Qed.

Lemma nsum_indicator (m : list bool) :
  nsum (map (fun b : bool => Val (if b then 1 else 0)%Qc) m) = Val (Qc_of_nat (count_true m)).
Proof.
  induction m as [|b m IH]; [simpl; f_equal; apply Qc_is_canon; reflexivity|].
  change (nsum (map (fun b : bool => Val (if b then 1 else 0)%Qc) (b :: m)))
    with (nadd (Val (if b then 1 else 0)%Qc)
               (nsum (map (fun b : bool => Val (if b then 1 else 0)%Qc) m))).
  rewrite IH. unfold count_true. destruct b; simpl.
  - f_equal. apply Qc_of_nat_succ.
  - f_equal. apply Qcplus_0_l.
Qed.

(** [np.mean(recalled)] is the fraction of recalled events, and
    not-a-number when there is no event. *)
Lemma p_recall_fraction (m : list bool) :
  p_recall m = match m with
               | [] => NaN
               | _ :: _ => Val (Qc_of_nat (count_true m) / Qc_of_nat (length m))%Qc
               end.
Proof.
  unfold p_recall, mean_list. rewrite nsum_indicator, length_map.
  destruct m; reflexivity.
Qed.

(** A run of [analysis] that returns had its data and its filter, did not
    swap any axes, printed nothing, and has stored the three deltas, the
    labels and, as [p_recall], the fraction of recalled events
    (not-a-number when there are no events). *)
Theorem returning_run_stores_deltas `{Libraries} self s s' :
  analysis self s = (Return tt, s') ->
  exists g sd recalled dr ds do,
    recall_filter_func self = Some g /\
    subject_data self = Some sd /\
    g (Some sd) = Return recalled /\
    normalize (data sd) = Return (data sd, false) /\
    res s' !! "delta_resid" = Some (RArr dr) /\
    res s' !! "delta_slopes" = Some (RArr ds) /\
    res s' !! "delta_offsets" = Some (RArr do) /\
    res s' !! "p_recall" = Some (RNum (p_recall recalled)) /\
    res s' !! "recalled" = Some (RBools recalled) /\
    stdout s' = stdout s /\
    p_recall recalled
    = match recalled with
      | [] => NaN
      | _ :: _ => Val (Qc_of_nat (count_true recalled) / Qc_of_nat (length recalled))%Qc
      end.
Proof.
  intros Hrun. pose proof Hrun as Hrun0. unfold analysis in Hrun.
  destruct (subject_data self) as [sd|] eqn:Hsd.
  2:{ bind_returned Hrun u1 a1 H1. bind_returned Hrun u2 a2 H2.
      bind_returned Hrun recalled a3 H3. bind_returned Hrun sd' a4 H5.
      lift_returned H5. discriminate. }
  destruct (recall_filter_func self) as [g|] eqn:Hg.
  2:{ bind_returned Hrun u1 a1 H1. bind_returned Hrun u2 a2 H2.
      bind_returned Hrun recalled a3 H3. lift_returned H3. discriminate. }
  bind_returned Hrun u1 a1 H1. apply ret_inv in H1 as [_ ->].
  bind_returned Hrun u2 a2 H2. apply ret_inv in H2 as [_ ->].
  bind_returned Hrun recalled a3 H3. lift_returned H3.
  bind_returned Hrun sd' a4 H5. lift_returned H5. inversion H5; subst sd'. clear H5.
  bind_returned Hrun normalized a5 H6. lift_returned H6. destruct normalized as [q sw].
  assert (Hsw : sw = false /\ q = data sd).
  { unfold normalize in H6.
    destruct ((ndim (data sd) =? 4) && (nth 3 (shape (data sd)) 0 <? nth 2 (shape (data sd)) 0))
      eqn:Hcond.
    - exfalso. apply andb_true_iff in Hcond as [H4 Hlt].
      apply Nat.eqb_eq in H4. apply Nat.ltb_lt in Hlt.
      exact (swapped_run_never_returns self sd s s' Hsd H4 Hlt Hrun0).
    - inversion H6. auto. }
  destruct Hsw as [-> ->].
  bind_returned Hrun setup a6 H7.
  assert (Hs6 : res a6 = res s /\ stdout a6 = stdout s).
  { destruct (prepare_effects self sd recalled (data sd) _ _ _ H7) as (R & O & _). auto. }
  pose proof (prepare_fitter _ _ _ _ _ _ _ H7) as Hfitter.
  cbv zeta in Hrun. simpl fst in Hrun. simpl snd in Hrun.
  bind_returned Hrun units a8 H8. lift_returned H8.
  bind_returned Hrun fits s1 H9.
  assert (Hs1 : stdout s1 = stdout a6).
  { assert (Hm : effects (fun _ => True)
                   (mapM (fun y => fst (fst setup) (snd (fst setup)) (transpose y)) units)).
    { apply effects_mapM. intros y _. apply fitter_effects. exact Hfitter. }
    destruct (Hm _ _ _ H9) as (_ & O & _). exact O. }
  bind_returned Hrun d s2 H10.
  assert (Hs2 : stdout s2 = stdout s1).
  { destruct (negb (use_fooof self) || use_fooof self && fooof_fit_each_event self).
    - unfold per_event_contrast in H10.
      bind_returned H10 d2 b1 G1. lift_returned G1.
      bind_returned H10 d0 b2 G2. lift_returned G2.
      bind_returned H10 d1 b3 G3. lift_returned G3.
      bind_returned H10 t2 b4 G4. lift_returned G4.
      bind_returned H10 t0 b5 G5. lift_returned G5.
      bind_returned H10 t1 b6 G6. lift_returned G6.
      bind_returned H10 v1 c1 K1. apply store_denormalized_Return in K1 as (? & _ & ->).
      bind_returned H10 v2 c2 K2. apply store_denormalized_Return in K2 as (? & _ & ->).
      bind_returned H10 v3 c3 K3. apply store_denormalized_Return in K3 as (? & _ & ->).
      bind_returned H10 v4 c4 K4. apply store_denormalized_Return in K4 as (? & _ & ->).
      bind_returned H10 v5 c5 K5. apply store_denormalized_Return in K5 as (? & _ & ->).
      bind_returned H10 v6 c6 K6. apply store_denormalized_Return in K6 as (? & _ & ->).
      apply ret_inv in H10 as [_ ->]. reflexivity.
    - destruct (use_fooof self && negb (fooof_fit_each_event self)).
      + destruct (effects_bind (fun _ => True) _ _
                    (effects_lift _ (delta_mean_only 2 fits))
                    (fun dr => effects_bind (fun _ => True) _ _
                       (effects_lift _ (delta_mean_only 0 fits))
                       (fun ds => effects_bind (fun _ => True) _ _
                          (effects_lift _ (delta_mean_only 1 fits))
                          (fun do => effects_ret _ (dr, ds, do)))) _ _ _ H10)
          as (_ & O & _). exact O.
      + apply lift_inv in H10 as [H10 _]. discriminate. }
  bind_returned Hrun v7 c7 K7. apply store_denormalized_Return in K7 as (x7 & D7 & ->).
  bind_returned Hrun v8 c8 K8. apply store_denormalized_Return in K8 as (x8 & D8 & ->).
  bind_returned Hrun v9 c9 K9. apply store_denormalized_Return in K9 as (x9 & D9 & ->).
  bind_returned Hrun v10 c10 K10. inversion K10; subst. clear K10.
  inversion Hrun; subst. clear Hrun.
  exists g, sd, recalled, x7, x8, x9. simpl.
  repeat split; try reflexivity; try assumption; try (simplify_map_eq; reflexivity).
  - destruct Hs6. congruence.
  - apply p_recall_fraction.
Qed.

(** *** A power array without electrodes *)

(** With a last axis of length zero there is no unit to fit, and the
    stacking of the (empty) list of results raises: the run ends in
    [ValueError], in every mode, without a fit and without a trace in
    [self.res]. *)
Theorem no_electrodes_raises `{Libraries} self sd g recalled E F s :
  subject_data self = Some sd ->
  recall_filter_func self = Some g ->
  g (Some sd) = Return recalled ->
  shape (data sd) = [E; F; 0] ->
  length recalled = E ->
  analysis self s = (Raise ValueError, s).
Proof.
  intros Hsd Hg Hgr Hshape Hlen.
  set (p := if log_power self then exp10 (data sd) else data sd).
  assert (Hp : shape p = [E; F; 0]) by (unfold p; destruct (log_power self); exact Hshape).
  destruct (condition_means_Return p recalled E [F; 0] Hp Hlen) as (pm & Hpm & Hspm & _).
  assert (Hprep : exists f x q, prepare self sd recalled (data sd) s = (Return (f, x, q), s) /\
                                iterate (transpose q) = Return []).
  { unfold prepare. destruct (use_fooof self); cbn [negb].
    - destruct (fooof_fit_each_event self); cbn [negb].
      + eexists _, _, p. split; [reflexivity|].
        unfold iterate. rewrite shape_transpose, Hp. reflexivity.
      + eexists _, _, pm. split.
        * fold p. rewrite (bind_Return _ _ s pm s) by (unfold lift; rewrite Hpm; reflexivity).
          reflexivity.
        * unfold iterate. rewrite shape_transpose, Hspm. reflexivity.
    - eexists _, _, (data sd). split; [reflexivity|].
      unfold iterate. rewrite shape_transpose, Hshape. reflexivity. }
  destruct Hprep as (f & x & q & Hprep & Hunits).
  unfold analysis. rewrite Hsd, Hg, Hgr.
  rewrite (bind_Return _ _ s tt s) by reflexivity.
  rewrite (bind_Return _ _ s tt s) by reflexivity.
  rewrite (bind_Return _ _ s recalled s) by reflexivity.
  rewrite (bind_Return _ _ s sd s) by reflexivity.
  rewrite (bind_Return _ _ s (data sd, false) s)
    by (unfold normalize, ndim; rewrite Hshape; reflexivity).
  cbv zeta. simpl fst. simpl snd.
  rewrite (bind_Return _ _ s (f, x, q) s) by exact Hprep.
  simpl fst. simpl snd.
  rewrite (bind_Return _ _ s [] s) by (unfold lift; rewrite Hunits; reflexivity).
  rewrite (bind_Return _ _ s [] s) by reflexivity.
  apply bind_Raise.
  destruct (negb (use_fooof self) || use_fooof self && fooof_fit_each_event self) eqn:Hpe;
    [reflexivity|].
  destruct (use_fooof self && negb (fooof_fit_each_event self)) eqn:Hm; [reflexivity|].
  exfalso. destruct (use_fooof self), (fooof_fit_each_event self); discriminate.
Qed.

(** ** The fitters on batches without events *)

(** A batch without any axis makes both fitters raise at [y.shape[0]],
    before any fit.  A batch with an event axis of length zero makes them
    return at once: no fit is made, and the three arrays come back empty,
    the residuals with the shape of the batch. *)
Theorem fitters_on_batches_without_events `{Libraries} x y s :
  (shape y = [] ->
   robust_reg x y s = (Raise IndexError, s) /\ run_foof x y s = (Raise IndexError, s)) /\
  (forall sh, shape y = 0 :: sh ->
     exists b, robust_reg x y s = (Return b, s) /\ run_foof x y s = (Return b, s) /\
               shape (field 2 b) = 0 :: sh /\
               hd 1 (shape (field 0 b)) = 0 /\ hd 1 (shape (field 1 b)) = 0 /\
               ravel (field 0 b) = [] /\ ravel (field 1 b) = [] /\ ravel (field 2 b) = []).
Proof.
  split.
  - intros Hs. rewrite robust_reg_unfold, run_foof_unfold.
    unfold fit_batch, allocate, bind, lift. rewrite Hs. split; reflexivity.
  - intros sh Hs. rewrite robust_reg_unfold, run_foof_unfold.
    unfold fit_batch, allocate, iterate, bind, lift, ret, ndim. rewrite Hs.
    eexists. split; [reflexivity|]. split; [reflexivity|].
    cbn [field fst snd full_nan shape].
    split; [reflexivity|].
    destruct (length (0 :: sh) =? 3); repeat split; reflexivity.
Qed.

(** ** The plots *)

Lemma st_bind_inv {W A B} (m : ST W A) (k : A -> ST W B) w o w' :
  st_bind m k w = (o, w') ->
  (exists e, m w = (Err e, w') /\ o = Err e) \/
  (exists a w1, m w = (Ok a, w1) /\ k a w1 = (o, w')).
Proof.
  unfold st_bind. destruct (m w) as [[a|e] w1]; intros E.
  - right. eauto.
  - left. inversion E; subst. eauto.
Qed.

Lemma st_bind_Ok {W A B} (m : ST W A) (k : A -> ST W B) w a w1 :
  m w = (Ok a, w1) -> st_bind m k w = k a w1.
Proof. unfold st_bind. intros ->. reflexivity. Qed.

Lemma st_bind_Err {W A B} (m : ST W A) (k : A -> ST W B) w e w1 :
  m w = (Err e, w1) -> st_bind m k w = (Err e, w1).
Proof. unfold st_bind. intros ->. reflexivity. Qed.

(** [m] cannot return [bad] and leaves the results alone. *)
Definition never {A} (bad : A) (m : ST State A) : Prop :=
  forall s o s', m s = (o, s') -> o <> Ok bad /\ res s' = res s.

Lemma never_lift_bind {A B} (bad : B) (r : result A) (k : A -> ST State B) :
  (forall a, never bad (k a)) -> never bad (st_bind (st_lift r) k).
Proof.
  intros Hk s o s' E. apply st_bind_inv in E as [(e & Em & ->) | (a & s1 & Em & Ek)].
  - inversion Em; subst. split; [discriminate | reflexivity].
  - inversion Em; subst. exact (Hk a _ _ _ Ek).
Qed.

Lemma never_lookup_bind {B} (bad : B) key (k : resval -> ST State B) :
  (forall v, never bad (k v)) -> never bad (st_bind (lookup_res key) k).
Proof.
  intros Hk s o s' E. apply st_bind_inv in E as [(e & Em & ->) | (a & s1 & Em & Ek)];
    unfold lookup_res in Em; destruct (res s !! key); inversion Em; subst.
  - split; [discriminate | reflexivity].
  - exact (Hk _ _ _ _ Ek).
Qed.

Lemma never_missing_key {B} (bad : B) key (k : resval -> ST State B) s o s' :
  res s !! key = None ->
  st_bind (lookup_res key) k s = (o, s') -> o = Err (KeyError key) /\ s' = s.
Proof.
  intros Hkey E. unfold st_bind, lookup_res in E. rewrite Hkey in E.
  inversion E. auto.
Qed.

Section PlotProperties.
Context `{Plotting}.

(** [plot_spectra_average] reads [self.res['ts']] for its bottom panel.
    Without that key it never returns a figure: it returns [None] after a
    message, or it raises -- [KeyError] at the latest -- and it leaves
    [self.res] as it was. *)
Lemma plot_spectra_average_needs_ts self label c1 c2 s o s' :
  res s !! "ts" = None ->
  plot_spectra_average self label c1 c2 s = (o, s') ->
  o <> Ok Figure /\ res s' = res s.
Proof.
  intros Hts E. unfold plot_spectra_average in E.
  destruct (subject_data self) as [sd|].
  2:{ inversion E; subst. split; [discriminate | reflexivity]. }
  unfold st_bind at 1, st_get at 1 in E.
  destruct (decide (res s = ∅)).
  { inversion E; subst. split; [discriminate | reflexivity]. }
  destruct (negb _).
  { inversion E; subst. split; [discriminate | reflexivity]. }
  apply st_bind_inv in E as [(e & Em & ->) | (recalled & s1 & Em & E)].
  { unfold lookup_res in Em. destruct (res s !! "recalled"); inversion Em; subst.
    split; [discriminate | reflexivity]. }
  assert (s1 = s) as ->
    by (unfold lookup_res in Em; destruct (res s !! "recalled"); inversion Em; reflexivity).
  apply st_bind_inv in E as [(e & Em2 & ->) | (p_spect & s2 & Em2 & E)].
  { inversion Em2; subst. split; [discriminate | reflexivity]. }
  inversion Em2; subst s2.
  apply st_bind_inv in E as [(e & Em3 & ->) | (u & s3 & Em3 & E)].
  { inversion Em3; subst. split; [discriminate | reflexivity]. }
  inversion Em3; subst s3.
  apply (never_missing_key Figure) in E as [-> ->]; [|exact Hts].
  split; [discriminate | reflexivity].
Qed.

(** [plot_elec_heat_map] builds its data frame from [self.res['ts']].
    Without that key it never returns: it raises, and when the electrodes
    could be ordered the exception is [KeyError]. *)
Lemma plot_elec_heat_map_needs_ts self c1 c2 s :
  res s !! "ts" = None ->
  exists e, plot_elec_heat_map self c1 c2 s = (Err e, s) /\
            (forall order, electrode_order c1 c2 = Ok order -> e = KeyError "ts").
Proof.
  intros Hts. unfold plot_elec_heat_map.
  destruct (electrode_order c1 c2) as [order|e] eqn:Ho.
  - exists (KeyError "ts"). split; [|reflexivity].
    rewrite (st_bind_Ok _ _ s order s) by reflexivity.
    unfold st_bind, lookup_res. rewrite Hts. reflexivity.
  - exists e. split; [reflexivity | discriminate].
Qed.

End PlotProperties.

(** Neither plot can be made from the results of [analysis]: a run that
    started without the key [ts] ends without it (its t-statistics are
    stored as [ts_resid], [ts_slopes] and [ts_offsets]), so afterwards
    [plot_spectra_average] returns no figure and [plot_elec_heat_map]
    raises. *)
Theorem plots_fail_on_analysis_results `{Libraries} `{Plotting} self s0 o s :
  res s0 !! "ts" = None ->
  analysis self s0 = (o, s) ->
  (forall label c1 c2 o' s',
     plot_spectra_average self label c1 c2 s = (o', s') -> o' <> Ok Figure) /\
  (forall c1 c2, exists e, plot_elec_heat_map self c1 c2 s = (Err e, s)).
Proof.
  intros Hts Hrun.
  assert (Hts' : res s !! "ts" = None).
  { rewrite (analysis_frame self s0 o s Hrun "ts"); [exact Hts|].
    unfold analysis_keys, stat_keys, delta_keys. simpl.
    intros Hin. repeat (destruct Hin as [Hin | Hin]; [discriminate|]). exact Hin. }
  split.
  - intros label c1 c2 o' s' E.
    apply (plot_spectra_average_needs_ts self label c1 c2 s o' s' Hts' E).
  - intros c1 c2.
    destruct (plot_elec_heat_map_needs_ts self c1 c2 s Hts') as (e & He & _). eauto.
Qed.

(** ** Where the results are saved *)

Lemma list_ascii_app a b :
  String.list_ascii_of_string (a +:+ b)
  = String.list_ascii_of_string a ++ String.list_ascii_of_string b.
Proof. induction a as [|c a IH]; simpl; [reflexivity | rewrite IH; reflexivity]. Qed.

Lemma take_until_sep_app l r :
  existsb is_sep l = false -> take_until_sep (l ++ sep :: r) = l.
Proof.
  induction l as [|c l IH]; simpl; [reflexivity|].
  intros Hc. apply orb_false_iff in Hc as [Hc Hl]. rewrite Hc, IH by exact Hl. reflexivity.
Qed.

Lemma drop_until_sep_app l r :
  existsb is_sep l = false -> drop_until_sep (l ++ sep :: r) = sep :: r.
Proof.
  induction l as [|c l IH]; simpl; [reflexivity|].
  intros Hc. apply orb_false_iff in Hc as [Hc Hl]. rewrite Hc. apply IH. exact Hl.
Qed.

Lemma existsb_rev {A} (f : A -> bool) l : existsb f (rev l) = existsb f l.
Proof.
  induction l as [|a l IH]; simpl; [reflexivity|].
  rewrite existsb_app, IH. simpl. rewrite orb_false_r. apply orb_comm.
Qed.

Lemma rev_nonempty_string (a : string) :
  a <> ""%string ->
  exists d r, rev (String.list_ascii_of_string a) = d :: r.
Proof.
  intros Hne. destruct (rev (String.list_ascii_of_string a)) as [|d r] eqn:Hr; [|eauto].
  exfalso. apply Hne. apply (f_equal (@rev Ascii.ascii)) in Hr.
  rewrite rev_involutive in Hr. simpl in Hr. destruct a; [reflexivity | discriminate].
Qed.

(** The split of [parent/leaf] when [leaf] has no slash and [parent] is not
    empty and does not end with one. *)
Lemma path_split_parent_leaf parent leaf :
  parent <> ""%string -> ends_with_sep parent = false -> has_sep leaf = false ->
  path_split (parent +:+ "/" +:+ leaf) = (parent, leaf).
Proof.
  intros Hne Hend Hleaf. unfold path_split.
  rewrite !list_ascii_app. change (String.list_ascii_of_string "/") with [sep].
  rewrite !rev_app_distr. simpl rev at 2. rewrite <- !app_assoc. simpl app.
  unfold has_sep in Hleaf.
  rewrite take_until_sep_app, drop_until_sep_app by (rewrite existsb_rev; exact Hleaf).
  cbv zeta.
  change (rev (sep :: rev (String.list_ascii_of_string parent)))
    with (rev (rev (String.list_ascii_of_string parent)) ++ [sep]).
  rewrite !rev_involutive.
  unfold ends_with_sep in Hend.
  destruct (rev_nonempty_string parent Hne) as (c & r & Hr). rewrite Hr in Hend.
  assert (Hp : String.list_ascii_of_string parent = rev r ++ [c]).
  { apply (f_equal (@rev Ascii.ascii)) in Hr. rewrite rev_involutive in Hr. exact Hr. }
  assert (Hall : forallb is_sep (String.list_ascii_of_string parent ++ [sep]) = false).
  { rewrite Hp, <- app_assoc, forallb_app. simpl. rewrite Hend. simpl.
    apply andb_false_r. }
  rewrite Hall. simpl negb. cbv iota.
  unfold rstrip_sep. rewrite rev_app_distr. cbn [rev app].
  rewrite Hr. cbn [drop_seps].
  change (is_sep sep) with true. cbv iota. rewrite Hend.
  rewrite <- Hr, rev_involutive.
  rewrite !String.string_of_list_ascii_of_string. reflexivity.
Qed.

Lemma path_join_relative a b :
  a <> ""%string -> ends_with_sep a = false ->
  (forall c r, String.list_ascii_of_string b = c :: r -> is_sep c = false) ->
  path_join a b = (a +:+ "/" +:+ b).
Proof.
  intros Hne Hend Hb. unfold path_join. unfold ends_with_sep in Hend.
  destruct (rev_nonempty_string a Hne) as (d & r & Hr). rewrite Hr in *.
  rewrite Hend.
  destruct (String.list_ascii_of_string b) as [|c t] eqn:Eb; [reflexivity|].
  rewrite (Hb c t eq_refl). reflexivity.
Qed.

Lemma ends_with_sep_leaf parent leaf :
  leaf <> ""%string -> has_sep leaf = false ->
  ends_with_sep (parent +:+ "/" +:+ leaf) = false.
Proof.
  intros Hne Hleaf. unfold ends_with_sep.
  rewrite !list_ascii_app, !rev_app_distr.
  destruct (rev_nonempty_string leaf Hne) as (d & r & Hr). rewrite Hr. simpl.
  unfold has_sep in Hleaf. rewrite <- existsb_rev, Hr in Hleaf. simpl in Hleaf.
  apply orb_false_iff in Hleaf. apply Hleaf.
Qed.

Lemma app_string_nonempty a b : a <> ""%string -> (a +:+ b) <> ""%string.
Proof. destruct a; [contradiction | discriminate]. Qed.

(** The results directory takes the place of the last component of
    [save_dir], the part after its last slash.  When [save_dir] is written
    with a trailing slash that component is empty, and the results
    directory lies inside [save_dir], not beside it. *)
Theorem res_save_dir_replaces_last_component class_name parent leaf :
  parent <> ""%string -> ends_with_sep parent = false ->
  leaf <> ""%string -> has_sep leaf = false ->
  has_sep class_name = false ->
  generate_res_save_path class_name (Some (parent +:+ "/" +:+ leaf))
  = Return (parent +:+ "/" +:+ class_name +:+ "_res") /\
  generate_res_save_path class_name (Some ((parent +:+ "/" +:+ leaf) +:+ "/"))
  = Return ((parent +:+ "/" +:+ leaf) +:+ "/" +:+ class_name +:+ "_res").
Proof.
  intros Hne Hend Hleafne Hleaf Hcls.
  assert (Hb : forall c r, String.list_ascii_of_string (class_name +:+ "_res") = c :: r ->
                           is_sep c = false).
  { intros c r E. rewrite list_ascii_app in E. unfold has_sep in Hcls.
    destruct (String.list_ascii_of_string class_name) as [|c' r'].
    - simpl in E. inversion E. reflexivity.
    - simpl in E, Hcls. inversion E; subst. apply orb_false_iff in Hcls. apply Hcls. }
  split.
  - unfold generate_res_save_path.
    rewrite (path_split_parent_leaf parent leaf Hne Hend Hleaf). simpl fst.
    rewrite (path_join_relative parent _ Hne Hend Hb). reflexivity.
  - unfold generate_res_save_path.
    assert (Hne' : (parent +:+ "/" +:+ leaf) <> ""%string)
      by (apply app_string_nonempty; exact Hne).
    assert (Hend' : ends_with_sep (parent +:+ "/" +:+ leaf) = false)
      by (apply ends_with_sep_leaf; assumption).
    assert (Hsplit : path_split ((parent +:+ "/" +:+ leaf) +:+ "/")
                     = (parent +:+ "/" +:+ leaf, ""%string))
      by exact (path_split_parent_leaf (parent +:+ "/" +:+ leaf) "" Hne' Hend' eq_refl).
    rewrite Hsplit. simpl fst.
    rewrite (path_join_relative _ _ Hne' Hend' Hb). reflexivity.
Qed.

(** ** Loading and saving the data of a subject *)

Section DataBaseProperties.
Context `{DataBase.Environment}.

Definition printing (w : DataBase.DWorld) (line : string) : DataBase.DWorld :=
  {| DataBase.printed := DataBase.printed w ++ [line]; DataBase.fs := DataBase.fs w |}.

(** With [force_recompute] set and the file on disk, [load_data] prints
    that it is redoing the data and returns: nothing is loaded, nothing is
    computed, and neither the object nor the file system changes. *)
Theorem load_data_force_recompute_returns self name file w :
  DataBase.subject self = Some name ->
  DataBase.save_file self = Some file ->
  DataBase.path_exists (DataBase.fs w) file = true ->
  DataBase.force_recompute self = true ->
  DataBase.load_data self w
  = (Ok self, printing w (name +:+ ": subject_data exists, but redoing anyway.")).
Proof.
  intros Hs Hf Hex Hforce. unfold DataBase.load_data. rewrite Hs, Hf.
  unfold st_bind at 1, DataBase.exists_path at 1. rewrite Hex, Hforce. reflexivity.
Qed.

(** [do_not_compute] is only looked at when the file is missing: with the
    file on disk, not loaded ([load_data_if_file_exists] unset) and no data
    in memory, the data are computed although [do_not_compute] is set. *)
Theorem load_data_computes_despite_do_not_compute self name file w :
  DataBase.subject self = Some name ->
  DataBase.save_file self = Some file ->
  DataBase.path_exists (DataBase.fs w) file = true ->
  DataBase.force_recompute self = false ->
  DataBase.load_data_if_file_exists self = false ->
  DataBase.subject_data self = None ->
  DataBase.do_not_compute self = true ->
  DataBase.load_data self w
  = match DataBase.compute_data self (DataBase.fs w) with
    | (Ok d, f) =>
        (Ok (DataBase.set_subject_data self d),
         {| DataBase.printed := DataBase.printed w
                                ++ [name +:+ ": subject_data exists, but redoing anyway."];
            DataBase.fs := f |})
    | (Err e, f) =>
        (Err e,
         {| DataBase.printed := DataBase.printed w
                                ++ [name +:+ ": subject_data exists, but redoing anyway."];
            DataBase.fs := f |})
    end.
Proof.
  intros Hs Hf Hex Hforce Hload Hdata Hdnc. unfold DataBase.load_data. rewrite Hs, Hf.
  unfold st_bind at 1, DataBase.exists_path at 1. rewrite Hex, Hforce, Hload.
  cbn [negb]. unfold DataBase.compute_if_missing. rewrite Hdata.
  unfold st_bind, DataBase.put, DataBase.on_fs, st_ret, printing. simpl.
  destruct (DataBase.compute_data self (DataBase.fs w)) as [[d|e] f]; reflexivity.
Qed.

(** Data that are in memory are never computed again, whatever the flags:
    unless they are replaced by what is loaded from the file, [load_data]
    returns the object as it was and leaves the file system alone. *)
Theorem load_data_keeps_data_in_memory self name file d w :
  DataBase.subject self = Some name ->
  DataBase.save_file self = Some file ->
  DataBase.subject_data self = Some d ->
  DataBase.path_exists (DataBase.fs w) file = false \/
  DataBase.force_recompute self = true \/
  DataBase.load_data_if_file_exists self = false ->
  exists w', DataBase.load_data self w = (Ok self, w') /\
             DataBase.fs w' = DataBase.fs w.
Proof.
  intros Hs Hf Hdata Hcase. unfold DataBase.load_data. rewrite Hs, Hf.
  unfold st_bind at 1, DataBase.exists_path at 1.
  unfold DataBase.compute_if_missing. rewrite Hdata.
  destruct (DataBase.path_exists (DataBase.fs w) file) eqn:Hex.
  - destruct (DataBase.force_recompute self) eqn:Hforce; cbn [negb].
    + eexists. split; reflexivity.
    + destruct (DataBase.load_data_if_file_exists self) eqn:Hload.
      * destruct Hcase as [Hc | [Hc | Hc]]; discriminate.
      * eexists. split; reflexivity.
  - destruct (DataBase.do_not_compute self); eexists; split; reflexivity.
Qed.

(** The constructor leaves [save_file] unset, and nothing in the class
    sets it: on a new object with a subject, [load_data] raises at
    [os.path.exists(None)]; without a subject it prints and returns. *)
Theorem new_object_cannot_load task montage w :
  (forall name,
     DataBase.load_data (DataBase.init task (Some name) montage) w
     = (Err (Builtin TypeError), w)) /\
  DataBase.load_data (DataBase.init task None montage) w
  = (Ok (DataBase.init task None montage),
     printing w "Attributes subject and task must be set before loading data.").
Proof. split; [intros name|]; reflexivity. Qed.

Lemma ensure_dir_found path w :
  DataBase.path_exists (DataBase.fs w) path = true ->
  DataBase.ensure_dir path w = (Ok tt, w).
Proof.
  intros Hex. unfold DataBase.ensure_dir, st_bind, DataBase.exists_path.
  rewrite Hex. reflexivity.
Qed.

Lemma ensure_dir_failed path w f1 :
  DataBase.path_exists (DataBase.fs w) path = false ->
  DataBase.makedirs path (DataBase.fs w) = (Err OSError, f1) ->
  DataBase.ensure_dir path w
  = (Ok tt, {| DataBase.printed := DataBase.printed w; DataBase.fs := f1 |}).
Proof.
  intros Hex Hmk. unfold DataBase.ensure_dir, st_bind, DataBase.exists_path.
  rewrite Hex. unfold DataBase.try_makedirs, DataBase.on_fs. rewrite Hmk. reflexivity.
Qed.

(** Without data [save_data] prints and returns.  Without [save_file] it
    prints too, but goes on: with the two directories in place it calls
    [joblib.dump] with [None] as the file. *)
Theorem save_data_goes_on_without_save_file self dir w :
  (DataBase.subject_data self = None ->
   DataBase.save_data self w
   = (Ok tt, printing w "Data must be loaded before saving. Use .load_data()")) /\
  (forall d,
     DataBase.subject_data self = Some d ->
     DataBase.save_file self = None ->
     DataBase.save_dir self = Some dir ->
     DataBase.path_exists (DataBase.fs w) (fst (path_split dir)) = true ->
     DataBase.path_exists (DataBase.fs w) dir = true ->
     DataBase.save_data self w
     = (fst (DataBase.joblib_dump d None (DataBase.fs w)),
        {| DataBase.printed :=
             DataBase.printed w
             ++ [".save_file and .save_dir must be set before saving data."];
           DataBase.fs := snd (DataBase.joblib_dump d None (DataBase.fs w)) |})).
Proof.
  split.
  - intros Hd. unfold DataBase.save_data. rewrite Hd. reflexivity.
  - intros d Hd Hf Hdir Hp Hex. unfold DataBase.save_data. rewrite Hd, Hf, Hdir.
    set (w1 := printing w ".save_file and .save_dir must be set before saving data.").
    rewrite (st_bind_Ok _ _ w tt w1) by reflexivity.
    rewrite (st_bind_Ok _ _ w1 tt w1 (ensure_dir_found _ w1 Hp)).
    rewrite (st_bind_Ok _ _ w1 tt w1 (ensure_dir_found _ w1 Hex)).
    unfold DataBase.on_fs, w1, printing. cbn [DataBase.fs DataBase.printed].
    destruct (DataBase.joblib_dump d None (DataBase.fs w)) as [r f]. reflexivity.
Qed.

(** An [OSError] of [os.makedirs] is dropped: when the parent directory is
    missing and cannot be made, [save_data] goes on to the directory
    itself and to [joblib.dump] as if nothing had happened. *)
Theorem save_data_drops_makedirs_failure self d file dir w f1 :
  DataBase.subject_data self = Some d ->
  DataBase.save_file self = Some file ->
  DataBase.save_dir self = Some dir ->
  DataBase.path_exists (DataBase.fs w) (fst (path_split dir)) = false ->
  DataBase.makedirs (fst (path_split dir)) (DataBase.fs w) = (Err OSError, f1) ->
  DataBase.path_exists f1 dir = true ->
  DataBase.save_data self w
  = (fst (DataBase.joblib_dump d (Some file) f1),
     {| DataBase.printed := DataBase.printed w;
        DataBase.fs := snd (DataBase.joblib_dump d (Some file) f1) |}).
Proof.
  intros Hd Hf Hdir Hp Hmk Hex. unfold DataBase.save_data. rewrite Hd, Hf, Hdir.
  rewrite (st_bind_Ok _ _ w tt w) by reflexivity.
  set (w1 := {| DataBase.printed := DataBase.printed w; DataBase.fs := f1 |}).
  rewrite (st_bind_Ok _ _ w tt w1 (ensure_dir_failed _ w f1 Hp Hmk)).
  rewrite (st_bind_Ok _ _ w1 tt w1 (ensure_dir_found _ w1 Hex)).
  unfold DataBase.on_fs, w1. cbn [DataBase.fs DataBase.printed].
  destruct (DataBase.joblib_dump d (Some file) f1) as [r f]. reflexivity.
Qed.

End DataBaseProperties.

(** ** The registry of analyses and the pipeline *)

Definition telling (w : World) (line : string) : World :=
  {| out := out w ++ [line]; attrs := attrs w; heap := heap w |}.

(** The [res] attribute of the object at an address. *)
Definition res_attr (w : World) (a : nat) : option value :=
  match attrs w !! a with
  | Some obj => obj !! "res"
  | None => None
  end.

Lemma registry_lookup_Err d name e : registry_lookup d name = Err e -> e = KeyError name.
Proof.
  induction d as [|[k c] d IH]; simpl.
  - intros E. inversion E. reflexivity.
  - destruct (String.eqb k name); [discriminate | exact IH].
Qed.

Section RegistryProperties.
Context `{Registry}.

Lemma print_listing_returns d w : exists w', print_listing d w = (Ok tt, w').
Proof.
  revert w. induction d as [|[n c] d IH]; intros w; simpl.
  - eexists. reflexivity.
  - rewrite (st_bind_Ok (tell (n +:+ newline +:+ class_doc c)) _ w tt
               (telling w (n +:+ newline +:+ class_doc c)) eq_refl).
    apply IH.
Qed.

Lemma create_subject_unknown task subject montage name w :
  registry_lookup analysis_dict name = Err (KeyError name) ->
  create_subject task subject montage (Some name) w
  = (Ok None, telling w (key_repr name +:+ " is not a valid analysis name.")).
Proof.
  intros Hl. unfold create_subject, st_bind at 1, st_lift. rewrite Hl. reflexivity.
Qed.

(** [create_subject] never raises [KeyError]: a name that is not in the
    registry, and just as well a [KeyError] raised inside the constructor
    of a registered class, end in the message that the name is not valid
    and in the result [None]. *)
Theorem create_subject_reports_every_KeyError task subject montage :
  (forall name w o w',
     create_subject task subject montage name w = (o, w') ->
     forall k, o <> Err (KeyError k)) /\
  (forall name w,
     registry_lookup analysis_dict name = Err (KeyError name) ->
     create_subject task subject montage (Some name) w
     = (Ok None, telling w (key_repr name +:+ " is not a valid analysis name."))) /\
  (forall name c k w w1,
     registry_lookup analysis_dict name = Ok c ->
     construct c task subject montage w = (Err (KeyError k), w1) ->
     create_subject task subject montage (Some name) w
     = (Ok None, telling w1 (key_repr k +:+ " is not a valid analysis name."))).
Proof.
  split; [|split].
  - intros [name|] w o w' E k Hk; subst o.
    + unfold create_subject in E.
      destruct ((c <~ st_lift (registry_lookup analysis_dict name);;
                 construct c task subject montage) w) as [[a|[key| |e]] w1];
        inversion E.
    + unfold create_subject in E.
      rewrite (st_bind_Ok (tell _) _ w tt
                 (telling w ("You must enter one of the following as an analysis_name:"
                             +:+ newline)) eq_refl) in E.
      destruct (print_listing_returns analysis_dict
                  (telling w ("You must enter one of the following as an analysis_name:"
                              +:+ newline))) as [w1 Hw1].
      rewrite (st_bind_Ok _ _ _ tt w1 Hw1) in E. inversion E.
  - intros name w Hl. apply create_subject_unknown. exact Hl.
  - intros name c k w w1 Hl Hc. unfold create_subject, st_bind at 1, st_lift.
    rewrite Hl, Hc. reflexivity.
Qed.

(** A pipeline whose constructor returned at one of its two checks has no
    attributes, and its [run] raises [AttributeError]. *)
Theorem pipeline_init_checks task subject montage w :
  (forall names params,
     names = None \/ params = None ->
     pipeline_init task subject montage names params w
     = (Ok Bare,
        telling w "Both analysis_name_list and analysis_params_list must be entered.")) /\
  (forall names params,
     length names <> length params ->
     pipeline_init task subject montage (Some names) (Some params) w
     = (Ok Bare,
        telling w "Both analysis_name_list and analysis_params_list must be the same length.")) /\
  (forall w0, exists w1, pipeline_run Bare w0 = (Err (Builtin AttributeError), w1)).
Proof.
  split; [|split].
  - intros names params [-> | ->]; [|destruct names]; reflexivity.
  - intros names params Hlen. unfold pipeline_init.
    apply Nat.eqb_neq in Hlen. rewrite Hlen. reflexivity.
  - intros w0. eexists. reflexivity.
Qed.

(** A name that is not registered does not stop the constructor of a
    pipeline when its parameters are empty: the list of analyses gets
    [None] in its place, and [run] raises [AttributeError].  With a
    parameter to set, the constructor itself raises [AttributeError]. *)
Theorem pipeline_with_unknown_name task subject montage name w :
  registry_lookup analysis_dict name = Err (KeyError name) ->
  (exists p w1,
     pipeline_init task subject montage (Some [name]) (Some [[]]) w = (Ok (Ready p), w1) /\
     p_analyses p = [None] /\
     forall w2, exists w3, pipeline_run (Ready p) w2 = (Err (Builtin AttributeError), w3)) /\
  (forall key v rest, exists w1,
     pipeline_init task subject montage (Some [name]) (Some [(key, v) :: rest]) w
     = (Err (Builtin AttributeError), w1)).
Proof.
  intros Hl.
  set (w1 := telling w (key_repr name +:+ " is not a valid analysis name.")).
  pose proof (create_subject_unknown task subject montage name w Hl) as Hcs.
  fold w1 in Hcs. split.
  - assert (Hca : create_analyses task subject montage [(name, [])] w = (Ok [None], w1)).
    { cbn [create_analyses]. rewrite (st_bind_Ok _ _ w None w1 Hcs). reflexivity. }
    unfold pipeline_init. cbn [length Nat.eqb negb combine].
    rewrite (st_bind_Ok _ _ w [None] w1 Hca).
    eexists _, _. split; [reflexivity|]. split; [reflexivity|].
    intros w2. eexists. reflexivity.
  - intros key v rest. unfold pipeline_init.
    cbn [length Nat.eqb negb combine create_analyses].
    exists w1. apply st_bind_Err.
    rewrite (st_bind_Ok _ _ w None w1 Hcs). reflexivity.
Qed.

(** [run] of a pipeline without analyses makes [self.res] a new, empty
    dictionary and changes nothing else. *)
Theorem empty_pipeline_gets_new_dict p w :
  p_analyses p = [] ->
  exists r p',
    pipeline_run (Ready p) w
    = (Ok (Ready p'), {| out := out w; attrs := attrs w; heap := <[r := ∅]> (heap w) |}) /\
    p_res p' = VDict r /\ heap w !! r = None /\ p_analyses p' = [].
Proof.
  intros Hp. exists (fresh (dom (heap w))). eexists. split; [|split; [|split]].
  - unfold pipeline_run. rewrite Hp. reflexivity.
  - reflexivity.
  - apply not_elem_of_dom. apply is_fresh.
  - reflexivity.
Qed.

(** *** Every analysis ends up with the results of the first *)

Hypothesis run_keeps_res :
  forall a w w', run_method a w = (Ok tt, w') -> forall b, res_attr w' b = res_attr w b.

Lemma get_res_Ok analysis w v w' :
  get_res analysis w = (Ok v, w') ->
  exists a, analysis = Some a /\ res_attr w a = Some v /\ w' = w.
Proof.
  unfold get_res. destruct analysis as [a|]; [|discriminate].
  destruct (attrs w !! a) as [obj|] eqn:Ho; [|discriminate].
  destruct (obj !! "res") as [v'|] eqn:Hv; [|discriminate].
  intros E. inversion E; subst. exists a. unfold res_attr. rewrite Ho.
  split; [reflexivity|]. split; [exact Hv | reflexivity].
Qed.

Lemma set_res_Ok a prev w :
  exists w', set_res (Some a) prev w = (Ok tt, w') /\
             res_attr w' a = Some prev /\
             forall b, b <> a -> res_attr w' b = res_attr w b.
Proof.
  eexists. split; [reflexivity|]. unfold res_attr. simpl. split.
  - rewrite lookup_insert_eq. apply lookup_insert_eq.
  - intros b Hb. rewrite lookup_insert_ne by congruence. reflexivity.
Qed.

Lemma run_loop_shares analyses : forall n prev w v w',
  0 < n ->
  run_loop n analyses prev w = (Ok v, w') ->
  v = prev /\
  (forall b, res_attr w b = Some prev -> res_attr w' b = Some prev) /\
  Forall (fun x => exists b, x = Some b /\ res_attr w' b = Some prev) analyses.
Proof.
  induction analyses as [|analysis rest IH]; intros n prev w v w' Hn E.
  - inversion E; subst. auto.
  - cbn [run_loop] in E. apply Nat.ltb_lt in Hn. rewrite Hn in E.
    apply st_bind_inv in E as [(e & _ & He) | (u1 & w1 & Hset & E)]; [discriminate|].
    destruct analysis as [a|]; [|discriminate].
    destruct (set_res_Ok a prev w) as (w1' & Hset' & Ha & Hframe).
    rewrite Hset' in Hset. inversion Hset; subst w1'. clear Hset.
    apply st_bind_inv in E as [(e & _ & He) | (u2 & w2 & Hrun & E)]; [discriminate|].
    destruct u2. cbn [call_run] in Hrun.
    pose proof (run_keeps_res a w1 w2 Hrun) as Hkeep.
    apply st_bind_inv in E as [(e & _ & He) | (v1 & w3 & Hget & E)]; [discriminate|].
    apply get_res_Ok in Hget as (a' & Ea & Hv1 & ->). inversion Ea; subst a'.
    assert (v1 = prev) as -> by (rewrite Hkeep, Ha in Hv1; congruence).
    destruct (IH (S n) prev w2 v w' ltac:(lia) E) as (-> & Hmono & Hall).
    assert (Hstep : forall b, res_attr w b = Some prev -> res_attr w2 b = Some prev).
    { intros b Hb. rewrite Hkeep. destruct (Nat.eq_dec b a) as [->|Hne]; [exact Ha|].
      rewrite Hframe by exact Hne. exact Hb. }
    split; [reflexivity|]. split; [auto|].
    constructor; [|exact Hall].
    exists a. split; [reflexivity|]. apply Hmono. rewrite Hkeep. exact Ha.
Qed.

(** When the [run] methods change the contents of [res] but never bind
    the attribute to another object, a [run] of the pipeline that returns
    leaves every analysis, and the pipeline itself, with one and the same
    object as [res]: the one the first analysis had from the start. *)
Theorem pipeline_run_shares_first_result p first rest w self' w' :
  p_analyses p = first :: rest ->
  pipeline_run (Ready p) w = (Ok self', w') ->
  exists p' a v0,
    self' = Ready p' /\ first = Some a /\ res_attr w a = Some v0 /\
    p_res p' = v0 /\
    Forall (fun x => exists b, x = Some b /\ res_attr w' b = Some v0) (p_analyses p).
Proof.
  intros Hp E. unfold pipeline_run in E. rewrite Hp in E.
  apply st_bind_inv in E as [(e & _ & He) | (d & w0 & Hnew & E)]; [discriminate|].
  assert (Hattrs : forall b, res_attr w0 b = res_attr w b)
    by (inversion Hnew; subst; reflexivity).
  apply st_bind_inv in E as [(e & _ & He) | (v & w1 & Hloop & E)]; [discriminate|].
  inversion E; subst self' w1. clear E.
  cbn [run_loop] in Hloop. cbn [Nat.ltb Nat.leb] in Hloop.
  rewrite (st_bind_Ok _ _ w0 tt w0) in Hloop by reflexivity.
  apply st_bind_inv in Hloop as [(e & _ & He) | (u2 & w2 & Hrun & Hloop)]; [discriminate|].
  destruct first as [a|]; [|discriminate]. destruct u2. cbn [call_run] in Hrun.
  pose proof (run_keeps_res a w0 w2 Hrun) as Hkeep.
  apply st_bind_inv in Hloop as [(e & _ & He) | (v0 & w3 & Hget & Hloop)]; [discriminate|].
  apply get_res_Ok in Hget as (a' & Ea & Hv0 & ->). inversion Ea; subst a'.
  destruct (run_loop_shares rest 1 v0 w2 v w' ltac:(lia) Hloop) as (-> & Hmono & Hall).
  eexists _, a, v0. split; [reflexivity|]. split; [reflexivity|].
  split; [rewrite <- Hattrs, <- Hkeep; exact Hv0|].
  split; [reflexivity|].
  rewrite Hp. constructor; [|exact Hall].
  exists a. split; [reflexivity|]. apply Hmono. exact Hv0.
Qed.

End RegistryProperties.

(** ** The per-event runs on an example *)

Lemma robust_regression_run_3d_witness :
  exists s',
    @analysis level_libs (example_self power_3d [true; false; true] false false false)
      initial_state = (Return tt, s') /\
    fit_log s' = fit_log initial_state
                 ++ flat_map (fun c => map (subarray (unit_of power_3d c)) (seq 0 3))
                      (seq 0 2) /\
    stdout s' = stdout initial_state /\
    @per_event_results level_libs [true; false; true] 2 2
      (fun c i => level_fit 2 (subarray (unit_of power_3d c) i)) s'.
Proof.
  apply (@robust_regression_run_3d level_libs
           (example_self power_3d [true; false; true] false false false)
           {| data := power_3d |} (fun _ => Return [true; false; true])
           [true; false; true] 3 2 2
           (fun c i => level_fit 2 (subarray (unit_of power_3d c) i)) initial_state);
    try reflexivity; try lia.
  intros c i Hc Hi. split; reflexivity.
Defined.

Lemma fooof_each_event_run_3d_witness :
  exists s',
    @analysis level_libs (example_self power_3d [true; false; true] true true false)
      initial_state = (Return tt, s') /\
    fit_log s' = fit_log initial_state
                 ++ flat_map (fun c => map (subarray (unit_of power_3d c)) (seq 0 3))
                      (seq 0 2) /\
    stdout s' = stdout initial_state /\
    @per_event_results level_libs [true; false; true] 2 2
      (fun c i => level_fit 2 (subarray (unit_of power_3d c) i)) s'.
Proof.
  apply (@fooof_each_event_run_3d level_libs
           (example_self power_3d [true; false; true] true true false)
           {| data := power_3d |} (fun _ => Return [true; false; true])
           [true; false; true] 3 2 2
           (fun c i => level_fit 2 (subarray (unit_of power_3d c) i)) initial_state);
    try reflexivity; try lia.
  intros c i Hc Hi. split; reflexivity.
Defined.

(** ** The ticks on examples *)

(** A top frequency of 10 gives the ticks 1, 2, 4, 8, 16. *)
Lemma pow_two_series_covers_integer_part_witness :
  exists b : nat,
    compute_pow_two_series (self_with_freqs [Qc_of_int 3; Qc_of_int 10])
    = Return (powers_upto b) /\
    (int_of (Qc_of_int 10) <= 2 ^ Z.of_nat b)%Z /\
    forall k : nat, (int_of (Qc_of_int 10) <= 2 ^ Z.of_nat k)%Z -> b <= k.
Proof.
  apply (pow_two_series_covers_integer_part
           (self_with_freqs [Qc_of_int 3; Qc_of_int 10]) (Qc_of_int 10)).
  - reflexivity.
  - vm_compute. split; discriminate.
Defined.

(** A top frequency of 8.5 gives the ticks 1, 2, 4, 8. *)
Lemma pow_two_series_stops_at_top_witness :
  compute_pow_two_series (self_with_freqs [Qc_of_int 1; eight_and_a_half])
  = Return [1; 2; 4; 8]%Z /\
  List.last (powers_upto 3) 0%Z = 8%Z.
Proof.
  apply (pow_two_series_stops_at_top
           (self_with_freqs [Qc_of_int 1; eight_and_a_half]) eight_and_a_half 3).
  - reflexivity.
  - lia.
  - vm_compute. discriminate.
  - vm_compute. reflexivity.
Defined.

(** A top frequency of one half gives ticks that start at 1. *)
Lemma pow_two_series_starts_at_one_witness :
  exists rest, compute_pow_two_series (self_with_freqs [Q2Qc (1 # 2)])
               = Return (1%Z :: rest).
Proof.
  apply (proj2 (pow_two_series_starts_at_one (self_with_freqs [Q2Qc (1 # 2)]))
           (Q2Qc (1 # 2))).
  - reflexivity.
  - vm_compute. reflexivity.
Defined.

(** ** Further runs on examples *)

Lemma robust_regression_run_4d_witness :
  exists s',
    @analysis level_libs (example_self power_4d [true; false] false false false)
      initial_state = (Return tt, s') /\
    fit_log s' = fit_log initial_state
                 ++ flat_map (fun t =>
                      flat_map (fun i => map (spectrum (unit_of power_4d t) i) (seq 0 1))
                        (seq 0 2))
                      (seq 0 2) /\
    stdout s' = stdout initial_state /\
    @per_event_results_4d level_libs [true; false] 2 1 2
      (fun t i c => level_fit 2 (spectrum (unit_of power_4d t) i c)) s'.
Proof.
  apply (@robust_regression_run_4d level_libs
           (example_self power_4d [true; false] false false false)
           {| data := power_4d |} (fun _ => Return [true; false])
           [true; false] 2 2 1 2
           (fun t i c => level_fit 2 (spectrum (unit_of power_4d t) i c)) initial_state);
    try reflexivity; try lia.
  intros t i c Ht Hi Hc. split; reflexivity.
Defined.

Definition example_means : ndarray :=
  match condition_means power_3d [true; false; true] with
  | Return a => a
  | Raise _ => full_nan []
  end.

Lemma fooof_mean_only_run_3d_witness :
  exists pm s',
    (forall i m c, i < 2 ->
       item (subarray (unit_of pm c) i) [m]
       = mean_list (map (fun e => item power_3d [e; m; c])
                        (events_of [true; false; true] (i =? 0)))) /\
    @analysis level_libs (example_self power_3d [true; false; true] true false false)
      initial_state = (Return tt, s') /\
    fit_log s' = fit_log initial_state
                 ++ flat_map (fun c => [subarray (unit_of pm c) 0; subarray (unit_of pm c) 1])
                      (seq 0 2) /\
    Forall (fun key => res s' !! key = res initial_state !! key) stat_keys /\
    holds s' "delta_resid" [2; 2]
      (fun idx => match idx with
                  | [m; c] =>
                      nsub (nth m (curve (level_fit 2 (subarray (unit_of example_means c) 0))) NaN)
                           (nth m (curve (level_fit 2 (subarray (unit_of example_means c) 1))) NaN)
                  | _ => NaN
                  end) /\
    holds s' "delta_slopes" [2]
      (fun idx => match idx with
                  | [c] => nsub (param1 (level_fit 2 (subarray (unit_of example_means c) 0)))
                                (param1 (level_fit 2 (subarray (unit_of example_means c) 1)))
                  | _ => NaN
                  end) /\
    holds s' "delta_offsets" [2]
      (fun idx => match idx with
                  | [c] => nsub (param0 (level_fit 2 (subarray (unit_of example_means c) 0)))
                                (param0 (level_fit 2 (subarray (unit_of example_means c) 1)))
                  | _ => NaN
                  end).
Proof.
  apply (@fooof_mean_only_run_3d level_libs
           (example_self power_3d [true; false; true] true false false)
           {| data := power_3d |} (fun _ => Return [true; false; true])
           [true; false; true] 3 2 2
           (fun c i => level_fit 2 (subarray (unit_of example_means c) i)) initial_state);
    try reflexivity; try lia.
  intros pm c i Hpm Hc Hi.
  assert (pm = example_means) as ->.
  { unfold example_means. simpl in Hpm. rewrite Hpm. reflexivity. }
  split; reflexivity.
Defined.

Lemma swapped_run_raises_witness :
  exists e s',
    @analysis level_libs (example_self (cycle3 [2; 2; 3; 2]) [true; false] false false false)
      initial_state = (Raise e, s').
Proof.
  apply (@swapped_run_raises level_libs
           (example_self (cycle3 [2; 2; 3; 2]) [true; false] false false false)
           {| data := cycle3 [2; 2; 3; 2] |} initial_state);
    [reflexivity | reflexivity | simpl; lia].
Defined.

(** A result dictionary in which another analysis has left its [ts]. *)
Definition with_ts : State :=
  {| res := {["ts" := RNum NaN]}; stdout := []; fit_log := [] |}.

Lemma analysis_writes_only_its_keys_witness :
  res (snd (@analysis level_libs
              (example_self power_3d [true; false; true] false false false) with_ts))
    !! "ts"
  = res with_ts !! "ts".
Proof.
  apply (@analysis_writes_only_its_keys level_libs
           (example_self power_3d [true; false; true] false false false) with_ts
           (fst (@analysis level_libs
                   (example_self power_3d [true; false; true] false false false) with_ts))).
  - apply surjective_pairing.
  - unfold analysis_keys, stat_keys, delta_keys. simpl.
    intros Hin. repeat (destruct Hin as [Hin | Hin]; [discriminate|]). exact Hin.
Defined.

Lemma no_electrodes_raises_witness :
  @analysis level_libs (example_self (cycle3 [2; 2; 0]) [true; false] true false false)
    initial_state
  = (Raise ValueError, initial_state).
Proof.
  apply (@no_electrodes_raises level_libs
           (example_self (cycle3 [2; 2; 0]) [true; false] true false false)
           {| data := cycle3 [2; 2; 0] |} (fun _ => Return [true; false])
           [true; false] 2 2 initial_state); reflexivity.
Defined.

Lemma fitters_on_batches_without_events_witness :
  exists b,
    @robust_reg level_libs (@design_matrix level_libs two_freqs) (cycle3 [0; 2])
      initial_state = (Return b, initial_state) /\
    @run_foof level_libs (@design_matrix level_libs two_freqs) (cycle3 [0; 2])
      initial_state = (Return b, initial_state) /\
    shape (field 2 b) = [0; 2] /\
    hd 1 (shape (field 0 b)) = 0 /\ hd 1 (shape (field 1 b)) = 0 /\
    ravel (field 0 b) = [] /\ ravel (field 1 b) = [] /\ ravel (field 2 b) = [].
Proof.
  apply (proj2 (@fitters_on_batches_without_events level_libs
                  (@design_matrix level_libs two_freqs) (cycle3 [0; 2]) initial_state)
           [2]).
  reflexivity.
Defined.

Lemma returning_run_stores_deltas_witness :
  exists s' g sd recalled dr ds do,
    @analysis level_libs (example_self power_3d [true; false; true] false false false)
      initial_state = (Return tt, s') /\
    recall_filter_func (example_self power_3d [true; false; true] false false false)
    = Some g /\
    subject_data (example_self power_3d [true; false; true] false false false) = Some sd /\
    g (Some sd) = Return recalled /\
    normalize (data sd) = Return (data sd, false) /\
    res s' !! "delta_resid" = Some (RArr dr) /\
    res s' !! "delta_slopes" = Some (RArr ds) /\
    res s' !! "delta_offsets" = Some (RArr do) /\
    res s' !! "p_recall" = Some (RNum (p_recall recalled)) /\
    res s' !! "recalled" = Some (RBools recalled) /\
    stdout s' = stdout initial_state /\
    p_recall recalled
    = match recalled with
      | [] => NaN
      | _ :: _ => Val (Qc_of_nat (count_true recalled) / Qc_of_nat (length recalled))%Qc
      end.
Proof.
  destruct (@per_event_run level_libs
              (example_self power_3d [true; false; true] false false false)
              {| data := power_3d |} (fun _ => Return [true; false; true])
              [true; false; true] 3 2 2
              (fun c i => level_fit 2 (subarray (unit_of power_3d c) i))
              (fun d => @RLM_fit level_libs d (@design_matrix level_libs two_freqs))
              (@design_matrix level_libs two_freqs) power_3d (@robust_reg level_libs))
    with (s := initial_state) as (s' & Hrun & _);
    try reflexivity; try lia.
  - intros y. exists (fun d => d). reflexivity.
  - intros c i Hc Hi. split; reflexivity.
  - exists s'.
    destruct (@returning_run_stores_deltas level_libs
                (example_self power_3d [true; false; true] false false false)
                initial_state s' Hrun)
      as (g & sd & recalled & dr & ds & do & Hrest).
    exists g, sd, recalled, dr, ds, do. split; [exact Hrun | exact Hrest].
Defined.

(** ** The plots, the paths, the data and the pipeline on examples *)

Lemma plots_fail_on_analysis_results_witness :
  (forall label c1 c2 o' s',
     @plot_spectra_average quiet_plotting
       (example_self power_3d [true; false; true] false false false) label c1 c2
       (snd (@analysis level_libs
               (example_self power_3d [true; false; true] false false false) initial_state))
     = (o', s') ->
     o' <> Ok Figure) /\
  (forall c1 c2, exists e,
     @plot_elec_heat_map quiet_plotting
       (example_self power_3d [true; false; true] false false false) c1 c2
       (snd (@analysis level_libs
               (example_self power_3d [true; false; true] false false false) initial_state))
     = (Err e,
        snd (@analysis level_libs
               (example_self power_3d [true; false; true] false false false) initial_state))).
Proof.
  apply (@plots_fail_on_analysis_results level_libs quiet_plotting
           (example_self power_3d [true; false; true] false false false) initial_state
           (fst (@analysis level_libs
                   (example_self power_3d [true; false; true] false false false)
                   initial_state))).
  - reflexivity.
  - apply surjective_pairing.
Defined.

Lemma res_save_dir_replaces_last_component_witness :
  generate_res_save_path "SubjectFitSpectraAnalysis" (Some "/scratch/jdoe/python/FR1/R1001P")
  = Return "/scratch/jdoe/python/FR1/SubjectFitSpectraAnalysis_res"%string /\
  generate_res_save_path "SubjectFitSpectraAnalysis" (Some "/scratch/jdoe/python/FR1/R1001P/")
  = Return "/scratch/jdoe/python/FR1/R1001P/SubjectFitSpectraAnalysis_res"%string.
Proof.
  apply (res_save_dir_replaces_last_component "SubjectFitSpectraAnalysis"
           "/scratch/jdoe/python/FR1" "R1001P");
    try reflexivity; discriminate.
Defined.

Lemma load_data_force_recompute_returns_witness :
  @DataBase.load_data listed_files
    (example_object None (Some "results/R1001P.p"%string) true false true)
    (disk ["results/R1001P.p"%string])
  = (Ok (example_object None (Some "results/R1001P.p"%string) true false true),
     @printing listed_files (disk ["results/R1001P.p"%string])
       "R1001P: subject_data exists, but redoing anyway.").
Proof.
  apply (@load_data_force_recompute_returns listed_files
           (example_object None (Some "results/R1001P.p"%string) true false true)
           "R1001P" "results/R1001P.p" (disk ["results/R1001P.p"%string]));
    reflexivity.
Defined.

Lemma load_data_computes_despite_do_not_compute_witness :
  @DataBase.load_data listed_files
    (example_object None (Some "results/R1001P.p"%string) false true false)
    (disk ["results/R1001P.p"%string])
  = (Ok (DataBase.set_subject_data
           (example_object None (Some "results/R1001P.p"%string) false true false)
           (Some {| data := batch_a |})),
     @printing listed_files (disk ["results/R1001P.p"%string])
       "R1001P: subject_data exists, but redoing anyway.").
Proof.
  apply (@load_data_computes_despite_do_not_compute listed_files
           (example_object None (Some "results/R1001P.p"%string) false true false)
           "R1001P" "results/R1001P.p" (disk ["results/R1001P.p"%string]));
    reflexivity.
Defined.

Lemma load_data_keeps_data_in_memory_witness :
  exists w',
    @DataBase.load_data listed_files
      (example_object (Some {| data := power_3d |}) (Some "results/R1001P.p"%string)
         true false true)
      (disk [])
    = (Ok (example_object (Some {| data := power_3d |}) (Some "results/R1001P.p"%string)
             true false true), w') /\
    DataBase.fs w' = DataBase.fs (disk []).
Proof.
  apply (@load_data_keeps_data_in_memory listed_files
           (example_object (Some {| data := power_3d |}) (Some "results/R1001P.p"%string)
              true false true)
           "R1001P" "results/R1001P.p" {| data := power_3d |} (disk []));
    try reflexivity.
  left. reflexivity.
Defined.

Lemma save_data_goes_on_without_save_file_witness :
  @DataBase.save_data listed_files
    (example_object (Some {| data := power_3d |}) None true false false)
    (disk [""; "results"]%string)
  = (Err (Builtin TypeError),
     @printing listed_files (disk [""; "results"]%string)
       ".save_file and .save_dir must be set before saving data.").
Proof.
  apply (proj2 (@save_data_goes_on_without_save_file listed_files
                  (example_object (Some {| data := power_3d |}) None true false false)
                  "results" (disk [""; "results"]%string))
           {| data := power_3d |});
    reflexivity.
Defined.

Lemma save_data_drops_makedirs_failure_witness :
  @DataBase.save_data listed_files
    (example_object (Some {| data := power_3d |}) (Some "results/R1001P.p"%string)
       true false false)
    (disk ["results"%string])
  = (Ok tt, disk ["results/R1001P.p"; "results"]%string).
Proof.
  apply (@save_data_drops_makedirs_failure listed_files
           (example_object (Some {| data := power_3d |}) (Some "results/R1001P.p"%string)
              true false false)
           {| data := power_3d |} "results/R1001P.p" "results" (disk ["results"%string])
           ["results"%string]);
    reflexivity.
Defined.

Lemma create_subject_reports_every_KeyError_witness :
  @create_subject example_registry "FR1" "R1001P" 0 (Some "sme"%string) empty_world
  = (Ok None, telling empty_world "'sme' is not a valid analysis name.").
Proof.
  apply (proj1 (proj2 (@create_subject_reports_every_KeyError example_registry
                         "FR1" "R1001P" 0)) "sme" empty_world).
  reflexivity.
Defined.

Lemma pipeline_init_checks_witness :
  @pipeline_init example_registry "FR1" "R1001P" 0
    (Some ["fit_spectra"%string]) (Some [[]; []]) empty_world
  = (Ok Bare,
     telling empty_world
       "Both analysis_name_list and analysis_params_list must be the same length.").
Proof.
  apply (proj1 (proj2 (@pipeline_init_checks example_registry "FR1" "R1001P" 0 empty_world))
           ["fit_spectra"%string] [[]; []]).
  simpl. lia.
Defined.

Lemma pipeline_with_unknown_name_witness :
  (exists p w1,
     @pipeline_init example_registry "FR1" "R1001P" 0 (Some ["sme"%string]) (Some [[]])
       empty_world = (Ok (Ready p), w1) /\
     p_analyses p = [None] /\
     forall w2, exists w3,
       @pipeline_run example_registry (Ready p) w2 = (Err (Builtin AttributeError), w3)) /\
  (forall key v rest, exists w1,
     @pipeline_init example_registry "FR1" "R1001P" 0 (Some ["sme"%string])
       (Some [(key, v) :: rest]) empty_world
     = (Err (Builtin AttributeError), w1)).
Proof.
  apply (@pipeline_with_unknown_name example_registry "FR1" "R1001P" 0 "sme" empty_world).
  reflexivity.
Defined.

Lemma empty_pipeline_gets_new_dict_witness :
  exists r p',
    @pipeline_run example_registry
      (Ready {| p_task := "FR1"; p_subject := "R1001P"; p_montage := 0; p_names := [];
                p_params := []; p_analyses := []; p_res := VNone |}) empty_world
    = (Ok (Ready p'),
       {| out := out empty_world; attrs := attrs empty_world;
          heap := <[r := ∅]> (heap empty_world) |}) /\
    p_res p' = VDict r /\ heap empty_world !! r = None /\ p_analyses p' = [].
Proof.
  apply (@empty_pipeline_gets_new_dict example_registry
           {| p_task := "FR1"; p_subject := "R1001P"; p_montage := 0; p_names := [];
              p_params := []; p_analyses := []; p_res := VNone |} empty_world).
  reflexivity.
Defined.

Lemma example_run_keeps_res a w w' :
  example_run a w = (Ok tt, w') -> forall b, res_attr w' b = res_attr w b.
Proof.
  unfold example_run. destruct (attrs w !! a) as [obj|]; [|discriminate].
  destruct (obj !! "res") as [[| | | |r|]|]; try discriminate.
  intros E b. inversion E; subst. reflexivity.
Qed.

(** Two analyses: after the run both, and the pipeline, hold the
    dictionary that the first analysis was constructed with. *)
Lemma pipeline_run_shares_first_result_witness :
  p_analyses (pipeline_of (fst two_analyses)) = [Some 0; Some 1] /\
  exists p' a v0,
    object_of (fst (@pipeline_run example_registry
                      (Ready (pipeline_of (fst two_analyses))) (snd two_analyses)))
    = Ready p' /\
    Some 0 = Some a /\ res_attr (snd two_analyses) a = Some v0 /\
    p_res p' = v0 /\
    Forall (fun x => exists b,
              x = Some b /\
              res_attr (snd (@pipeline_run example_registry
                               (Ready (pipeline_of (fst two_analyses)))
                               (snd two_analyses))) b = Some v0)
      (p_analyses (pipeline_of (fst two_analyses))).
Proof.
  assert (Hp : p_analyses (pipeline_of (fst two_analyses)) = [Some 0; Some 1])
    by (vm_compute; reflexivity).
  split; [exact Hp|].
  apply (@pipeline_run_shares_first_result example_registry example_run_keeps_res
           (pipeline_of (fst two_analyses)) (Some 0) [Some 1] (snd two_analyses)).
  - exact Hp.
  - vm_compute. reflexivity.
Defined.
